(** * rustore-downloader: the download-link resolution engine of [script.js]

    A shallow embedding of the decision logic of [downloadApp]
    (script.js, lines 273-611): the density ladder, the profile trial loop,
    the download plan (roles and file names) and the copy-to-clipboard
    export texts, followed by the properties the specification states
    about them; then the helpers and handlers around it (escaping, the
    density select and Retry, the image preview, rating stars, version
    names, the paging of comments) with properties read off the code.

    Conventions of the embedding.
    - JavaScript numbers that the code only ever receives as integers
      (application ids, version codes, sizes, densities, HTTP statuses)
      are [Z], read in the range of the safe integers, where [`${n}`]
      prints the decimal digits; an absent, [null] or ill-typed field is
      [None]. Where a property depends on how a served value of another
      type is printed, the printed text is a parameter of its statement.
    - JavaScript strings are [string]; the only character test of the code
      ([/[^a-zA-Z0-9]/]) separates ASCII letters and digits from everything
      else, so it reads the same on bytes as on UTF-16 code units.
    - The answer of the service is the envelope of the response schema,
      the JSON text [null], or a body that is not JSON. The entries of
      [downloadUrls] are objects, as the schema has them: on a [null]
      entry line 320 throws, which the embedding does not represent.
    - The remote service is a function from the request body to what
      [fetch] yields. The trial list never repeats a profile, so a service
      that answers by call history is covered by such a function. *)

From Stdlib Require Import List ZArith QArith Qround Bool Lia Lqa Arith.
From Stdlib Require Import Sorting.Permutation Sorting.Sorted.
From Stdlib Require Import Strings.String Strings.Ascii.
From Stdlib Require Import Numbers.DecimalString Numbers.DecimalNat.
Import ListNotations.

Local Open Scope string_scope.
Local Open Scope list_scope.
Local Open Scope Z_scope.

(** ** JavaScript idioms used by the code *)

Module Js.

(** [String(n)] and [`${n}`] on an integer. *)
Definition string_of_Z (z : Z) : string :=
  NilZero.string_of_int (Z.to_int z).

(** [`${n}`] on the config counter, a positive integer. *)
Definition string_of_nat (n : nat) : string :=
  NilZero.string_of_uint (Nat.to_uint n).

(** Truthiness of a string-valued field: present and not empty. *)
Definition truthy (s : option string) : bool :=
  match s with
  | Some (String _ _) => true
  | _ => false
  end.

(** [s || fallback] on a string-valued field. *)
Definition or_else (s : option string) (fallback : string) : string :=
  match s with
  | Some (String c r) => String c r
  | _ => fallback
  end.

Definition in_range (lo hi c : ascii) : bool :=
  ((nat_of_ascii lo <=? nat_of_ascii c)
     && (nat_of_ascii c <=? nat_of_ascii hi))%nat.

(** The complement of the class [[^a-zA-Z0-9]]. *)
Definition is_alnum (c : ascii) : bool :=
  in_range "a" "z" c || in_range "A" "Z" c || in_range "0" "9" c.

(** [s.replace(/[^a-zA-Z0-9]/g, '')]. *)
Fixpoint strip_non_alnum (s : string) : string :=
  match s with
  | EmptyString => EmptyString
  | String c r =>
      if is_alnum c then String c (strip_non_alnum r) else strip_non_alnum r
  end.

(** [s.slice(0, n)]. *)
Fixpoint slice0 (n : nat) (s : string) : string :=
  match n, s with
  | S k, String c r => String c (slice0 k r)
  | _, _ => EmptyString
  end.

(** [lines.join(sep)]. *)
Fixpoint join (sep : string) (l : list string) : string :=
  match l with
  | [] => ""
  | [x] => x
  | x :: r => x ++ sep ++ join sep r
  end.

(** [Array.from(new Set(l))]: a set keeps its elements in insertion
    order and ignores the insertion of an element it already has. *)
Fixpoint set_add_all (seen l : list Z) : list Z :=
  match l with
  | [] => seen
  | x :: r =>
      if existsb (Z.eqb x) seen then set_add_all seen r
      else set_add_all (seen ++ [x]) r
  end.

Definition array_from_set (l : list Z) : list Z := set_add_all [] l.

(** The message of the [TypeError] raised by [null.property], in the
    wording of V8. *)
Definition cannot_read_null (property : string) : string :=
  "Cannot read properties of null (reading '" ++ property ++ "')".

(** [Array.prototype.sort(cmp)] is stable, and [cmp a b < 0] places [a]
    before [b]; on a consistent comparator the result is determined by
    these two facts. It is computed here by stable insertion. *)
Fixpoint sort_insert {A} (cmp : A -> A -> Z) (x : A) (l : list A) : list A :=
  match l with
  | [] => [x]
  | y :: r => if cmp y x <? 0 then y :: sort_insert cmp x r else x :: y :: r
  end.

Fixpoint sort {A} (cmp : A -> A -> Z) (l : list A) : list A :=
  match l with
  | [] => []
  | x :: r => sort_insert cmp x (sort cmp r)
  end.

End Js.

(** ** The response envelope of [/v2/download-link] *)

(** One element of [body.downloadUrls]. *)
Record RawArtifact := {
  raw_url : option string;
  raw_size : option Z;      (* [Some] exactly when [typeof size === 'number'] *)
  raw_hash : option string
}.

Record Body := {
  body_appId : option Z;
  body_versionCode : option Z;
  body_versionId : option Z;
  body_signature : option string;
  body_downloadUrls : option (list RawArtifact)
}.

Record Data := {
  data_code : option string;
  data_message : option string;
  data_body : option Body
}.

(** [data?.body?.downloadUrls || []]. *)
Definition downloadUrls_of (data : Data) : list RawArtifact :=
  match data_body data with
  | Some b => match body_downloadUrls b with Some l => l | None => [] end
  | None => []
  end.

(** [data?.body?.versionCode ?? 'unknown'], as it is interpolated. *)
Definition versionCode_text (data : Data) : string :=
  match data_body data with
  | Some b =>
      match body_versionCode b with
      | Some v => Js.string_of_Z v
      | None => "unknown"
      end
  | None => "unknown"
  end.

(** ** The download plan ([buildDownloadPlan], lines 324-355) *)

Inductive Role := base | config.

(** The objects of [items]: the index in [urls] and the three fields. *)
Record Item := {
  idx : nat;
  url : option string;
  size : option Z;
  hash : option string
}.

(** The objects of the plan: an item with its role and file name. *)
Record PlanEntry := {
  item : Item;
  role : Role;
  filename : string
}.

(** The callback [(u, idx) => ({idx, url: u?.url, size: ..., hash: ...})]. *)
Definition to_item (u : RawArtifact) (i : nat) : Item :=
  {| idx := i;
     url := raw_url u;
     size := raw_size u;
     hash := if Js.truthy (raw_hash u) then raw_hash u else None |}.

(** [urls.map(callback)], counting from index [i]. *)
Fixpoint index_from (i : nat) (urls : list RawArtifact) : list Item :=
  match urls with
  | [] => []
  | u :: r => to_item u i :: index_from (S i) r
  end.

(** [.filter(i => !!i.url)]. *)
Definition items_of (urls : list RawArtifact) : list Item :=
  filter (fun i => Js.truthy (url i)) (index_from 0 urls).

(** [size || 0]. *)
Definition size_or_0 (i : Item) : Z :=
  match size i with Some z => z | None => 0 end.

(** The comparator [(a, b) => (b.size || 0) - (a.size || 0)]. *)
Definition by_size_desc (a b : Item) : Z := size_or_0 b - size_or_0 a.

(** [sortedBySize[0]?.idx]. *)
Definition baseIdx_of (items : list Item) : option nat :=
  match Js.sort by_size_desc items with
  | [] => None
  | i :: _ => Some (idx i)
  end.

(** [(i.hash || '').replace(/[^a-zA-Z0-9]/g, '').slice(0, 12)]. *)
Definition safeHash_of (i : Item) : string :=
  Js.slice0 12 (Js.strip_non_alnum (Js.or_else (hash i) "")).

(** [safeHash ? '_' + safeHash : '']. *)
Definition hash_suffix (safeHash : string) : string :=
  match safeHash with
  | EmptyString => ""
  | _ => "_" ++ safeHash
  end.

Definition is_base (baseIdx : option nat) (i : Item) : bool :=
  match baseIdx with
  | Some b => Nat.eqb (idx i) b
  | None => false
  end.

(** [`rustore_${appId}_${versionCode}_base${safeHash ? '_' + safeHash : ''}.apk`],
    with [versionCode] already a text. *)
Definition base_filename (appId : Z) (versionCode safeHash : string) : string :=
  "rustore_" ++ Js.string_of_Z appId ++ "_" ++ versionCode
    ++ "_base" ++ hash_suffix safeHash ++ ".apk".

(** [`rustore_${appId}_${versionCode}_config${n}${...}.apk`], the last
    hole being the same hash suffix. *)
Definition config_filename (appId : Z) (versionCode : string) (n : nat)
    (safeHash : string) : string :=
  "rustore_" ++ Js.string_of_Z appId ++ "_" ++ versionCode
    ++ "_config" ++ Js.string_of_nat n ++ hash_suffix safeHash ++ ".apk".

(** The callback of the final [items.map], with [configCounter] threaded
    through: the counter is read and incremented on the config branch
    only. *)
Fixpoint assign_roles (appId : Z) (versionCode : string)
    (baseIdx : option nat) (configCounter : nat) (items : list Item)
    : list PlanEntry :=
  match items with
  | [] => []
  | i :: r =>
      let safeHash := safeHash_of i in
      if is_base baseIdx i then
        {| item := i; role := base;
           filename := base_filename appId versionCode safeHash |}
          :: assign_roles appId versionCode baseIdx configCounter r
      else
        let n := configCounter in
        {| item := i; role := config;
           filename := config_filename appId versionCode n safeHash |}
          :: assign_roles appId versionCode baseIdx (S configCounter) r
  end.

Definition buildDownloadPlan (appId : Z) (data : Data) : list PlanEntry :=
  let versionCode := versionCode_text data in
  let items := items_of (downloadUrls_of data) in
  let baseIdx := baseIdx_of items in
  assign_roles appId versionCode baseIdx 1%nat items.

(** ** What [renderDownloadLinks] computes (lines 315-561) *)

(** The attempt shown as "Used profile". *)
Record Meta := {
  screenDensity : Z;
  withoutSplitsUsed : bool
}.

(** [urls.map(u => u.url).filter(Boolean)]. *)
Fixpoint allLinks_of (urls : list RawArtifact) : list string :=
  match urls with
  | [] => []
  | u :: r =>
      match raw_url u with
      | Some (String c s) => String c s :: allLinks_of r
      | _ => allLinks_of r
      end
  end.

(** The values the click handlers close over. *)
Record Rendered := {
  shown_data : Data;
  usedProfile : Meta;
  allLinks : list string;
  isSplitSet : bool;
  plan : list PlanEntry
}.

Definition renderDownloadLinks (appId : Z) (data : Data) (meta : Meta)
    : Rendered :=
  let urls := downloadUrls_of data in
  let links := allLinks_of urls in
  {| shown_data := data;
     usedProfile := meta;
     allLinks := links;
     isSplitSet := (1 <? List.length links)%nat;
     plan := buildDownloadPlan appId data |}.

(** ** The export texts (lines 476-537) *)

Definition nl : string := String (ascii_of_nat 10) EmptyString.
Definition dq : string := String (ascii_of_nat 34) EmptyString.

(** [`${item.url}`]. *)
Definition url_text (e : PlanEntry) : string :=
  match url (item e) with
  | Some s => s
  | None => "undefined"
  end.

(** The text of "Copy links": [allLinks.join('\n')]. *)
Definition copyLinksText (r : Rendered) : string := Js.join nl (allLinks r).

Definition pwsh_fetch_line (e : PlanEntry) : string :=
  "Invoke-WebRequest -Uri " ++ dq ++ url_text e ++ dq
    ++ " -OutFile (Join-Path $outDir " ++ dq ++ filename e ++ dq ++ ")".

Definition pwsh_install_lines : list string :=
  [ "";
    "# Install (requires adb in PATH and USB debugging enabled)";
    ("$apks = Get-ChildItem -Path $outDir -Filter " ++ dq ++ "*.apk" ++ dq
      ++ " | Sort-Object Length -Descending"
      ++ " | Select-Object -ExpandProperty FullName")%string;
    ("Write-Host " ++ dq ++ "Running: adb install-multiple <all apks>"
      ++ dq)%string;
    "adb install-multiple @apks" ].

(** The three lines pushed first (lines 504-506). *)
Definition pwsh_opening_lines : list string :=
  [ ("$ErrorActionPreference = " ++ dq ++ "Stop" ++ dq)%string;
    ("$outDir = Join-Path $PWD " ++ dq ++ "downloads" ++ dq)%string;
    "New-Item -ItemType Directory -Force -Path $outDir | Out-Null" ].

(** The line pushed after the loop (line 510). *)
Definition pwsh_done_line : string :=
  "Write-Host " ++ dq ++ "Done. Files saved to" ++ dq ++ " $outDir".

(** The [lines] array of the "Copy PowerShell script" handler. *)
Definition pwsh_lines (r : Rendered) : list string :=
  pwsh_opening_lines
    ++ map pwsh_fetch_line (plan r)
    ++ [ pwsh_done_line ]
    ++ (if isSplitSet r then pwsh_install_lines else []).

Definition pwshScript (r : Rendered) : string := Js.join nl (pwsh_lines r).

Definition curl_fetch_line (e : PlanEntry) : string :=
  "curl -L " ++ dq ++ url_text e ++ dq
    ++ " -o " ++ dq ++ "downloads/" ++ filename e ++ dq.

Definition curl_install_lines : list string :=
  [ ""; "# Install (requires adb)"; "adb install-multiple downloads/*.apk" ].

(** The line pushed first (line 526). *)
Definition curl_opening_lines : list string := [ "mkdir -p downloads" ].

(** The [lines] array of the "Copy curl commands" handler. *)
Definition curl_lines (r : Rendered) : list string :=
  curl_opening_lines
    ++ map curl_fetch_line (plan r)
    ++ (if isSplitSet r then curl_install_lines else []).

Definition curlScript (r : Rendered) : string := Js.join nl (curl_lines r).

(** ** The density ladder (lines 564-576) *)

(** [options.screenDensity] as [Number.isFinite] sees it. The callers pass
    nothing (the Download button) or the number read from the density
    select, whose options are integers (the Retry button). *)
Inductive DensityOption :=
| NotGiven                (* [options] has no [screenDensity] *)
| Finite (d : Z)          (* a finite number *)
| NotFinite.              (* [NaN], an infinity, or not a number at all *)

(** [guessAndroidScreenDensity], on [window.devicePixelRatio]. *)
Definition guessAndroidScreenDensity (devicePixelRatio : Q) : Z :=
  let dpr := if Qeq_bool devicePixelRatio 0 then 1%Q else devicePixelRatio in
  let density :=
    if Qle_bool 4 dpr then 640
    else if Qle_bool 3 dpr then 480
    else if Qle_bool 2 dpr then 320
    else if Qle_bool (3 # 2) dpr then 240
    else 160 in
  Z.max 240 density.

Definition requestedDensity_of (o : DensityOption) (devicePixelRatio : Q) : Z :=
  match o with
  | Finite d => d
  | _ => guessAndroidScreenDensity devicePixelRatio
  end.

Definition densityCandidates_of (requestedDensity : Z) : list Z :=
  Js.array_from_set [requestedDensity; 480; 320; 240; 160; 0].

Definition withoutSplitsCandidates : list bool := [false; true].

(** ** The resolution request and what [fetch] yields (lines 285-313) *)

Record Request := {
  req_appId : Z;
  req_firstInstall : bool;
  req_mobileServices : list string;
  req_supportedAbis : list string;
  req_screenDensity : Z;
  req_supportedLocales : list string;
  req_sdkVersion : Z;
  req_withoutSplits : bool;
  req_signatureFingerprint : option string
}.

Definition request_body (appId sdkVersion : Z) (withoutSplits : bool)
    (density : Z) : Request :=
  {| req_appId := appId;
     req_firstInstall := true;
     req_mobileServices := [];
     req_supportedAbis :=
       ["x86_64"; "arm64-v8a"; "x86"; "armeabi-v7a"; "armeabi"];
     req_screenDensity := density;
     req_supportedLocales := ["ru_RU"];
     req_sdkVersion := sdkVersion;
     req_withoutSplits := withoutSplits;
     req_signatureFingerprint := None |}.

(** [response.json()]: the parsed envelope, the value [null] when the body
    is the JSON text [null], or a rejection when the body is not JSON. A
    body that is a number, a string or an array has none of the fields
    read by the code and is the envelope without fields. *)
Inductive Json :=
| Parsed (data : Data)
| JsonNull
| Unparsable (message : string).

(** [await fetch(...)]: a rejection (no response at all), or a response
    with its status and body. *)
Inductive FetchResult :=
| Rejected (message : string)
| Responded (status : Z) (json : Json).

Definition Service := Request -> FetchResult.

(** [response.ok]. *)
Definition status_ok (status : Z) : bool :=
  (200 <=? status) && (status <=? 299).

(** ** The trial loop as a computation with state, early return and
       exceptions *)

(** The mutable locals of [downloadApp], and the requests sent so far. *)
Record LoopState := {
  lastData : option Data;
  lastMeta : Meta;
  sent : list Request
}.

Inductive Completion (A : Type) :=
| Normal (a : A)
| Returned (r : Rendered)        (* [renderDownloadLinks(...); return;] *)
| Thrown (message : string).     (* [throw new Error(message)] *)
Arguments Normal {A} a.
Arguments Returned {A} r.
Arguments Thrown {A} message.

Definition M (A : Type) : Type := LoopState -> Completion A * LoopState.

Definition ret {A} (a : A) : M A := fun s => (Normal a, s).

Definition bind {A B} (m : M A) (k : A -> M B) : M B :=
  fun s =>
    match m s with
    | (Normal a, s') => k a s'
    | (Returned r, s') => (Returned r, s')
    | (Thrown e, s') => (Thrown e, s')
    end.

Notation "x <- m ;; k" := (bind m (fun x => k))
  (at level 61, m at next level, right associativity).
Notation "m ;;; k" := (bind m (fun _ => k))
  (at level 61, right associativity).

Definition throw {A} (message : string) : M A := fun s => (Thrown message, s).
Definition return_with {A} (r : Rendered) : M A := fun s => (Returned r, s).

Definition remember (data : Data) (meta : Meta) : M unit :=
  fun s =>
    (Normal tt,
     {| lastData := Some data; lastMeta := meta; sent := sent s |}).

Definition get_lastMeta : M Meta := fun s => (Normal (lastMeta s), s).

(** The request leaves the page. *)
Definition send (rq : Request) : M unit :=
  fun s =>
    (Normal tt,
     {| lastData := lastData s; lastMeta := lastMeta s;
        sent := sent s ++ [rq] |}).

(** [await fetch(url, {method: 'POST', headers, body})]: the request goes
    out, then the service's answer comes back. *)
Definition fetch (svc : Service) (rq : Request) : M FetchResult :=
  send rq ;;; ret (svc rq).

(** [for (const x of l) body(x)]. *)
Fixpoint for_of {A} (l : list A) (body : A -> M unit) : M unit :=
  match l with
  | [] => ret tt
  | x :: r => body x ;;; for_of r body
  end.

(** [errBody.message || 'Unknown error'] where
    [errBody = await response.json().catch(() => ({}))]: a body that is
    not JSON reads as [{}]; on [null] the access throws, which is [None]
    here. *)
Definition errBody_message (j : Json) : option string :=
  match j with
  | Parsed d => Some (Js.or_else (data_message d) "Unknown error")
  | JsonNull => None
  | Unparsable _ => Some "Unknown error"
  end.

(** What [data?.code], [data?.message] and [data?.body] read on [null]. *)
Definition null_data : Data :=
  {| data_code := None; data_message := None; data_body := None |}.

(** [requestDownloadLink] from the point where [fetch] has settled. *)
Definition handle_response (response : FetchResult) : M Data :=
  match response with
  | Rejected message => throw message
  | Responded status json =>
      if negb (status_ok status) then
        match errBody_message json with
        | Some message =>
            throw ("HTTP " ++ Js.string_of_Z status ++ ": " ++ message)
        | None => throw (Js.cannot_read_null "message")
        end
      else
        match json with
        | Parsed data => ret data
        | JsonNull => ret null_data
        | Unparsable message => throw message
        end
  end.

Definition requestDownloadLink (svc : Service) (appId sdkVersion : Z)
    (withoutSplits : bool) (density : Z) : M Data :=
  response <- fetch svc (request_body appId sdkVersion withoutSplits density) ;;
  handle_response response.

(** [data?.code !== 'OK']. *)
Definition code_not_OK (data : Data) : bool :=
  match data_code data with
  | Some c => negb (String.eqb c "OK")
  | None => true
  end.

(** The body of the inner loop once [data] is known (lines 585-596). *)
Definition examine (appId : Z) (density : Z) (withoutSplits : bool)
    (data : Data) : M unit :=
  if code_not_OK data then
    throw (Js.or_else (data_message data) "Server returned error")
  else
    remember data {| screenDensity := density;
                     withoutSplitsUsed := withoutSplits |} ;;;
    match downloadUrls_of data with
    | _ :: _ =>
        meta <- get_lastMeta ;;
        return_with (renderDownloadLinks appId data meta)
    | [] => ret tt
    end.

(** The body of the inner loop (lines 584-596). *)
Definition trial (svc : Service) (appId sdkVersion : Z) (density : Z)
    (withoutSplits : bool) : M unit :=
  data <- requestDownloadLink svc appId sdkVersion withoutSplits density ;;
  examine appId density withoutSplits data.

(** One pass of the inner loop body for the pair (density, withoutSplits). *)
Definition trial_at (svc : Service) (appId sdkVersion : Z) (p : Z * bool)
    : M unit :=
  trial svc appId sdkVersion (fst p) (snd p).

(** What ends up in [#downloadResults]. *)
Inductive Outcome :=
| Success (r : Rendered)
| EmptyAfterExhaustion (lastData : option Data)
| Failure (message : string).

(** The [catch] clause:
    [error?.message ? String(error.message) : 'Please try again']. *)
Definition shown_error (message : string) : string :=
  Js.or_else (Some message) "Please try again".

(** [downloadApp(appId, sdkVersion, options)]: the outcome shown and the
    requests sent, in the order they were sent. *)
Definition downloadApp (svc : Service) (devicePixelRatio : Q)
    (appId sdkVersion : Z) (options : DensityOption)
    : Outcome * list Request :=
  let requestedDensity := requestedDensity_of options devicePixelRatio in
  let densityCandidates := densityCandidates_of requestedDensity in
  let s0 := {| lastData := None;
               lastMeta := {| screenDensity := requestedDensity;
                              withoutSplitsUsed := false |};
               sent := [] |} in
  let loop :=
    for_of densityCandidates (fun density =>
      for_of withoutSplitsCandidates (fun withoutSplits =>
        trial svc appId sdkVersion density withoutSplits)) in
  match loop s0 with
  | (Normal _, s) => (EmptyAfterExhaustion (lastData s), sent s)
  | (Returned r, s) => (Success r, sent s)
  | (Thrown e, s) => (Failure (shown_error e), sent s)
  end.

(** ** The page around a running [downloadApp]

    [downloadApp] is suspended at each [await fetch]; while it is, the page
    handles other events. The ones that withdraw what the user asked for
    are [state.reset()] (a new search, or the search field cleared: lines
    103-108) and [ModalManager.hide('downloadModal', 'downloadResults')]
    (the modal closed: lines 70-77). *)

Module Page.

(** A request in flight, with the [signal] option it was created with. *)
Record InFlight := {
  in_request : Request;
  in_signal : option nat
}.

(** [innerHTML] of [#downloadResults]. *)
Inductive Content :=
| Blank
| Obtaining
| Shown (o : Outcome).

(** A suspended [downloadApp]: its arguments, loop position and locals,
    and the fetch it awaits. *)
Record Task := {
  t_appId : Z;
  t_sdkVersion : Z;
  t_density : Z;
  t_withoutSplits : bool;
  t_rest : list (Z * bool);
  t_locals : LoopState;
  t_fetch : InFlight
}.

Record State := {
  controller : option nat;      (* [state.controller] *)
  fresh : nat;                  (* the next [new AbortController()] *)
  wire : list Request;          (* every request handed to [fetch] *)
  downloadResults : Content;
  task : option Task
}.

Inductive Event :=
| StateReset
| HideDownloadModal
| FetchSettled (r : FetchResult).

(** The loop order: each density with [false], then with [true]. *)
Definition trials_of (densityCandidates : list Z) : list (Z * bool) :=
  flat_map (fun d => map (fun w => (d, w)) withoutSplitsCandidates)
           densityCandidates.

(** The fetch of [requestDownloadLink]: its options are [method],
    [headers] and [body]; there is no [signal]. *)
Definition download_fetch (appId sdkVersion : Z) (withoutSplits : bool)
    (density : Z) : InFlight :=
  {| in_request := request_body appId sdkVersion withoutSplits density;
     in_signal := None |}.

(** Run [downloadApp] from its loop position up to the next [await]. *)
Definition advance (p : State) (appId sdkVersion : Z)
    (locals : LoopState) (rest : list (Z * bool)) : State :=
  match rest with
  | [] =>
      {| controller := controller p; fresh := fresh p; wire := wire p;
         downloadResults := Shown (EmptyAfterExhaustion (lastData locals));
         task := None |}
  | (density, withoutSplits) :: rest' =>
      let f := download_fetch appId sdkVersion withoutSplits density in
      {| controller := controller p; fresh := fresh p;
         wire := wire p ++ [in_request f];
         downloadResults := downloadResults p;
         task := Some {| t_appId := appId; t_sdkVersion := sdkVersion;
                         t_density := density;
                         t_withoutSplits := withoutSplits;
                         t_rest := rest'; t_locals := locals;
                         t_fetch := f |} |}
  end.

(** The call [downloadApp(appId, sdkVersion, options)] up to its first
    [await]. *)
Definition start (devicePixelRatio : Q) (appId sdkVersion : Z)
    (options : DensityOption) : State :=
  let requestedDensity := requestedDensity_of options devicePixelRatio in
  let densityCandidates := densityCandidates_of requestedDensity in
  let locals := {| lastData := None;
                   lastMeta := {| screenDensity := requestedDensity;
                                  withoutSplitsUsed := false |};
                   sent := [] |} in
  advance {| controller := None; fresh := 0%nat; wire := [];
             downloadResults := Obtaining; task := None |}
          appId sdkVersion locals (trials_of densityCandidates).

(** The awaited fetch settles with [r] and [downloadApp] resumes. *)
Definition settle (p : State) (r : FetchResult) : State :=
  match task p with
  | None => p
  | Some t =>
      let resumed :=
        data <- handle_response r ;;
        examine (t_appId t) (t_density t) (t_withoutSplits t) data in
      let finished (o : Outcome) :=
        {| controller := controller p; fresh := fresh p; wire := wire p;
           downloadResults := Shown o; task := None |} in
      match resumed (t_locals t) with
      | (Thrown e, _) => finished (Failure (shown_error e))
      | (Returned rd, _) => finished (Success rd)
      | (Normal _, locals) =>
          advance p (t_appId t) (t_sdkVersion t) locals (t_rest t)
      end
  end.

(** Aborting controller [c] rejects the fetches created with its signal. *)
Definition abort (c : nat) (p : State) : State :=
  match task p with
  | Some t =>
      match in_signal (t_fetch t) with
      | Some c' =>
          if Nat.eqb c c' then settle p (Rejected "AbortError") else p
      | None => p
      end
  | None => p
  end.

Definition step (p : State) (e : Event) : State :=
  match e with
  | StateReset =>
      let p' := match controller p with
                | Some c => abort c p
                | None => p
                end in
      {| controller := Some (fresh p'); fresh := S (fresh p');
         wire := wire p'; downloadResults := downloadResults p';
         task := task p' |}
  | HideDownloadModal =>
      {| controller := controller p; fresh := fresh p; wire := wire p;
         downloadResults := Blank; task := task p |}
  | FetchSettled r => settle p r
  end.

Definition run (p : State) (events : list Event) : State :=
  fold_left step events p.

Definition is_cancellation (e : Event) : bool :=
  match e with
  | StateReset | HideDownloadModal => true
  | FetchSettled _ => false
  end.

(** The service answers the awaited request, [n] times at most. *)
Fixpoint serve (svc : Service) (n : nat) (p : State) : State :=
  match n with
  | O => p
  | S k =>
      match task p with
      | None => p
      | Some t => serve svc k (settle p (svc (in_request (t_fetch t))))
      end
  end.

(** The awaited fetch was created without a signal. *)
Definition signal_free (p : State) : Prop :=
  match task p with
  | Some t => in_signal (t_fetch t) = None
  | None => True
  end.

End Page.

(** ** The specification's wording, for comparison with the code *)

Module Spec.

Definition alphabet : string :=
  "abcdefghijklmnopqrstuvwxyzABCDEFGHIJKLMNOPQRSTUVWXYZ0123456789".

Fixpoint occurs (c : ascii) (s : string) : bool :=
  match s with
  | EmptyString => false
  | String c' r => Ascii.eqb c c' || occurs c r
  end.

Definition alphanumeric (c : ascii) : bool := occurs c alphabet.

(** "the artifact's hash with all non-alphanumeric characters stripped
    and truncated to 12 characters". *)
Definition hash12 (h : option string) : string :=
  let s := match h with Some s => s | None => "" end in
  string_of_list_ascii
    (firstn 12 (filter alphanumeric (list_ascii_of_string s))).

Definition decimal (z : Z) : string := NilZero.string_of_int (Z.to_int z).

Definition decimal_nat (n : nat) : string :=
  NilZero.string_of_uint (Nat.to_uint n).

(** "rustore_{appId}_{versionCode}_base[_<hash12>].apk" and
    "rustore_{appId}_{versionCode}_config{n}[_<hash12>].apk". *)
Definition filename_pattern (appId : Z) (versionCode : option Z)
    (r : Role) (n : nat) (h : option string) : string :=
  "rustore_" ++ decimal appId ++ "_"
    ++ match versionCode with Some v => decimal v | None => "unknown" end
    ++ "_"
    ++ match r with
       | base => "base"
       | config => "config" ++ decimal_nat n
       end
    ++ match hash12 h with
       | EmptyString => ""
       | String c s => "_" ++ String c s
       end
    ++ ".apk".

Definition versionCode_of (data : Data) : option Z :=
  match data_body data with
  | Some b => body_versionCode b
  | None => None
  end.

(** An entry has a URL when the field is there and is not empty. *)
Definition has_url (u : RawArtifact) : bool :=
  match raw_url u with
  | Some s => negb (String.eqb s "")
  | None => false
  end.

(** "absent size treated as 0". *)
Definition size_of (u : RawArtifact) : Z :=
  match raw_size u with Some z => z | None => 0 end.

(** The positions of the entries that have a URL, ascending. *)
Definition url_positions (urls : list RawArtifact) : list nat :=
  filter (fun k => match nth_error urls k with
                   | Some u => has_url u
                   | None => false
                   end)
         (seq 0 (List.length urls)).

(** Number the elements of [l] from [n] on. *)
Definition numbered {A} (n : nat) (l : list A) : list (nat * A) :=
  combine (seq n (List.length l)) l.

(** The profile trial list: the densities crossed with
    [withoutSplits] in [false, true], [false] first. *)
Definition trial_list (densities : list Z) : list (Z * bool) :=
  flat_map (fun d => [(d, false); (d, true)]) densities.

(** "Append the fixed fallback ladder. Deduplicate while preserving
    first-seen order." *)
Definition ladder : list Z := [480; 320; 240; 160; 0].

(** A call result has success status when the transport status is 2xx,
    the body parses and its code is "OK"; anything else is an error
    status. *)
Definition ok_data (r : FetchResult) : option Data :=
  match r with
  | Responded status (Parsed data) =>
      if (200 <=? status) && (status <=? 299) then
        match data_code data with
        | Some c => if String.eqb c "OK" then Some data else None
        | None => None
        end
      else None
  | _ => None
  end.

Definition error_status (r : FetchResult) : Prop := ok_data r = None.

(** Success status with an empty artifact list: "try next profile". *)
Definition empty_answer (r : FetchResult) : Prop :=
  exists data, ok_data r = Some data /\ downloadUrls_of data = [].

(** The request of a profile trial. *)
Definition request_of (appId sdkVersion : Z) (p : Z * bool) : Request :=
  request_body appId sdkVersion (snd p) (fst p).

Definition profile_of (p : Z * bool) : Meta :=
  {| screenDensity := fst p; withoutSplitsUsed := snd p |}.

(** "cancellation must abort the current network call and suppress any
    further profile trials, with no partial/ghost UI updates from the
    cancelled attempt": from the state [p] reached by a cancellation,
    whatever happens [later], no further request goes out and no outcome
    of the attempt gets shown. *)
Definition cancellation_respected (p : Page.State)
    (later : list Page.Event) : Prop :=
  let q := Page.run p later in
  Page.wire q = Page.wire p
  /\ (forall o, Page.downloadResults q = Page.Shown o ->
                Page.downloadResults p = Page.Shown o).

(** "select the base artifact as the one with the maximum size (absent
    size treated as 0); first occurrence wins ties": the entry at position
    [k] has a URL, no entry with a URL is larger, and those before it are
    smaller. *)
Definition base_at (urls : list RawArtifact) (k : nat) : Prop :=
  exists u,
    nth_error urls k = Some u
    /\ has_url u = true
    /\ (forall j v, nth_error urls j = Some v -> has_url v = true ->
                    size_of v <= size_of u)
    /\ (forall j v, (j < k)%nat -> nth_error urls j = Some v ->
                    has_url v = true -> size_of v < size_of u).

(** Each line on a line of its own, after what precedes. *)
Fixpoint each_on_a_line (lines : list string) : string :=
  match lines with
  | [] => ""
  | l :: rest => nl ++ l ++ each_on_a_line rest
  end.

(** "each produces a text script that creates an output directory, issues
    one fetch-to-file command per descriptor using its computed filename,
    and -- only if more than one descriptor is present -- appends a
    batch-install invocation": the opening text, one command per
    descriptor in their order, the closing text, and the install text
    under that condition. *)
Definition script_of (opening : string) (fetch_command : PlanEntry -> string)
    (closing install : string) (descriptors : list PlanEntry) : string :=
  opening
    ++ each_on_a_line (map fetch_command descriptors)
    ++ closing
    ++ (if (1 <? List.length descriptors)%nat then install else "").

(** The text ends with the suffix. *)
Fixpoint ends_with (suffix text : string) {struct text} : bool :=
  String.eqb text suffix
  || match text with
     | EmptyString => false
     | String _ rest => ends_with suffix rest
     end.

(** The last character of a text. *)
Fixpoint last_char (text : string) : option ascii :=
  match text with
  | EmptyString => None
  | String c EmptyString => Some c
  | String _ rest => last_char rest
  end.

End Spec.

(** ** Sample answers and services *)

Module Sample.

Definition artifact (u : option string) (s : option Z) (h : option string)
    : RawArtifact :=
  {| raw_url := u; raw_size := s; raw_hash := h |}.

Definition answer (urls : list RawArtifact) : Data :=
  {| data_code := Some "OK"; data_message := None;
     data_body := Some {| body_appId := Some 7;
                          body_versionCode := Some 42;
                          body_versionId := Some 9001;
                          body_signature := Some "3A:5F";
                          body_downloadUrls := Some urls |} |}.

(** A split set: two entries of the largest size, one entry without a
    URL, hashes present, absent and over-long. *)
Definition found : Data :=
  answer [ artifact (Some "https://cdn/a.apk") (Some 5)
                    (Some "ab-cd!!12345678901234");
           artifact None (Some 100) None;
           artifact (Some "https://cdn/b.apk") (Some 9) None;
           artifact (Some "https://cdn/c.apk") (Some 9) (Some "zz") ].

(** The same artifacts under another signature. *)
Definition found_resigned : Data :=
  {| data_code := Some "OK"; data_message := Some "again";
     data_body := Some {| body_appId := Some 7;
                          body_versionCode := Some 42;
                          body_versionId := Some 9002;
                          body_signature := None;
                          body_downloadUrls :=
                            Some (downloadUrls_of found) |} |}.

Definition empty : Data := answer [].

Definition refused : Data :=
  {| data_code := Some "ERROR"; data_message := Some "App not found";
     data_body := None |}.

(** Artifacts for the profile (160, true) only. *)
Definition only_160_without_splits : Service :=
  fun rq =>
    if (req_screenDensity rq =? 160) && req_withoutSplits rq
    then Responded 200 (Parsed found)
    else Responded 200 (Parsed empty).

Definition always_refused : Service :=
  fun _ => Responded 200 (Parsed refused).

Definition always_empty : Service :=
  fun _ => Responded 200 (Parsed empty).

Definition meta_240 : Meta :=
  {| screenDensity := 240; withoutSplitsUsed := false |}.

Definition meta_480 : Meta :=
  {| screenDensity := 480; withoutSplitsUsed := true |}.

(** The first answer is empty, the user starts a new search and closes
    the modal, then the answers go on arriving. *)
Definition cancelled_after_first : list Page.Event :=
  [ Page.FetchSettled (Responded 200 (Parsed empty));
    Page.StateReset;
    Page.HideDownloadModal ].

Definition later_answers : list Page.Event :=
  [ Page.FetchSettled (Responded 200 (Parsed empty));
    Page.FetchSettled (Responded 200 (Parsed found)) ].

Definition cancelled_run : list Page.Event :=
  cancelled_after_first ++ later_answers.

End Sample.

Definition is_base_role (e : PlanEntry) : bool :=
  match role e with base => true | config => false end.

Definition is_config_role (e : PlanEntry) : bool :=
  match role e with base => false | config => true end.

(** ** Escaping for display ([escapeHtml], lines 21-26) *)

Module Html.

(** [s.replace(/c/g, replacement)] for a pattern of one character. *)
Fixpoint replace_all (c : ascii) (replacement s : string) : string :=
  match s with
  | EmptyString => EmptyString
  | String x r =>
      if Ascii.eqb x c then replacement ++ replace_all c replacement r
      else String x (replace_all c replacement r)
  end.

Definition quote : ascii := ascii_of_nat 34.

(** The five replacements, in the order of the source. *)
Definition escapeHtml (value : string) : string :=
  replace_all "'" "&#39;"
    (replace_all quote "&quot;"
       (replace_all ">" "&gt;"
          (replace_all "<" "&lt;"
             (replace_all "&" "&amp;" value)))).

(** What one character becomes. *)
Definition escape_char (c : ascii) : string :=
  if Ascii.eqb c "&" then "&amp;"
  else if Ascii.eqb c "<" then "&lt;"
  else if Ascii.eqb c ">" then "&gt;"
  else if Ascii.eqb c quote then "&quot;"
  else if Ascii.eqb c "'" then "&#39;"
  else String c EmptyString.

(** The characters that open or close markup or an attribute value. *)
Definition markup_char (c : ascii) : bool :=
  Ascii.eqb c "<" || Ascii.eqb c ">" || Ascii.eqb c quote || Ascii.eqb c "'".

Definition special_char (c : ascii) : bool :=
  Ascii.eqb c "&" || markup_char c.

End Html.

(** ** The image preview (lines 724-770) *)

Module Preview.

(** [state.images] and [state.imageIndex]. *)
Record State := {
  images : list string;
  imageIndex : Z
}.

(** [l.indexOf(x)] counted from [i]: the first position of [x], or -1. *)
Fixpoint indexOf_from (i : Z) (x : string) (l : list string) : Z :=
  match l with
  | [] => -1
  | y :: r => if String.eqb y x then i else indexOf_from (i + 1) x r
  end.

Definition indexOf (x : string) (l : list string) : Z := indexOf_from 0 x l.

(** [openPreview(imageUrl, event)], [screenshots] being the [src] of the
    images of the card that was clicked. *)
Definition openPreview (imageUrl : string) (screenshots : list string)
    : State :=
  {| images := screenshots; imageIndex := indexOf imageUrl screenshots |}.

Definition count (st : State) : Z := Z.of_nat (List.length (images st)).

(** [navigateImage(direction)]. *)
Definition navigateImage (direction : string) (st : State) : State :=
  if String.eqb direction "prev" && (0 <? imageIndex st) then
    {| images := images st; imageIndex := imageIndex st - 1 |}
  else if String.eqb direction "next" && (imageIndex st <? count st - 1) then
    {| images := images st; imageIndex := imageIndex st + 1 |}
  else st.

(** [state.images[state.imageIndex]], [None] for [undefined]: what
    [navigateImage] assigns to [#previewImage.src] (line 758). *)
Definition shown_image (st : State) : option string :=
  if imageIndex st <? 0 then None
  else nth_error (images st) (Z.to_nat (imageIndex st)).

(** [updateNavigationButtons]: whether each button is displayed, and the
    progress text. *)
Definition prev_displayed (st : State) : bool := 0 <? imageIndex st.
Definition next_displayed (st : State) : bool :=
  imageIndex st <? count st - 1.
Definition progress_text (st : State) : string :=
  Js.string_of_Z (imageIndex st + 1) ++ " / " ++ Js.string_of_Z (count st).

(** [closeImagePreview]. *)
Definition closeImagePreview : State := {| images := []; imageIndex := 0 |}.

(** A sequence of clicks on the two buttons or of arrow keys. *)
Definition navigate_all (directions : list string) (st : State) : State :=
  fold_left (fun s d => navigateImage d s) directions st.

(** The preview as it is displayed: the state, and what was last assigned
    to [#previewImage.src] ([None] for [undefined]). *)
Record View := {
  view_state : State;
  previewImage_src : option string
}.

(** [openPreview] displays the clicked URL itself (line 732). *)
Definition open_view (imageUrl : string) (screenshots : list string) : View :=
  {| view_state := openPreview imageUrl screenshots;
     previewImage_src := Some imageUrl |}.

(** [navigateImage] displays [state.images[state.imageIndex]]
    (line 758). *)
Definition navigate_view (direction : string) (v : View) : View :=
  let st := navigateImage direction (view_state v) in
  {| view_state := st; previewImage_src := shown_image st |}.

Definition navigate_view_all (directions : list string) (v : View) : View :=
  fold_left (fun w d => navigate_view d w) directions v.

End Preview.

(** ** Rating stars ([createRatingStars], lines 51-61) *)

Module Stars.

Inductive Star := full | half | hollow.

(** [Math.trunc]: towards zero. *)
Definition trunc (q : Q) : Z :=
  if Qle_bool 0 q then Qfloor q else Qceiling q.

(** [rating % 1]: the remainder has the sign of the dividend. *)
Definition mod1 (rating : Q) : Q := rating - inject_Z (trunc rating).

(** The callback of [Array.from({length: 5}, (_, i) => ...)]. *)
Definition star_at (rating : Q) (i : Z) : Star :=
  let fullStars := Qfloor rating in
  let hasHalfStar := Qle_bool (1 # 2) (mod1 rating) in
  if i <? fullStars then full
  else if (i =? fullStars) && hasHalfStar then half
  else hollow.

(** The array before [.join('')]. *)
Definition stars (rating : Q) : list Star :=
  map (star_at rating) [0; 1; 2; 3; 4].

Definition star_html (s : Star) : string :=
  match s with
  | full => "<span class=" ++ dq ++ "rating-star" ++ dq ++ ">★</span>"
  | half => "<span class=" ++ dq ++ "rating-star" ++ dq ++ ">⯪</span>"
  | hollow => "<span class=" ++ dq ++ "text-gray-300" ++ dq ++ ">★</span>"
  end.

Definition createRatingStars (rating : Q) : string :=
  Js.join "" (map star_html (stars rating)).

End Stars.

(** ** Android version names ([sdkVersions], [getAndroidVersion],
       lines 2-12) *)

Module Android.

Definition sdkVersions : list (Z * string) :=
  [ (1, "1.0"); (2, "1.1"); (3, "1.5"); (4, "1.6"); (5, "2.0");
    (6, "2.0.1"); (7, "2.1"); (8, "2.2"); (9, "2.3"); (10, "2.3.3");
    (11, "3.0"); (12, "3.1"); (13, "3.2"); (14, "4.0"); (15, "4.0.3");
    (16, "4.1"); (17, "4.2"); (18, "4.3"); (19, "4.4"); (20, "4.4W");
    (21, "5.0"); (22, "5.1"); (23, "6.0"); (24, "7.0"); (25, "7.1");
    (26, "8.0"); (27, "8.1"); (28, "9.0"); (29, "10"); (30, "11");
    (31, "12"); (32, "12.1"); (33, "13"); (34, "14"); (35, "15");
    (36, "16") ].

(** [sdkVersions[sdk]]. *)
Fixpoint lookup (sdk : Z) (table : list (Z * string)) : option string :=
  match table with
  | [] => None
  | (k, v) :: r => if k =? sdk then Some v else lookup sdk r
  end.

(** [sdk => sdkVersions[sdk] ? `Android ${sdkVersions[sdk]}` : `API ${sdk}`]. *)
Definition getAndroidVersion (sdk : Z) : string :=
  if Js.truthy (lookup sdk sdkVersions) then
    "Android " ++ Js.or_else (lookup sdk sdkVersions) ""
  else "API " ++ Js.string_of_Z sdk.

End Android.

(** ** The comments modal ([showComments], its scroll and filter
       handlers, lines 632-721) *)

Module Comments.

(** A comment as served; its dates are left out, they are only printed. *)
Record Comment := {
  firstName : string;
  appRating : Q;
  commentText : string;
  likeCounter : Z;
  dislikeCounter : Z;
  devResponse : option string
}.

(** What [#appCommentsBody] holds, piece by piece. *)
Inductive Block :=
| LoadingText                 (* "Loading comments..." *)
| NoCommentsText              (* "No comments available" *)
| ErrorText                   (* [ModalManager.showError] *)
| Card (c : Comment).

(** A call [showComments(packageName, pageNumber, firstOpen)] that awaits
    its fetch. [packageName] is [None] for [undefined] and [pageNumber] is
    [None] for [NaN], which is what the handlers pass when the modal's
    [dataset] lacks the value. *)
Record Call := {
  c_packageName : option string;
  c_pageNumber : option Z;
  c_firstOpen : bool
}.

(** The query of the fetch: [packageName], [sortBy], [pageNumber]. *)
Record Request := {
  r_packageName : option string;
  r_sortBy : string;
  r_pageNumber : option Z
}.

(** The modal: its [dataset], the value of [#commentsFilterOption], the
    body, the requests sent and the calls awaiting an answer. *)
Record State := {
  pageCount : option Z;
  packageName : option string;
  allCommentsLoaded : option bool;
  canLoad : option bool;
  filterOption : string;
  body : list Block;
  requests : list Request;
  pending : list Call
}.

(** What the awaited fetch and [response.json()] give. *)
Inductive Answer :=
| Unreachable                          (* a rejection: the [catch] runs *)
| Refused                              (* [data.code !== 'OK'] *)
| Served (content : list Comment).     (* [data.body.content] *)

(** [showComments] up to its [await]. *)
Definition showComments (pkg : option string) (pageNumber : option Z)
    (firstOpen : bool) (st : State) : State :=
  {| pageCount := pageCount st;
     packageName := packageName st;
     allCommentsLoaded := allCommentsLoaded st;
     canLoad := canLoad st;
     filterOption := filterOption st;
     body := match pageNumber with
             | Some 0 => [LoadingText]
             | _ => body st
             end;
     requests := requests st
                 ++ [{| r_packageName := pkg;
                        r_sortBy := filterOption st;
                        r_pageNumber := pageNumber |}];
     pending := pending st
                ++ [{| c_packageName := pkg;
                       c_pageNumber := pageNumber;
                       c_firstOpen := firstOpen |}] |}.

(** [pageNumber > 0]. *)
Definition positive (pageNumber : option Z) : bool :=
  match pageNumber with
  | Some n => 0 <? n
  | None => false
  end.

(** [showComments] from its [await] on, for the call [c]. Rewriting the
    options of the select leaves it on the last option marked
    [selected]. *)
Definition resume (c : Call) (answer : Answer) (st : State) : State :=
  match answer with
  | Unreachable =>
      {| pageCount := pageCount st; packageName := packageName st;
         allCommentsLoaded := allCommentsLoaded st; canLoad := canLoad st;
         filterOption := filterOption st;
         body := [ErrorText];
         requests := requests st; pending := pending st |}
  | Refused => st
  | Served comments =>
      let commentsView :=
        if negb (Nat.eqb (List.length comments) 0)
           || positive (c_pageNumber c)
        then map Card comments
        else [NoCommentsText] in
      {| pageCount := c_pageNumber c;
         packageName := if c_firstOpen c then c_packageName c
                        else packageName st;
         allCommentsLoaded := Some (List.length comments <? 20)%nat;
         canLoad := Some true;
         filterOption :=
           if c_firstOpen c && (0 <? List.length comments)%nat
           then "USEFUL_FIRST"
           else filterOption st;
         body := if positive (c_pageNumber c) then body st ++ commentsView
                 else commentsView;
         requests := requests st;
         pending := pending st |}
  end.

(** Take the [k]-th element out of a list. *)
Fixpoint take_out {A} (k : nat) (l : list A) : option (A * list A) :=
  match l, k with
  | [], _ => None
  | x :: r, O => Some (x, r)
  | x :: r, S k' =>
      match take_out k' r with
      | Some (y, r') => Some (y, x :: r')
      | None => None
      end
  end.

Inductive Event :=
| Open (pkg : string)             (* the card's "Show comments" button *)
| Scroll (far : bool)             (* [scrollTop >= scrollHeight * .6] *)
| ChangeFilter (value : string)   (* the select's [onchange] *)
| Answered (k : nat) (answer : Answer).   (* the [k]-th awaited fetch *)

(** [pageNumber + 1] on what [+dataset.pageCount] reads. *)
Definition next_page (pageCount : option Z) : option Z :=
  match pageCount with
  | Some n => Some (n + 1)
  | None => None
  end.

Definition step (st : State) (e : Event) : State :=
  match e with
  | Open pkg => showComments (Some pkg) (Some 0) true st
  | Scroll far =>
      let needLoadComments :=
        match allCommentsLoaded st with
        | Some false => true
        | _ => false
        end in
      let can :=
        match canLoad st with
        | Some true => true
        | _ => false
        end in
      if far && Js.truthy (packageName st) && needLoadComments && can then
        showComments (packageName st) (next_page (pageCount st)) false
          {| pageCount := next_page (pageCount st);
             packageName := packageName st;
             allCommentsLoaded := allCommentsLoaded st;
             canLoad := Some false;
             filterOption := filterOption st;
             body := body st;
             requests := requests st;
             pending := pending st |}
      else st
  | ChangeFilter value =>
      showComments (packageName st) (Some 0) false
        {| pageCount := Some 0;
           packageName := packageName st;
           allCommentsLoaded := allCommentsLoaded st;
           canLoad := canLoad st;
           filterOption := value;
           body := body st;
           requests := requests st;
           pending := pending st |}
  | Answered k answer =>
      match take_out k (pending st) with
      | Some (c, rest) =>
          resume c answer
            {| pageCount := pageCount st; packageName := packageName st;
               allCommentsLoaded := allCommentsLoaded st;
               canLoad := canLoad st; filterOption := filterOption st;
               body := body st; requests := requests st;
               pending := rest |}
      | None => st
      end
  end.

Definition run (st : State) (events : list Event) : State :=
  fold_left step events st.

(** The modal before its first use: an empty [dataset]. *)
Definition unused (filter : string) : State :=
  {| pageCount := None; packageName := None; allCommentsLoaded := None;
     canLoad := None; filterOption := filter; body := [];
     requests := []; pending := [] |}.

(** Scrolling and answers only. *)
Definition browsing (e : Event) : bool :=
  match e with
  | Scroll _ | Answered _ _ => true
  | Open _ | ChangeFilter _ => false
  end.

End Comments.

(** ** The density select and the Retry button (lines 375-382, 553-560) *)

(** [densityOptions], the values of the select's options. *)
Definition densityOptions : list Z := [160; 240; 320; 480; 640; 0].

(** The options rendered with [selected]:
    [Number(d) === Number(screenDensity)]. *)
Definition selected_options (screenDensity : Z) : list Z :=
  filter (fun d => d =? screenDensity) densityOptions.

(** [select.value] before the user touches the select: the value of the
    option marked [selected], and that of the first option when none is. *)
Definition initial_select_value (screenDensity : Z) : Z :=
  last (selected_options screenDensity) (hd 0 densityOptions).

(** The click handler of Retry:
    [density = select ? Number(select.value) : screenDensity], then
    [downloadApp(appId, sdkVersion, { screenDensity: density })], where
    [select] is [None] when the element is missing. *)
Definition retryDownload (svc : Service) (devicePixelRatio : Q)
    (appId sdkVersion : Z) (select : option Z) (r : Rendered)
    : Outcome * list Request :=
  let density :=
    match select with
    | Some value => value
    | None => screenDensity (usedProfile r)
    end in
  downloadApp svc devicePixelRatio appId sdkVersion (Finite density).

(** The message of the error a trial throws on the answer [r]
    (lines 308-311 and 585-587). *)
Definition thrown_text (r : FetchResult) : string :=
  match r with
  | Rejected message => message
  | Responded status json =>
      if status_ok status then
        match json with
        | Parsed data => Js.or_else (data_message data) "Server returned error"
        | JsonNull => "Server returned error"
        | Unparsable message => message
        end
      else
        match errBody_message json with
        | Some message => "HTTP " ++ Js.string_of_Z status ++ ": " ++ message
        | None => Js.cannot_read_null "message"
        end
  end.

(** ** Notions used to state the properties *)

(** The text begins with a character that is not a decimal digit. *)
Definition starts_off_digits (s : string) : bool :=
  match s with
  | String c _ => negb (Js.in_range "0" "9" c)
  | EmptyString => false
  end.

(** The outcome [downloadApp] shows for a completion of its loop. *)
Definition outcome_of (c : Completion unit) (s : LoopState) : Outcome :=
  match c with
  | Normal _ => EmptyAfterExhaustion (lastData s)
  | Returned r => Success r
  | Thrown e => Failure (shown_error e)
  end.

(** Same requests, same loop position, same content unless blanked. *)
Definition same_progress (p p' : Page.State) : Prop :=
  Page.wire p = Page.wire p'
  /\ Page.task p = Page.task p'
  /\ (Page.downloadResults p = Page.downloadResults p'
      \/ Page.downloadResults p = Page.Blank).

(** What [#downloadResults] holds when nothing closes the modal: the
    "Obtaining download link..." text while the loop runs, an outcome once
    it has ended. *)
Definition undisturbed (p : Page.State) : Prop :=
  match Page.task p with
  | Some _ => Page.downloadResults p = Page.Obtaining
  | None => exists o, Page.downloadResults p = Page.Shown o
  end.

(** [firstLink = allLinks[0]], the link behind "Start download". *)
Definition firstLink (r : Rendered) : option string := hd_error (allLinks r).

(** ** More sample data *)

Module More.

(** An answer whose only entry has no URL. *)
Definition nameless : Data :=
  Sample.answer [ Sample.artifact None (Some 5) (Some "ff") ].

Definition always_nameless : Service :=
  fun _ => Responded 200 (Parsed nameless).

(** A small split first, the large base second. *)
Definition split_first : Data :=
  Sample.answer [ Sample.artifact (Some "https://cdn/s.apk") (Some 2) None;
                  Sample.artifact (Some "https://cdn/m.apk") (Some 90) None ].

Definition base_entry : PlanEntry :=
  {| item := to_item (Sample.artifact (Some "https://cdn/b.apk") (Some 9)
                        None) 2;
     role := base;
     filename := "rustore_7_42_base.apk" |}.

Definition hashed_item : Item :=
  to_item (Sample.artifact (Some "https://cdn/c.apk") (Some 9) (Some "zz")) 3.

(** The entry made of [hashed_item] as the base when the version code
    was served as the number 1e21. *)
Definition exponent_entry : PlanEntry :=
  {| item := hashed_item;
     role := base;
     filename := "rustore_7_1e+21_base_zz.apk" |}.

Definition shots : list string := ["a.png"; "b.png"; "c.png"].

Definition second_shot : Preview.State :=
  {| Preview.images := shots; Preview.imageIndex := 1 |}.

(** A modal that awaits the second page of a package. *)
Definition awaiting_second_page : Comments.State :=
  {| Comments.pageCount := Some 1;
     Comments.packageName := Some "ru.app";
     Comments.allCommentsLoaded := Some false;
     Comments.canLoad := Some false;
     Comments.filterOption := "USEFUL_FIRST";
     Comments.body := [];
     Comments.requests := [];
     Comments.pending := [ {| Comments.c_packageName := Some "ru.app";
                              Comments.c_pageNumber := Some 1;
                              Comments.c_firstOpen := false |} ] |}.

(** A modal filled with the first full page of a package. *)
Definition first_page_shown : Comments.State :=
  {| Comments.pageCount := Some 0;
     Comments.packageName := Some "ru.app";
     Comments.allCommentsLoaded := Some false;
     Comments.canLoad := Some true;
     Comments.filterOption := "USEFUL_FIRST";
     Comments.body := [];
     Comments.requests := [];
     Comments.pending := [] |}.

End More.

(** The [options] the page itself passes: none from the Download button,
    the value of a select option from the Retry button. *)
Definition from_the_page (options : DensityOption) : Prop :=
  match options with
  | Finite d => In d densityOptions
  | _ => True
  end.

(** Every character of the text passes the test. *)
Fixpoint all_chars (test : ascii -> bool) (s : string) : bool :=
  match s with
  | EmptyString => true
  | String c r => test c && all_chars test r
  end.

(** Letters, digits, underscore, dot and minus. *)
Definition filename_char (c : ascii) : bool :=
  Js.is_alnum c || Ascii.eqb c "_" || Ascii.eqb c "." || Ascii.eqb c "-".

(** [Number.isSafeInteger(z)]: an integer that a JavaScript number holds
    exactly, and that [`${z}`] prints digit by digit. *)
Definition safe_integer (z : Z) : Prop := Z.abs z < 2 ^ 53.

(** The version code is absent or a safe integer. *)
Definition plain_versionCode (data : Data) : Prop :=
  match Spec.versionCode_of data with
  | Some v => safe_integer v
  | None => True
  end.

(** What holds of the comments modal while one package is browsed: the
    pages requested so far are 0, 1, ..., all for [pkg]; at most one call
    awaits its answer, the one for the last page requested, and scrolling
    is disabled while it does. *)
Definition browsing_invariant (pkg : string) (st : Comments.State) : Prop :=
  let n := List.length (Comments.requests st) in
  map Comments.r_pageNumber (Comments.requests st)
  = map (fun k => Some (Z.of_nat k)) (seq 0 n)
  /\ Forall (fun r => Comments.r_packageName r = Some pkg)
            (Comments.requests st)
  /\ (1 <= n)%nat
  /\ match Comments.pending st with
     | [] =>
         Comments.canLoad st = Some true ->
         Comments.pageCount st = Some (Z.of_nat (n - 1))
         /\ Comments.packageName st = Some pkg
     | [c] =>
         Comments.c_pageNumber c = Some (Z.of_nat (n - 1))
         /\ Comments.c_packageName c = Some pkg
         /\ Comments.canLoad st <> Some true
         /\ (Comments.c_firstOpen c = false ->
             Comments.packageName st = Some pkg)
     | _ => False
     end.

(** * Properties *)

(** ** Strings *)

Lemma append_inv_head (p a b : string) : (p ++ a = p ++ b)%string -> a = b.
Proof.
  induction p as [|c p IH]; simpl; intros H.
  - exact H.
  - apply IH. now injection H.
Qed.

Lemma append_assoc (a b c : string) : ((a ++ b) ++ c = a ++ (b ++ c))%string.
Proof.
  induction a as [|x a IH]; simpl; [reflexivity | now rewrite IH].
Qed.

Lemma uint_text_prefix_free (d d' : Decimal.uint) (s s' : string) :
  starts_off_digits s = true -> starts_off_digits s' = true ->
  (NilEmpty.string_of_uint d ++ s = NilEmpty.string_of_uint d' ++ s')%string ->
  d = d'.
Proof.
  revert d'.
  induction d as [|d IH|d IH|d IH|d IH|d IH|d IH|d IH|d IH|d IH|d IH];
    intros d' Hs Hs' H; destruct d'; simpl in H;
    try reflexivity;
    try (subst; simpl in *; discriminate);
    try (injection H as H; f_equal; now apply IH);
    try (exfalso; injection H as Hc _; discriminate Hc);
    try (destruct s; simpl in *; [discriminate|];
         injection H as Hc _; subst; discriminate).
Qed.

(** ** Lists: indexing, filtering, sorting *)

Lemma truthy_has_url (u : RawArtifact) : Js.truthy (raw_url u) = Spec.has_url u.
Proof.
  unfold Spec.has_url. destruct (raw_url u) as [[|c s]|]; reflexivity.
Qed.

Lemma size_or_0_to_item (u : RawArtifact) (k : nat) :
  size_or_0 (to_item u k) = Spec.size_of u.
Proof. reflexivity. Qed.

Lemma index_from_split (urls : list RawArtifact) :
  forall i a h b,
    index_from i urls = a ++ h :: b ->
    exists us1 u us2,
      urls = us1 ++ u :: us2 /\ a = index_from i us1 /\
      h = to_item u (i + List.length us1) /\
      b = index_from (S (i + List.length us1)) us2.
Proof.
  induction urls as [|u0 r IH]; intros i a h b H; simpl in H.
  - destruct a; discriminate.
  - destruct a as [|x a'].
    + simpl in H. injection H as <- <-.
      exists [], u0, r. simpl. now rewrite Nat.add_0_r.
    + simpl in H. injection H as <- H.
      destruct (IH _ _ _ _ H) as (us1 & u & us2 & -> & -> & -> & ->).
      exists (u0 :: us1), u, us2. simpl.
      now rewrite Nat.add_succ_r.
Qed.

Lemma index_from_bounds (urls : list RawArtifact) :
  forall i x, In x (index_from i urls) ->
              (i <= idx x < i + List.length urls)%nat.
Proof.
  induction urls as [|u r IH]; intros i x H; simpl in H.
  - contradiction.
  - destruct H as [<- | H].
    + simpl. lia.
    + apply IH in H. simpl. lia.
Qed.

Lemma index_from_In (urls : list RawArtifact) :
  forall i v, In v urls -> exists k, In (to_item v k) (index_from i urls).
Proof.
  induction urls as [|u r IH]; intros i v H; simpl in H.
  - contradiction.
  - destruct H as [<- | H].
    + exists i. now left.
    + destruct (IH (S i) v H) as [k Hk]. exists k. now right.
Qed.

Lemma index_from_nth (urls : list RawArtifact) :
  forall i x, In x (index_from i urls) ->
              exists u, nth_error urls (idx x - i) = Some u
                        /\ x = to_item u (idx x).
Proof.
  induction urls as [|u r IH]; intros i x H; simpl in H.
  - contradiction.
  - destruct H as [<- | H].
    + exists u. simpl. now rewrite Nat.sub_diag.
    + pose proof (index_from_bounds _ _ _ H) as Hb.
      destruct (IH _ _ H) as (v & Hv & Hx).
      exists v. split; [|exact Hx].
      replace (idx x - i)%nat with (S (idx x - S i)) by lia. exact Hv.
Qed.

Lemma filter_split {A} (f : A -> bool) (l : list A) :
  forall l1 h l2,
    filter f l = l1 ++ h :: l2 ->
    exists a b, l = a ++ h :: b /\ filter f a = l1 /\ filter f b = l2
                /\ f h = true.
Proof.
  induction l as [|x r IH]; intros l1 h l2 H; simpl in H.
  - destruct l1; discriminate.
  - destruct (f x) eqn:Fx.
    + destruct l1 as [|y l1'].
      * simpl in H. injection H as <- <-. now exists [], r.
      * simpl in H. injection H as <- H.
        destruct (IH _ _ _ H) as (a & b & -> & <- & <- & Fh).
        exists (x :: a), b. simpl. now rewrite Fx.
    + destruct (IH _ _ _ H) as (a & b & -> & <- & <- & Fh).
      exists (x :: a), b. simpl. now rewrite Fx.
Qed.

Lemma sort_insert_not_nil {A} (cmp : A -> A -> Z) (x : A) (l : list A) :
  Js.sort_insert cmp x l <> [].
Proof. destruct l; simpl; [|destruct (_ <? _)]; discriminate. Qed.

Lemma sort_nil {A} (cmp : A -> A -> Z) (l : list A) :
  Js.sort cmp l = [] -> l = [].
Proof.
  destruct l as [|x r]; simpl; intros H; [reflexivity|].
  now apply sort_insert_not_nil in H.
Qed.

(** The insertion sort computes what [Array.prototype.sort] promises for
    this comparator: a rearrangement, in descending order of size, that
    keeps the items of one size in their input order. *)
Lemma sort_insert_Permutation {A} (cmp : A -> A -> Z) (x : A) (l : list A) :
  Permutation (Js.sort_insert cmp x l) (x :: l).
Proof.
  induction l as [|y r IH]; simpl; [apply Permutation_refl|].
  destruct (cmp y x <? 0); [|apply Permutation_refl].
  eapply perm_trans; [apply perm_skip, IH | apply perm_swap].
Qed.

Lemma sort_Permutation {A} (cmp : A -> A -> Z) (l : list A) :
  Permutation (Js.sort cmp l) l.
Proof.
  induction l as [|x r IH]; simpl; [apply perm_nil|].
  eapply perm_trans; [apply sort_insert_Permutation | now apply perm_skip].
Qed.

Lemma sort_insert_descending (x : Item) (l : list Item) :
  StronglySorted (fun a b => size_or_0 b <= size_or_0 a) l ->
  StronglySorted (fun a b => size_or_0 b <= size_or_0 a)
                 (Js.sort_insert by_size_desc x l).
Proof.
  induction 1 as [|y r S IH F]; simpl.
  - constructor; constructor.
  - destruct (by_size_desc y x <? 0) eqn:C.
    + apply Z.ltb_lt in C. unfold by_size_desc in C.
      constructor; [exact IH|].
      eapply Permutation_Forall;
        [apply Permutation_sym, sort_insert_Permutation|].
      constructor; [lia | exact F].
    + apply Z.ltb_ge in C. unfold by_size_desc in C.
      constructor; [now constructor|].
      constructor; [lia|].
      eapply Forall_impl; [|exact F]. simpl. intros; lia.
Qed.

Lemma sort_descending (l : list Item) :
  StronglySorted (fun a b => size_or_0 b <= size_or_0 a)
                 (Js.sort by_size_desc l).
Proof.
  induction l as [|x r IH]; simpl; [constructor|].
  now apply sort_insert_descending.
Qed.

Lemma sort_insert_stable (k : Z) (x : Item) (l : list Item) :
  filter (fun i => size_or_0 i =? k) (Js.sort_insert by_size_desc x l)
  = filter (fun i => size_or_0 i =? k) (x :: l).
Proof.
  induction l as [|y r IH]; [reflexivity|].
  cbn [Js.sort_insert].
  destruct (by_size_desc y x <? 0) eqn:C; [|reflexivity].
  apply Z.ltb_lt in C. unfold by_size_desc in C.
  cbn [filter] in *. rewrite IH.
  destruct (Z.eqb_spec (size_or_0 y) k), (Z.eqb_spec (size_or_0 x) k);
    try reflexivity. lia.
Qed.

Lemma sort_stable (k : Z) (l : list Item) :
  filter (fun i => size_or_0 i =? k) (Js.sort by_size_desc l)
  = filter (fun i => size_or_0 i =? k) l.
Proof.
  induction l as [|x r IH]; [reflexivity|].
  cbn [Js.sort]. rewrite sort_insert_stable. cbn [filter]. now rewrite IH.
Qed.

(** The first element of the sorted copy is the first of the largest. *)
Lemma sort_head_first_largest (l : list Item) :
  forall h t,
    Js.sort by_size_desc l = h :: t ->
    exists l1 l2,
      l = l1 ++ h :: l2
      /\ Forall (fun x => size_or_0 x < size_or_0 h) l1
      /\ Forall (fun x => size_or_0 x <= size_or_0 h) l2.
Proof.
  induction l as [|x r IH]; simpl; intros h t H; [discriminate|].
  destruct (Js.sort by_size_desc r) as [|h' t'] eqn:E.
  - simpl in H. injection H as <- <-.
    apply sort_nil in E. subst r. exists [], []. auto.
  - simpl in H. destruct (by_size_desc h' x <? 0) eqn:C.
    + injection H as <- _.
      destruct (IH _ _ eq_refl) as (l1 & l2 & -> & F1 & F2).
      exists (x :: l1), l2. split; [reflexivity|]. split; [|exact F2].
      constructor; [|exact F1].
      apply Z.ltb_lt in C. unfold by_size_desc in C. lia.
    + injection H as <- _.
      destruct (IH _ _ eq_refl) as (l1 & l2 & -> & F1 & F2).
      apply Z.ltb_ge in C. unfold by_size_desc in C.
      exists [], (l1 ++ h' :: l2). split; [reflexivity|]. split; [constructor|].
      apply Forall_app. split; [|constructor].
      * eapply Forall_impl; [|exact F1]. simpl. intros; lia.
      * lia.
      * eapply Forall_impl; [|exact F2]. simpl. intros; lia.
Qed.

(** ** Roles and counters *)

Lemma map_item_assign_roles appId vc b (items : list Item) :
  forall c, map item (assign_roles appId vc b c items) = items.
Proof.
  induction items as [|i r IH]; intros c; simpl; [reflexivity|].
  destruct (is_base b i); simpl; now rewrite IH.
Qed.

Lemma assign_roles_app appId vc b (l1 l2 : list Item) :
  forall c,
    assign_roles appId vc b c (l1 ++ l2)
    = assign_roles appId vc b c l1
        ++ assign_roles appId vc b
             (c + List.length (filter (fun i => negb (is_base b i)) l1)) l2.
Proof.
  induction l1 as [|i r IH]; intros c; simpl.
  - now rewrite Nat.add_0_r.
  - destruct (is_base b i); simpl; rewrite IH; [reflexivity|].
    now rewrite Nat.add_succ_r.
Qed.

Lemma no_base_among appId vc b (items : list Item) :
  (forall x, In x items -> is_base b x = false) ->
  forall c, filter is_base_role (assign_roles appId vc b c items) = [].
Proof.
  induction items as [|i r IH]; intros H c; simpl; [reflexivity|].
  rewrite (H i (or_introl eq_refl)). simpl.
  apply IH. intros x Hx. apply H. now right.
Qed.

Lemma items_not_nil (urls : list RawArtifact) :
  (exists u, In u urls /\ Spec.has_url u = true) -> items_of urls <> [].
Proof.
  intros (u & Hin & Hu) E.
  destruct (index_from_In urls 0 u Hin) as [k Hk].
  assert (In (to_item u k) (items_of urls)) as H.
  { apply filter_In. split; [exact Hk|]. simpl. now rewrite truthy_has_url. }
  rewrite E in H. contradiction.
Qed.

(** C5. When some entry of [downloadUrls] has a URL, exactly one entry of
    the plan has the role [base]: it is the entry with a URL whose size
    (0 when absent) is the largest, and among several of that size the
    earliest: the entries with a URL before it are strictly smaller, those
    after it are not larger. *)
Theorem base_is_first_largest_url_entry (appId : Z) (data : Data) :
  (exists u, In u (downloadUrls_of data) /\ Spec.has_url u = true) ->
  exists before u after e,
    downloadUrls_of data = before ++ u :: after
    /\ Spec.has_url u = true
    /\ (forall v, In v before -> Spec.has_url v = true ->
                  Spec.size_of v < Spec.size_of u)
    /\ (forall v, In v after -> Spec.has_url v = true ->
                  Spec.size_of v <= Spec.size_of u)
    /\ filter is_base_role (buildDownloadPlan appId data) = [e]
    /\ role e = base
    /\ item e = to_item u (List.length before).
Proof.
  intros Hex. unfold buildDownloadPlan.
  set (urls := downloadUrls_of data) in *.
  pose proof (items_not_nil urls Hex) as Hne.
  unfold baseIdx_of.
  destruct (Js.sort by_size_desc (items_of urls)) as [|h t] eqn:Es.
  { apply sort_nil in Es. contradiction. }
  destruct (sort_head_first_largest _ _ _ Es) as (l1 & l2 & El & F1 & F2).
  destruct (filter_split _ _ _ _ _ El) as (a & b & Ei & Fa & Fb & Fh).
  destruct (index_from_split _ _ _ _ _ Ei)
    as (us1 & u & us2 & Eu & Ea & Eh & Eb).
  simpl in Eh.
  assert (forall x, In x l1 -> is_base (Some (idx h)) x = false) as B1.
  { intros x Hx. rewrite <- Fa in Hx. apply filter_In in Hx as [Hx _].
    rewrite Ea in Hx. apply index_from_bounds in Hx.
    simpl. apply Nat.eqb_neq. rewrite Eh. simpl. lia. }
  assert (forall x, In x l2 -> is_base (Some (idx h)) x = false) as B2.
  { intros x Hx. rewrite <- Fb in Hx. apply filter_In in Hx as [Hx _].
    rewrite Eb in Hx. apply index_from_bounds in Hx.
    simpl. apply Nat.eqb_neq. rewrite Eh. simpl. lia. }
  eexists us1, u, us2, _.
  split; [exact Eu|].
  split. { rewrite <- truthy_has_url. now rewrite Eh in Fh. }
  split.
  { intros v Hv Hurl.
    destruct (index_from_In us1 0 v Hv) as [k Hk].
    assert (In (to_item v k) l1) as Hin.
    { rewrite <- Fa, Ea. apply filter_In. split; [exact Hk|].
      simpl. now rewrite truthy_has_url. }
    rewrite Forall_forall in F1. specialize (F1 _ Hin).
    now rewrite Eh in F1. }
  split.
  { intros v Hv Hurl.
    destruct (index_from_In us2 (S (List.length us1)) v Hv) as [k Hk].
    assert (In (to_item v k) l2) as Hin.
    { rewrite <- Fb, Eb. apply filter_In. split; [exact Hk|].
      simpl. now rewrite truthy_has_url. }
    rewrite Forall_forall in F2. specialize (F2 _ Hin).
    now rewrite Eh in F2. }
  rewrite El, assign_roles_app, filter_app.
  rewrite (no_base_among _ _ _ _ B1). simpl.
  rewrite Nat.eqb_refl. simpl.
  rewrite (no_base_among _ _ _ _ B2).
  split; [reflexivity|]. split; [reflexivity|]. exact Eh.
Qed.

(** ** File names *)

Lemma is_alnum_alphanumeric (c : ascii) : Js.is_alnum c = Spec.alphanumeric c.
Proof. destruct c as [[] [] [] [] [] [] [] []]; reflexivity. Qed.

Lemma strip_non_alnum_filter (s : string) :
  Js.strip_non_alnum s
  = string_of_list_ascii (filter Spec.alphanumeric (list_ascii_of_string s)).
Proof.
  induction s as [|c r IH]; simpl; [reflexivity|].
  rewrite <- is_alnum_alphanumeric.
  destruct (Js.is_alnum c); simpl; now rewrite IH.
Qed.

Lemma slice0_firstn (n : nat) (l : list ascii) :
  Js.slice0 n (string_of_list_ascii l) = string_of_list_ascii (firstn n l).
Proof.
  revert l. induction n as [|n IH]; intros [|c l]; simpl; try reflexivity.
  now rewrite IH.
Qed.

Lemma safeHash_hash12 (u : RawArtifact) (k : nat) :
  safeHash_of (to_item u k) = Spec.hash12 (raw_hash u).
Proof.
  unfold safeHash_of, Spec.hash12.
  rewrite strip_non_alnum_filter, slice0_firstn.
  unfold to_item; cbn [hash].
  destruct (raw_hash u) as [[|c s]|]; reflexivity.
Qed.

Lemma hash_suffix_pattern (h : string) :
  hash_suffix h
  = match h with EmptyString => "" | String c s => "_" ++ String c s end%string.
Proof. destruct h; reflexivity. Qed.

(** An entry of the plan is named after its role, the counter value it was
    given and its item. *)
Lemma assign_roles_entry appId vc b (items : list Item) :
  forall c pre e post,
    assign_roles appId vc b c items = pre ++ e :: post ->
    match role e with
    | base => filename e = base_filename appId vc (safeHash_of (item e))
    | config =>
        filename e
        = config_filename appId vc
            (c + List.length (filter is_config_role pre))
            (safeHash_of (item e))
    end.
Proof.
  induction items as [|i r IH]; intros c pre e post H; simpl in H.
  - destruct pre; discriminate.
  - destruct (is_base b i) eqn:B.
    + destruct pre as [|x pre'].
      * simpl in H. injection H as <- _. reflexivity.
      * simpl in H. injection H as <- H. simpl.
        exact (IH _ _ _ _ H).
    + destruct pre as [|x pre'].
      * simpl in H. injection H as <- _. simpl. now rewrite Nat.add_0_r.
      * simpl in H. injection H as <- H. simpl.
        specialize (IH _ _ _ _ H). simpl in IH.
        now rewrite Nat.add_succ_r.
Qed.

Lemma plan_items (appId : Z) (data : Data) :
  map item (buildDownloadPlan appId data) = items_of (downloadUrls_of data).
Proof. apply map_item_assign_roles. Qed.

Lemma plan_entry_source (appId : Z) (data : Data) (e : PlanEntry) :
  In e (buildDownloadPlan appId data) ->
  exists u, nth_error (downloadUrls_of data) (idx (item e)) = Some u
            /\ Spec.has_url u = true
            /\ item e = to_item u (idx (item e)).
Proof.
  intros H. apply (in_map item) in H. rewrite plan_items in H.
  apply filter_In in H as [H T].
  destruct (index_from_nth _ _ _ H) as (u & Hu & E).
  rewrite Nat.sub_0_r in Hu. exists u. split; [exact Hu|]. split; [|exact E].
  rewrite E in T. simpl in T. now rewrite truthy_has_url in T.
Qed.

(** C7. Every entry of the plan is named by the pattern of its role:
    [rustore_{appId}_{versionCode}_base.apk] for the base entry and
    [rustore_{appId}_{versionCode}_config{n}.apk] for a config entry, [n]
    being one more than the number of config entries before it; the
    segment [_<hash12>] precedes [.apk] exactly when the hash of the raw
    entry, stripped of its non-alphanumeric characters and cut to 12
    characters, is not empty; an absent version code reads [unknown]. *)
Theorem filename_follows_pattern (appId : Z) (data : Data)
    (pre post : list PlanEntry) (e : PlanEntry) :
  buildDownloadPlan appId data = pre ++ e :: post ->
  exists u,
    nth_error (downloadUrls_of data) (idx (item e)) = Some u
    /\ filename e
       = Spec.filename_pattern appId (Spec.versionCode_of data) (role e)
           (S (List.length (filter is_config_role pre))) (raw_hash u).
Proof.
  intros H.
  assert (In e (buildDownloadPlan appId data)) as Hin.
  { rewrite H. apply in_elt. }
  destruct (plan_entry_source _ _ _ Hin) as (u & Hu & _ & E).
  exists u. split; [exact Hu|].
  pose proof (assign_roles_entry _ _ _ _ _ _ _ _ H) as N.
  rewrite E, safeHash_hash12 in N.
  assert (versionCode_text data
          = match Spec.versionCode_of data with
            | Some v => Spec.decimal v
            | None => "unknown"
            end) as V.
  { unfold versionCode_text, Spec.versionCode_of.
    destruct (data_body data) as [b|]; [|reflexivity].
    destruct (body_versionCode b); reflexivity. }
  unfold Spec.filename_pattern.
  destruct (role e); rewrite N.
  - unfold base_filename. now rewrite V, hash_suffix_pattern.
  - unfold config_filename. now rewrite V, hash_suffix_pattern.
Qed.

(** ** Order and numbering of the plan *)

Lemma idx_of_items_from (urls : list RawArtifact) :
  forall i,
    map idx (filter (fun x => Js.truthy (url x)) (index_from i urls))
    = filter (fun k => match nth_error urls (k - i) with
                       | Some u => Spec.has_url u
                       | None => false
                       end)
             (seq i (List.length urls)).
Proof.
  induction urls as [|u r IH]; intros i; simpl; [reflexivity|].
  rewrite Nat.sub_diag. simpl. rewrite truthy_has_url.
  assert (filter (fun k => match nth_error (u :: r) (k - i) with
                           | Some u0 => Spec.has_url u0
                           | None => false
                           end) (seq (S i) (List.length r))
          = filter (fun k => match nth_error r (k - S i) with
                             | Some u0 => Spec.has_url u0
                             | None => false
                             end) (seq (S i) (List.length r))) as E.
  { apply filter_ext_in. intros k Hk. apply in_seq in Hk.
    replace (k - i)%nat with (S (k - S i)) by lia. reflexivity. }
  rewrite E, <- IH.
  destruct (Spec.has_url u); reflexivity.
Qed.

Lemma plan_positions (appId : Z) (data : Data) :
  map (fun e => idx (item e)) (buildDownloadPlan appId data)
  = Spec.url_positions (downloadUrls_of data).
Proof.
  rewrite <- (map_map item idx), plan_items.
  unfold items_of, Spec.url_positions. rewrite idx_of_items_from.
  apply filter_ext. intros k. now rewrite Nat.sub_0_r.
Qed.

Lemma config_entries_numbered appId vc b (items : list Item) :
  forall c,
    map filename (filter is_config_role (assign_roles appId vc b c items))
    = map (fun ne => config_filename appId vc (fst ne)
                       (safeHash_of (item (snd ne))))
          (Spec.numbered c
             (filter is_config_role (assign_roles appId vc b c items))).
Proof.
  induction items as [|i r IH]; intros c; simpl; [reflexivity|].
  destruct (is_base b i); simpl.
  - apply IH.
  - unfold Spec.numbered. simpl. f_equal. apply IH.
Qed.

Lemma safeHash_of_hash12 (i : Item) : safeHash_of i = Spec.hash12 (hash i).
Proof.
  unfold safeHash_of, Spec.hash12.
  rewrite strip_non_alnum_filter, slice0_firstn.
  destruct (hash i) as [[|c s]|]; reflexivity.
Qed.

Lemma versionCode_text_spec (data : Data) :
  versionCode_text data
  = match Spec.versionCode_of data with
    | Some v => Spec.decimal v
    | None => "unknown"
    end.
Proof.
  unfold versionCode_text, Spec.versionCode_of.
  destruct (data_body data) as [b|]; [|reflexivity].
  destruct (body_versionCode b); reflexivity.
Qed.

Lemma items_idx_NoDup (urls : list RawArtifact) :
  forall i, NoDup (map idx (filter (fun x => Js.truthy (url x))
                                   (index_from i urls))).
Proof.
  induction urls as [|u r IH]; intros i; simpl; [constructor|].
  destruct (Js.truthy (raw_url u)); [|apply IH].
  simpl. constructor; [|apply IH].
  intros H. apply in_map_iff in H as (x & E & Hx).
  apply filter_In in Hx as [Hx _]. apply index_from_bounds in Hx. lia.
Qed.

Lemma items_count (urls : list RawArtifact) :
  forall i,
    List.length (filter (fun x => Js.truthy (url x)) (index_from i urls))
    = List.length (filter Spec.has_url urls).
Proof.
  induction urls as [|u r IH]; intros i; [reflexivity|].
  cbn [index_from filter]. unfold to_item at 1. cbn [url].
  rewrite truthy_has_url. destruct (Spec.has_url u); cbn [List.length];
    now rewrite IH.
Qed.

Lemma base_entries_items appId vc b (items : list Item) :
  forall c,
    map item (filter is_base_role (assign_roles appId vc b c items))
    = filter (is_base b) items.
Proof.
  induction items as [|i r IH]; intros c; [reflexivity|].
  cbn [assign_roles filter]. destruct (is_base b i); cbn; now rewrite IH.
Qed.

Lemma no_other_idx (k : nat) (l : list Item) :
  ~ In k (map idx l) -> filter (fun y => Nat.eqb (idx y) k) l = [].
Proof.
  induction l as [|y r IH]; intros H; [reflexivity|].
  cbn [filter]. destruct (Nat.eqb_spec (idx y) k) as [E|_].
  - exfalso. apply H. now left.
  - apply IH. intros Hr. apply H. now right.
Qed.

Lemma one_item_per_idx (l : list Item) (x : Item) :
  NoDup (map idx l) -> In x l ->
  filter (fun y => Nat.eqb (idx y) (idx x)) l = [x].
Proof.
  induction l as [|y r IH]; intros ND H; [contradiction|].
  cbn [map] in ND. inversion ND as [|? ? Hy ND']; subst.
  cbn [filter]. destruct H as [-> | H].
  - rewrite Nat.eqb_refl. now rewrite no_other_idx.
  - destruct (Nat.eqb_spec (idx y) (idx x)) as [E|_].
    + exfalso. apply Hy. rewrite E. now apply in_map.
    + now apply IH.
Qed.

Lemma assign_roles_role appId vc b (items : list Item) :
  forall c e,
    In e (assign_roles appId vc b c items) ->
    role e = if is_base b (item e) then base else config.
Proof.
  induction items as [|i r IH]; intros c e H; [contradiction|].
  cbn [assign_roles] in H.
  destruct (is_base b i) eqn:B; destruct H as [<- | H]; try exact (IH _ _ H);
    cbn [item role]; now rewrite B.
Qed.

(** [baseIdx] is the position of the first of the largest entries with a
    URL. *)
Lemma baseIdx_position (urls : list RawArtifact) :
  items_of urls <> [] ->
  exists before u after,
    urls = before ++ u :: after
    /\ Spec.has_url u = true
    /\ (forall v, In v before -> Spec.has_url v = true ->
                  Spec.size_of v < Spec.size_of u)
    /\ (forall v, In v after -> Spec.has_url v = true ->
                  Spec.size_of v <= Spec.size_of u)
    /\ baseIdx_of (items_of urls) = Some (List.length before).
Proof.
  intros Hne. unfold baseIdx_of.
  destruct (Js.sort by_size_desc (items_of urls)) as [|h t] eqn:Es.
  { apply sort_nil in Es. contradiction. }
  destruct (sort_head_first_largest _ _ _ Es) as (l1 & l2 & El & F1 & F2).
  destruct (filter_split _ _ _ _ _ El) as (a & b & Ei & Fa & Fb & Fh).
  destruct (index_from_split _ _ _ _ _ Ei)
    as (us1 & u & us2 & Eu & Ea & Eh & Eb).
  simpl in Eh.
  exists us1, u, us2.
  split; [exact Eu|].
  split. { rewrite <- truthy_has_url. now rewrite Eh in Fh. }
  split.
  { intros v Hv Hurl.
    destruct (index_from_In us1 0 v Hv) as [k Hk].
    assert (In (to_item v k) l1) as Hin.
    { rewrite <- Fa, Ea. apply filter_In. split; [exact Hk|].
      simpl. now rewrite truthy_has_url. }
    rewrite Forall_forall in F1. specialize (F1 _ Hin).
    now rewrite Eh in F1. }
  split.
  { intros v Hv Hurl.
    destruct (index_from_In us2 (S (List.length us1)) v Hv) as [k Hk].
    assert (In (to_item v k) l2) as Hin.
    { rewrite <- Fb, Eb. apply filter_In. split; [exact Hk|].
      simpl. now rewrite truthy_has_url. }
    rewrite Forall_forall in F2. specialize (F2 _ Hin).
    now rewrite Eh in F2. }
  now rewrite Eh.
Qed.

(** Only one position answers the specification's description of the
    base. *)
Lemma base_at_position (before after : list RawArtifact) (u : RawArtifact)
    (k : nat) :
  Spec.has_url u = true ->
  (forall v, In v before -> Spec.has_url v = true ->
             Spec.size_of v < Spec.size_of u) ->
  (forall v, In v after -> Spec.has_url v = true ->
             Spec.size_of v <= Spec.size_of u) ->
  Spec.base_at (before ++ u :: after) k <-> k = List.length before.
Proof.
  intros Hu Hb Ha.
  assert (nth_error (before ++ u :: after) (List.length before) = Some u)
    as Nu.
  { rewrite nth_error_app2 by lia. now rewrite Nat.sub_diag. }
  split.
  - intros (w & Nw & Hw & Hmax & Hfirst).
    destruct (Nat.lt_trichotomy k (List.length before)) as [L | [E | G]];
      [exfalso | exact E | exfalso].
    + rewrite nth_error_app1 in Nw by exact L.
      apply nth_error_In in Nw.
      pose proof (Hb _ Nw Hw). pose proof (Hmax _ _ Nu Hu). lia.
    + pose proof (Hfirst _ _ G Nu Hu) as S.
      rewrite nth_error_app2 in Nw by lia.
      destruct (k - List.length before)%nat as [|n] eqn:D; [lia|].
      cbn [nth_error] in Nw. apply nth_error_In in Nw.
      pose proof (Ha _ Nw Hw). lia.
  - intros ->. exists u. split; [exact Nu|]. split; [exact Hu|]. split.
    + intros j v Nv Hv. apply nth_error_In in Nv.
      apply in_app_or in Nv as [I | [<- | I]].
      * pose proof (Hb _ I Hv). lia.
      * lia.
      * exact (Ha _ I Hv).
    + intros j v L Nv Hv. rewrite nth_error_app1 in Nv by exact L.
      apply nth_error_In in Nv. exact (Hb _ Nv Hv).
Qed.

(** The entry of the plan at the base position is the base, every other
    one is a config. *)
Lemma roles_by_position (appId : Z) (data : Data) (e : PlanEntry) :
  In e (buildDownloadPlan appId data) ->
  let urls := downloadUrls_of data in
  (role e = base <-> Spec.base_at urls (idx (item e)))
  /\ (role e = config <-> ~ Spec.base_at urls (idx (item e))).
Proof.
  intros H urls. unfold urls.
  assert (items_of (downloadUrls_of data) <> []) as Hne.
  { apply (in_map item) in H. rewrite plan_items in H.
    intros E. now rewrite E in H. }
  destruct (baseIdx_position _ Hne)
    as (before & u & after & E & Hu & Hb & Ha & B).
  pose proof (assign_roles_role _ _ _ _ _ _ H) as R.
  rewrite B in R. cbn [is_base] in R.
  rewrite E.
  pose proof (base_at_position before after u (idx (item e)) Hu Hb Ha) as P.
  destruct (Nat.eqb_spec (idx (item e)) (List.length before)) as [K | K];
    rewrite R; split; split; try discriminate; tauto.
Qed.

(** All the entries of the plan but one are config entries. *)
Lemma config_count (appId : Z) (data : Data) :
  List.length (filter is_config_role (buildDownloadPlan appId data))
  = pred (List.length (filter Spec.has_url (downloadUrls_of data))).
Proof.
  set (plan := buildDownloadPlan appId data).
  set (items := items_of (downloadUrls_of data)).
  assert (List.length plan = List.length items) as L.
  { unfold plan, items. now rewrite <- (plan_items appId data), length_map. }
  assert (List.length (filter is_base_role plan)
          = Nat.min 1 (List.length plan)) as B.
  { rewrite <- (length_map item). unfold plan at 1, buildDownloadPlan.
    rewrite base_entries_items. rewrite L. fold items. unfold baseIdx_of.
    destruct (Js.sort by_size_desc items) as [|h t] eqn:Es.
    - apply sort_nil in Es. rewrite Es. reflexivity.
    - assert (In h items) as Hin.
      { eapply Permutation_in; [apply sort_Permutation|].
        rewrite Es. now left. }
      pose proof (one_item_per_idx items h (items_idx_NoDup _ 0) Hin) as O.
      change (is_base (Some (idx h)))
        with (fun y => Nat.eqb (idx y) (idx h)).
      rewrite O. destruct items; [contradiction | reflexivity]. }
  assert (List.length items
          = List.length (filter Spec.has_url (downloadUrls_of data))) as C
    by apply items_count.
  pose proof (filter_length is_base_role plan) as F.
  assert (filter is_config_role plan
          = filter (fun e => negb (is_base_role e)) plan) as ->.
  { apply filter_ext. intros e. unfold is_config_role, is_base_role.
    now destruct (role e). }
  lia.
Qed.

Lemma seq_sorted (n : nat) : forall a, StronglySorted lt (seq a n).
Proof.
  induction n as [|n IH]; intros a; [constructor|].
  cbn [seq]. constructor; [apply IH|].
  apply Forall_forall. intros k Hk. apply in_seq in Hk. lia.
Qed.

Lemma filter_sorted (f : nat -> bool) (l : list nat) :
  StronglySorted lt l -> StronglySorted lt (filter f l).
Proof.
  induction 1 as [|x l S IH F]; [constructor|].
  cbn [filter]. destruct (f x); [|exact IH].
  constructor; [exact IH|].
  rewrite Forall_forall in *. intros k Hk. apply filter_In in Hk as [Hk _].
  now apply F.
Qed.

Lemma sublist_sorted {A} (g : A -> nat) (f : A -> bool) (l : list A) :
  StronglySorted lt (map g l) -> StronglySorted lt (map g (filter f l)).
Proof.
  induction l as [|x l IH]; intros S; [constructor|].
  cbn [map] in S. inversion S as [|? ? S' F]; subst.
  cbn [filter]. destruct (f x); [|now apply IH].
  cbn [map]. constructor; [now apply IH|].
  rewrite Forall_forall in *. intros k Hk.
  apply in_map_iff in Hk as (y & <- & Hy). apply filter_In in Hy as [Hy _].
  apply F. now apply in_map.
Qed.

(** C6. The plan holds the entries of [downloadUrls] that have a URL, and
    only those, in their input order. The entry at the position the
    specification describes as the base (the first of the largest) is the
    base and every other entry is a config, so the configs are all the
    entries with a URL but one. They stand in ascending order of their
    input positions and are named [config1], [config2], ..., [configN] in
    that order: the number of a config is its rank among the configs, and
    the sizes enter only through the choice of the base. *)
Theorem configs_numbered_in_input_order (appId : Z) (data : Data) :
  let urls := downloadUrls_of data in
  let plan := buildDownloadPlan appId data in
  let configs := filter is_config_role plan in
  map (fun e => idx (item e)) plan = Spec.url_positions urls
  /\ (forall e, In e plan ->
        exists u, nth_error urls (idx (item e)) = Some u
                  /\ Spec.has_url u = true
                  /\ item e = to_item u (idx (item e)))
  /\ (forall e, In e plan ->
        (role e = base <-> Spec.base_at urls (idx (item e)))
        /\ (role e = config <-> ~ Spec.base_at urls (idx (item e))))
  /\ List.length configs = pred (List.length (filter Spec.has_url urls))
  /\ StronglySorted lt (map (fun e => idx (item e)) configs)
  /\ map filename configs
     = map (fun ne =>
              Spec.filename_pattern appId (Spec.versionCode_of data) config
                (fst ne) (hash (item (snd ne))))
           (Spec.numbered 1 configs).
Proof.
  intros urls plan configs. split; [apply plan_positions|].
  split; [apply plan_entry_source|].
  split; [apply roles_by_position|].
  split; [apply config_count|].
  split.
  { apply sublist_sorted. unfold plan. rewrite plan_positions.
    apply filter_sorted, seq_sorted. }
  unfold configs, plan, buildDownloadPlan.
  rewrite config_entries_numbered.
  apply map_ext. intros [n e]. simpl.
  unfold config_filename, Spec.filename_pattern.
  now rewrite versionCode_text_spec, safeHash_of_hash12, hash_suffix_pattern.
Qed.

(** ** File names do not collide *)

Lemma to_uint_not_Nil (n : nat) : Nat.to_uint n <> Decimal.Nil.
Proof.
  pose proof (DecimalNat.Unsigned.to_of (Nat.to_uint n)) as H.
  rewrite DecimalNat.Unsigned.of_to in H. rewrite H.
  unfold Decimal.unorm. destruct (Decimal.nzhead (Nat.to_uint n)); discriminate.
Qed.

Lemma string_of_nat_NilEmpty (n : nat) :
  Js.string_of_nat n = NilEmpty.string_of_uint (Nat.to_uint n).
Proof.
  unfold Js.string_of_nat, NilZero.string_of_uint.
  pose proof (to_uint_not_Nil n) as H.
  destruct (Nat.to_uint n); [contradiction | reflexivity ..].
Qed.

Lemma suffix_starts_off_digits (h : string) :
  starts_off_digits (hash_suffix h ++ ".apk")%string = true.
Proof. destruct h; reflexivity. Qed.

Lemma config_filename_inj appId vc (n m : nat) (h h' : string) :
  config_filename appId vc n h = config_filename appId vc m h' -> n = m.
Proof.
  unfold config_filename. intros H.
  do 4 apply append_inv_head in H.
  apply (append_inv_head "_config") in H.
  rewrite !string_of_nat_NilEmpty in H.
  apply uint_text_prefix_free in H; try apply suffix_starts_off_digits.
  now apply DecimalNat.Unsigned.to_uint_inj.
Qed.

Lemma base_not_config_filename appId vc (n : nat) (h h' : string) :
  base_filename appId vc h <> config_filename appId vc n h'.
Proof.
  unfold base_filename, config_filename. intros H.
  do 4 apply append_inv_head in H.
  simpl in H. discriminate H.
Qed.

Lemma assign_roles_names appId vc b (items : list Item) :
  forall c e,
    In e (assign_roles appId vc b c items) ->
    (is_base b (item e) = true
     /\ filename e = base_filename appId vc (safeHash_of (item e)))
    \/ (exists n, (c <= n)%nat
                  /\ filename e
                     = config_filename appId vc n (safeHash_of (item e))).
Proof.
  induction items as [|i r IH]; intros c e H; simpl in H; [contradiction|].
  destruct (is_base b i) eqn:B; destruct H as [<- | H].
  - left. now split.
  - exact (IH _ _ H).
  - right. exists c. now split.
  - destruct (IH _ _ H) as [L | (n & Hn & E)]; [now left|].
    right. exists n. split; [lia | exact E].
Qed.

Lemma assign_roles_NoDup appId vc b (items : list Item) :
  NoDup (map idx items) ->
  forall c, NoDup (map filename (assign_roles appId vc b c items)).
Proof.
  induction items as [|i r IH]; intros ND c; simpl; [constructor|].
  inversion ND as [|? ? Hnot ND']; subst.
  destruct (is_base b i) eqn:B; simpl; constructor; try now apply IH.
  - intros Hin. apply in_map_iff in Hin as (e & E & He).
    destruct (assign_roles_names _ _ _ _ _ _ He) as [[Be _] | (n & _ & N)].
    + apply Hnot. apply in_map_iff. exists (item e). split.
      * destruct b as [k|]; [|discriminate]. simpl in B, Be.
        apply Nat.eqb_eq in B, Be. congruence.
      * rewrite <- (map_item_assign_roles appId vc b r c).
        now apply in_map.
    + rewrite N in E. symmetry in E.
      now apply base_not_config_filename in E.
  - intros Hin. apply in_map_iff in Hin as (e & E & He).
    destruct (assign_roles_names _ _ _ _ _ _ He) as [[_ N] | (n & Hn & N)].
    + rewrite N in E. now apply base_not_config_filename in E.
    + rewrite N in E. apply config_filename_inj in E. lia.
Qed.

(** C10. The file names of a plan are pairwise distinct, whatever the
    hashes are: there is one base name, and the config names carry
    different numbers. *)
Theorem plan_filenames_distinct (appId : Z) (data : Data) :
  NoDup (map filename (buildDownloadPlan appId data)).
Proof.
  unfold buildDownloadPlan. apply assign_roles_NoDup. apply items_idx_NoDup.
Qed.

(** ** The export texts *)

Lemma links_of_items (urls : list RawArtifact) :
  forall i,
    map (fun it => match url it with Some s => s | None => "undefined" end)
        (filter (fun x => Js.truthy (url x)) (index_from i urls))
    = allLinks_of urls.
Proof.
  induction urls as [|u r IH]; intros i; simpl; [reflexivity|].
  destruct (raw_url u) as [[|c s]|] eqn:E; simpl; rewrite ?E, IH; reflexivity.
Qed.

Lemma allLinks_plan (appId : Z) (data : Data) :
  allLinks_of (downloadUrls_of data)
  = map url_text (buildDownloadPlan appId data).
Proof.
  rewrite <- (links_of_items _ 0).
  change (filter (fun x => Js.truthy (url x))
                 (index_from 0 (downloadUrls_of data)))
    with (items_of (downloadUrls_of data)).
  rewrite <- (plan_items appId data), map_map. reflexivity.
Qed.

Lemma isSplitSet_plan (appId : Z) (data : Data) (meta : Meta) :
  isSplitSet (renderDownloadLinks appId data meta)
  = (1 <? List.length (plan (renderDownloadLinks appId data meta)))%nat.
Proof.
  simpl. now rewrite (allLinks_plan appId), length_map.
Qed.

Lemma allLinks_input_order (urls : list RawArtifact) :
  allLinks_of urls
  = map (fun u => Js.or_else (raw_url u) "") (filter Spec.has_url urls).
Proof.
  induction urls as [|u r IH]; simpl; [reflexivity|].
  unfold Spec.has_url at 1.
  destruct (raw_url u) as [[|c s]|] eqn:E; simpl; rewrite ?E; now rewrite IH.
Qed.

Lemma append_empty_r (a : string) : (a ++ "")%string = a.
Proof. induction a as [|c a IH]; [reflexivity|]. cbn. now rewrite IH. Qed.

Lemma join_each_on_a_line (l : list string) :
  forall x, Js.join nl (x :: l) = (x ++ Spec.each_on_a_line l)%string.
Proof.
  induction l as [|y r IH]; intros x.
  - cbn. now rewrite append_empty_r.
  - change (Js.join nl (x :: y :: r))
      with (x ++ nl ++ Js.join nl (y :: r))%string.
    now rewrite IH.
Qed.

Lemma each_on_a_line_app (a b : list string) :
  Spec.each_on_a_line (a ++ b)
  = (Spec.each_on_a_line a ++ Spec.each_on_a_line b)%string.
Proof.
  induction a as [|x a IH]; [reflexivity|].
  cbn [app Spec.each_on_a_line]. now rewrite IH, !append_assoc.
Qed.

Lemma each_on_a_line_join (x : string) (l : list string) :
  Spec.each_on_a_line (x :: l) = (nl ++ Js.join nl (x :: l))%string.
Proof. now rewrite join_each_on_a_line. Qed.

(** The lines pushed after the first ones follow the text of the first
    ones, each on a line of its own. *)
Lemma join_after_opening (x : string) (l rest : list string) :
  Js.join nl ((x :: l) ++ rest)
  = (Js.join nl (x :: l) ++ Spec.each_on_a_line rest)%string.
Proof.
  cbn [app].
  now rewrite !join_each_on_a_line, each_on_a_line_app, append_assoc.
Qed.

Lemma pwshScript_composition (appId : Z) (data : Data) (meta : Meta) :
  pwshScript (renderDownloadLinks appId data meta)
  = Spec.script_of (Js.join nl pwsh_opening_lines) pwsh_fetch_line
      (nl ++ pwsh_done_line) (nl ++ Js.join nl pwsh_install_lines)
      (plan (renderDownloadLinks appId data meta)).
Proof.
  unfold pwshScript, pwsh_lines, Spec.script_of.
  rewrite isSplitSet_plan.
  set (r := renderDownloadLinks appId data meta).
  unfold pwsh_opening_lines at 1.
  rewrite join_after_opening, !each_on_a_line_app.
  fold pwsh_opening_lines.
  do 2 f_equal.
  cbn [Spec.each_on_a_line]. rewrite append_empty_r.
  f_equal.
  destruct (1 <? List.length (plan r))%nat; [|reflexivity].
  apply each_on_a_line_join.
Qed.

Lemma curlScript_composition (appId : Z) (data : Data) (meta : Meta) :
  curlScript (renderDownloadLinks appId data meta)
  = Spec.script_of (Js.join nl curl_opening_lines) curl_fetch_line
      "" (nl ++ Js.join nl curl_install_lines)
      (plan (renderDownloadLinks appId data meta)).
Proof.
  unfold curlScript, curl_lines, Spec.script_of.
  rewrite isSplitSet_plan.
  set (r := renderDownloadLinks appId data meta).
  unfold curl_opening_lines at 1.
  rewrite join_after_opening, each_on_a_line_app.
  fold curl_opening_lines.
  do 2 f_equal. cbn [append].
  destruct (1 <? List.length (plan r))%nat; [|reflexivity].
  apply each_on_a_line_join.
Qed.

Lemma ends_with_app (suffix a : string) :
  Spec.ends_with suffix (a ++ suffix) = true.
Proof.
  induction a as [|c a IH]; cbn [append].
  - destruct suffix; cbn [Spec.ends_with]; now rewrite String.eqb_refl.
  - cbn [Spec.ends_with]. rewrite IH. apply orb_true_r.
Qed.

Lemma last_char_app (a b : string) :
  b <> ""%string -> Spec.last_char (a ++ b) = Spec.last_char b.
Proof.
  intros N. induction a as [|c a IH]; [reflexivity|].
  cbn [append Spec.last_char]. rewrite IH.
  destruct (a ++ b)%string eqn:E; [|reflexivity].
  destruct a; [cbn in E; contradiction | discriminate E].
Qed.

Lemma ends_with_last_char (suffix text : string) :
  suffix <> ""%string ->
  Spec.ends_with suffix text = true ->
  Spec.last_char text = Spec.last_char suffix.
Proof.
  intros N. induction text as [|c text IH]; cbn [Spec.ends_with]; intros H.
  - rewrite orb_false_r in H. apply String.eqb_eq in H. now subst.
  - apply orb_prop in H as [H | H].
    + apply String.eqb_eq in H. now subst.
    + specialize (IH H). cbn [Spec.last_char]. rewrite IH.
      destruct text; [|reflexivity].
      cbn [Spec.ends_with] in H. rewrite orb_false_r in H.
      apply String.eqb_eq in H. now subst.
Qed.

Lemma pwshScript_ending (appId : Z) (data : Data) (meta : Meta) :
  let r := renderDownloadLinks appId data meta in
  Spec.ends_with (nl ++ "adb install-multiple @apks") (pwshScript r)
  = (1 <? List.length (plan r))%nat.
Proof.
  intros r. unfold r. rewrite pwshScript_composition. fold r.
  unfold Spec.script_of.
  destruct (1 <? List.length (plan r))%nat.
  - assert ((nl ++ Js.join nl pwsh_install_lines)%string
            = ((nl ++ Js.join nl (firstn 4 pwsh_install_lines))
                 ++ (nl ++ "adb install-multiple @apks"))%string) as ->
      by reflexivity.
    set (suffix := (nl ++ "adb install-multiple @apks")%string).
    rewrite <- !append_assoc. apply ends_with_app.
  - rewrite append_empty_r.
    destruct (Spec.ends_with _ _) eqn:E; [exfalso | reflexivity].
    apply ends_with_last_char in E; [|discriminate].
    rewrite <- !append_assoc in E.
    rewrite last_char_app in E by (intros N; vm_compute in N; discriminate N).
    vm_compute in E. discriminate E.
Qed.

Lemma curlScript_ending (appId : Z) (data : Data) (meta : Meta) :
  let r := renderDownloadLinks appId data meta in
  Spec.ends_with (nl ++ "adb install-multiple downloads/*.apk") (curlScript r)
  = (1 <? List.length (plan r))%nat.
Proof.
  intros r. unfold r. rewrite curlScript_composition. fold r.
  unfold Spec.script_of.
  destruct (plan r) as [|e [|e' rest]]; cbn [List.length Nat.ltb Nat.leb].
  - reflexivity.
  - cbn [map Spec.each_on_a_line]. rewrite !append_empty_r.
    destruct (Spec.ends_with _ _) eqn:E; [exfalso | reflexivity].
    apply ends_with_last_char in E; [|discriminate].
    unfold curl_fetch_line in E. rewrite <- !append_assoc in E.
    rewrite last_char_app in E by (intros N; vm_compute in N; discriminate N).
    vm_compute in E. discriminate E.
  - assert ((nl ++ Js.join nl curl_install_lines)%string
            = ((nl ++ Js.join nl (firstn 2 curl_install_lines))
                 ++ (nl ++ "adb install-multiple downloads/*.apk"))%string)
      as -> by reflexivity.
    set (suffix := (nl ++ "adb install-multiple downloads/*.apk")%string).
    rewrite <- !append_assoc. apply ends_with_app.
Qed.

(** C8. The three export texts depend on the plan alone: two renderings
    with the same plan give the same link list, the same PowerShell script
    and the same curl script, character for character. The link list is
    the URLs of the plan in its order, which is the input order of the
    entries that have a URL, joined by newlines. Each script is the text
    the specification describes, composed from the plan: the opening that
    creates the output directory, one fetch-to-file command per entry in
    plan order, the closing, and the install block when the plan has more
    than one entry; so the text of each script ends with its
    [adb install-multiple] line exactly when the plan has more than one
    entry. *)
Theorem export_texts_determined_by_plan
    (appId appId' : Z) (data data' : Data) (meta meta' : Meta) :
  let r := renderDownloadLinks appId data meta in
  let r' := renderDownloadLinks appId' data' meta' in
  (plan r = plan r' ->
   copyLinksText r = copyLinksText r'
   /\ pwshScript r = pwshScript r'
   /\ curlScript r = curlScript r')
  /\ copyLinksText r = Js.join nl (map url_text (plan r))
  /\ allLinks r
     = map (fun u => Js.or_else (raw_url u) "")
           (filter Spec.has_url (downloadUrls_of data))
  /\ pwshScript r
     = Spec.script_of (Js.join nl pwsh_opening_lines) pwsh_fetch_line
         (nl ++ pwsh_done_line) (nl ++ Js.join nl pwsh_install_lines)
         (plan r)
  /\ curlScript r
     = Spec.script_of (Js.join nl curl_opening_lines) curl_fetch_line
         "" (nl ++ Js.join nl curl_install_lines) (plan r)
  /\ Spec.ends_with (nl ++ "adb install-multiple @apks") (pwshScript r)
     = (1 <? List.length (plan r))%nat
  /\ Spec.ends_with (nl ++ "adb install-multiple downloads/*.apk")
       (curlScript r)
     = (1 <? List.length (plan r))%nat
  /\ (In "adb install-multiple @apks"%string (pwsh_lines r)
      <-> (1 < List.length (plan r))%nat)
  /\ (In "adb install-multiple downloads/*.apk"%string (curl_lines r)
      <-> (1 < List.length (plan r))%nat).
Proof.
  intros r r'.
  assert (forall a d m,
             allLinks (renderDownloadLinks a d m)
             = map url_text (plan (renderDownloadLinks a d m))) as L.
  { intros. apply allLinks_plan. }
  split.
  { intros E.
    unfold copyLinksText, pwshScript, curlScript, pwsh_lines, curl_lines.
    unfold r, r'. rewrite !isSplitSet_plan, !L.
    fold r r'. now rewrite E. }
  split. { unfold copyLinksText, r. now rewrite L. }
  split. { apply allLinks_input_order. }
  split. { apply pwshScript_composition. }
  split. { apply curlScript_composition. }
  split. { apply pwshScript_ending. }
  split. { apply curlScript_ending. }
  unfold pwsh_lines, curl_lines, r.
  rewrite (isSplitSet_plan appId data meta). fold r. split.
  - destruct (1 <? List.length (plan r))%nat eqn:N.
    + apply Nat.ltb_lt in N. split; [intros _; exact N|intros _].
      rewrite !in_app_iff. do 3 right. simpl. tauto.
    + apply Nat.ltb_ge in N. split; [|lia]. intros H. exfalso.
      rewrite !in_app_iff in H.
      destruct H as [H | [H | [H | []]]].
      * simpl in H. destruct H as [H | [H | [H | []]]]; discriminate H.
      * apply in_map_iff in H as (e & H & _). discriminate H.
      * simpl in H. destruct H as [H | []]. discriminate H.
  - destruct (1 <? List.length (plan r))%nat eqn:N.
    + apply Nat.ltb_lt in N. split; [intros _; exact N|intros _].
      rewrite !in_app_iff. do 2 right. simpl. tauto.
    + apply Nat.ltb_ge in N. split; [|lia]. intros H. exfalso.
      rewrite !in_app_iff in H.
      destruct H as [H | [H | []]].
      * simpl in H. destruct H as [H | []]. discriminate H.
      * apply in_map_iff in H as (e & H & _). discriminate H.
Qed.

(** ** The density ladder *)

Lemma guess_at_least_240 (devicePixelRatio : Q) :
  240 <= guessAndroidScreenDensity devicePixelRatio.
Proof. unfold guessAndroidScreenDensity. apply Z.le_max_l. Qed.

(** The candidates are the requested density followed by the ladder
    without it. *)
Lemma candidates_closed_form (requested : Z) :
  densityCandidates_of requested
  = requested :: filter (fun d => negb (d =? requested)) Spec.ladder.
Proof.
  unfold densityCandidates_of, Js.array_from_set, Spec.ladder.
  cbn [Js.set_add_all existsb app filter].
  destruct (Z.eqb_spec 480 requested) as [<-|N480]; [reflexivity|].
  destruct (Z.eqb_spec 320 requested) as [<-|N320]; [reflexivity|].
  destruct (Z.eqb_spec 240 requested) as [<-|N240]; [reflexivity|].
  destruct (Z.eqb_spec 160 requested) as [<-|N160]; [reflexivity|].
  destruct (Z.eqb_spec 0 requested) as [<-|N0]; reflexivity.
Qed.

Lemma ladder_NoDup : NoDup Spec.ladder.
Proof.
  unfold Spec.ladder.
  repeat (constructor;
          [simpl; intros H; repeat destruct H as [H|H];
           try discriminate H; try contradiction|]).
  constructor.
Qed.

Lemma ladder_rest_last (requested : Z) :
  requested <> 0 ->
  last (requested :: filter (fun d => negb (d =? requested)) Spec.ladder) 1 = 0.
Proof.
  intros N. unfold Spec.ladder. cbn [filter].
  destruct (Z.eqb_spec 0 requested) as [E|_]; [congruence|].
  destruct (480 =? requested), (320 =? requested), (240 =? requested),
    (160 =? requested); reflexivity.
Qed.

Lemma ladder_rest_count (requested : Z) :
  count_occ Z.eq_dec
    (requested :: filter (fun d => negb (d =? requested)) Spec.ladder) 0
  = 1%nat.
Proof.
  unfold Spec.ladder. cbn [filter].
  destruct (Z.eqb_spec 0 requested) as [<-|N]; [reflexivity|].
  cbn [negb count_occ].
  destruct (Z.eq_dec requested 0) as [E|_]; [congruence|].
  destruct (480 =? requested), (320 =? requested), (240 =? requested),
    (160 =? requested); reflexivity.
Qed.

(** C4. The density sequence has no duplicates: it is the requested
    density followed by the ladder 480, 320, 240, 160, 0 without the
    requested density, so each density stands where it first occurred. An
    explicit finite density comes first. The density 0 occurs exactly once,
    and it is the last one unless 0 itself was requested explicitly. *)
Theorem density_sequence_deduplicated (options : DensityOption)
    (devicePixelRatio : Q) :
  let requested := requestedDensity_of options devicePixelRatio in
  let densities := densityCandidates_of requested in
  NoDup densities
  /\ densities
     = requested :: filter (fun d => negb (d =? requested)) Spec.ladder
  /\ (forall d, options = Finite d -> hd_error densities = Some d)
  /\ count_occ Z.eq_dec densities 0 = 1%nat
  /\ (options <> Finite 0 -> last densities 1 = 0).
Proof.
  intros requested densities. unfold densities.
  rewrite candidates_closed_form.
  split.
  { constructor.
    - intros H. apply filter_In in H as [_ H].
      now rewrite Z.eqb_refl in H.
    - apply NoDup_filter, ladder_NoDup. }
  split; [reflexivity|].
  split. { intros d ->. reflexivity. }
  split; [apply ladder_rest_count|].
  intros N. apply ladder_rest_last.
  unfold requested. destruct options as [|d|]; simpl.
  - pose proof (guess_at_least_240 devicePixelRatio). lia.
  - intros ->. now apply N.
  - pose proof (guess_at_least_240 devicePixelRatio). lia.
Qed.

(** ** The trial loop *)

Section Loop.

Variable svc : Service.
Variables appId sdkVersion : Z.

(** The nested loops visit the trial list. *)
Lemma nested_loops_flat (densities : list Z) (s : LoopState) :
  for_of densities (fun density =>
    for_of withoutSplitsCandidates (fun withoutSplits =>
      trial svc appId sdkVersion density withoutSplits)) s
  = for_of (Spec.trial_list densities) (trial_at svc appId sdkVersion) s.
Proof.
  revert s. induction densities as [|d r IH]; intros s; [reflexivity|].
  cbn [for_of Spec.trial_list flat_map withoutSplitsCandidates app].
  unfold bind at 1 2 3 6 7. unfold trial_at at 1 2.
  cbn [fst snd].
  destruct (trial svc appId sdkVersion d false s) as [[[]|rd|e] s1];
    try reflexivity.
  destruct (trial svc appId sdkVersion d true s1) as [[[]|rd|e] s2];
    try reflexivity.
  unfold ret. apply IH.
Qed.

Lemma trial_on_empty (p : Z * bool) (s : LoopState) (data : Data) :
  Spec.ok_data (svc (Spec.request_of appId sdkVersion p)) = Some data ->
  downloadUrls_of data = [] ->
  trial_at svc appId sdkVersion p s
  = (Normal tt,
     {| lastData := Some data; lastMeta := Spec.profile_of p;
        sent := sent s ++ [Spec.request_of appId sdkVersion p] |}).
Proof.
  intros Hok Hempty.
  unfold trial_at, trial, requestDownloadLink, fetch, bind, send, ret.
  unfold Spec.request_of, Spec.ok_data in *.
  destruct (svc (request_body appId sdkVersion (snd p) (fst p)))
    as [m | status [d | | m]]; try discriminate Hok.
  unfold handle_response, status_ok.
  destruct ((200 <=? status) && (status <=? 299)); [|discriminate Hok].
  cbn [negb]. unfold ret, examine, code_not_OK.
  destruct (data_code d) as [c|]; [|discriminate Hok].
  destruct (String.eqb c "OK"); [|discriminate Hok].
  injection Hok as ->. cbn [negb]. unfold bind, remember.
  rewrite Hempty. reflexivity.
Qed.

Lemma trial_on_artifacts (p : Z * bool) (s : LoopState) (data : Data) :
  Spec.ok_data (svc (Spec.request_of appId sdkVersion p)) = Some data ->
  downloadUrls_of data <> [] ->
  trial_at svc appId sdkVersion p s
  = (Returned (renderDownloadLinks appId data (Spec.profile_of p)),
     {| lastData := Some data; lastMeta := Spec.profile_of p;
        sent := sent s ++ [Spec.request_of appId sdkVersion p] |}).
Proof.
  intros Hok Hsome.
  unfold trial_at, trial, requestDownloadLink, fetch, bind, send, ret.
  unfold Spec.request_of, Spec.ok_data in *.
  destruct (svc (request_body appId sdkVersion (snd p) (fst p)))
    as [m | status [d | | m]]; try discriminate Hok.
  unfold handle_response, status_ok.
  destruct ((200 <=? status) && (status <=? 299)); [|discriminate Hok].
  cbn [negb]. unfold ret, examine, code_not_OK.
  destruct (data_code d) as [c|]; [|discriminate Hok].
  destruct (String.eqb c "OK"); [|discriminate Hok].
  injection Hok as ->. cbn [negb]. unfold bind, remember.
  destruct (downloadUrls_of data); [contradiction|]. reflexivity.
Qed.

Lemma trial_on_error (p : Z * bool) (s : LoopState) :
  Spec.error_status (svc (Spec.request_of appId sdkVersion p)) ->
  exists message,
    trial_at svc appId sdkVersion p s
    = (Thrown message,
       {| lastData := lastData s; lastMeta := lastMeta s;
          sent := sent s ++ [Spec.request_of appId sdkVersion p] |}).
Proof.
  intros Herr.
  unfold trial_at, trial, requestDownloadLink, fetch, bind, send, ret.
  unfold Spec.error_status, Spec.request_of, Spec.ok_data in *.
  destruct (svc (request_body appId sdkVersion (snd p) (fst p)))
    as [m | status [d | | m]]; unfold handle_response, status_ok, throw.
  - eexists; reflexivity.
  - destruct ((200 <=? status) && (status <=? 299)); cbn [negb];
      [|eexists; reflexivity].
    unfold ret, examine, code_not_OK, throw.
    destruct (data_code d) as [c|]; [|eexists; reflexivity].
    destruct (String.eqb c "OK"); [discriminate Herr|].
    eexists; reflexivity.
  - destruct ((200 <=? status) && (status <=? 299)); cbn [negb];
      eexists; reflexivity.
  - destruct ((200 <=? status) && (status <=? 299)); cbn [negb];
      eexists; reflexivity.
Qed.

(** While the answers are empty the loop goes on, one request each. *)
Lemma loop_over_empty (pre : list (Z * bool)) :
  Forall (fun p =>
            Spec.empty_answer (svc (Spec.request_of appId sdkVersion p))) pre ->
  forall (rest : list (Z * bool)) (s : LoopState),
  exists s',
    for_of (pre ++ rest) (trial_at svc appId sdkVersion) s
  = for_of rest (trial_at svc appId sdkVersion) s'
    /\ sent s' = sent s ++ map (Spec.request_of appId sdkVersion) pre
    /\ (pre = [] -> s' = s)
    /\ (forall init p, pre = init ++ [p] ->
          exists data,
            Spec.ok_data (svc (Spec.request_of appId sdkVersion p)) = Some data
            /\ downloadUrls_of data = []
            /\ lastData s' = Some data).
Proof.
  induction 1 as [|p pre (data & Hok & Hempty) _ IH]; intros rest s.
  - exists s. split; [reflexivity|]. split; [now rewrite app_nil_r|].
    split; [reflexivity|]. intros [|? ?] ? E; discriminate E.
  - cbn [app for_of]. unfold bind at 1.
    rewrite (trial_on_empty p s data Hok Hempty).
    destruct (IH rest
                {| lastData := Some data;
                   lastMeta := Spec.profile_of p;
                   sent := sent s ++ [Spec.request_of appId sdkVersion p] |})
      as (s' & Hrun & Hsent & Hnil & Hlast).
    exists s'. split; [exact Hrun|]. split.
    { rewrite Hsent. cbn [sent map]. now rewrite <- app_assoc. }
    split; [discriminate|].
    intros init q E. destruct init as [|x init].
    + cbn in E. injection E as <- ->.
      rewrite (Hnil eq_refl). exists data. now split.
    + cbn in E. injection E as _ ->. exact (Hlast _ _ eq_refl).
Qed.

End Loop.

(** ** Outcomes of [downloadApp] *)

Lemma downloadApp_unfold (svc : Service) (devicePixelRatio : Q)
    (appId sdkVersion : Z) (options : DensityOption) :
  let requested := requestedDensity_of options devicePixelRatio in
  downloadApp svc devicePixelRatio appId sdkVersion options
  = match for_of (Spec.trial_list (densityCandidates_of requested))
                 (trial_at svc appId sdkVersion)
                 {| lastData := None;
                    lastMeta := {| screenDensity := requested;
                                   withoutSplitsUsed := false |};
                    sent := [] |} with
    | (Normal _, s) => (EmptyAfterExhaustion (lastData s), sent s)
    | (Returned r, s) => (Success r, sent s)
    | (Thrown e, s) => (Failure (shown_error e), sent s)
    end.
Proof.
  intros requested. unfold downloadApp. fold requested.
  now rewrite nested_loops_flat.
Qed.

(** C1. The trials run in the order of the trial list: the densities in
    sequence, each with [withoutSplits = false] and then [true], one
    request per trial. When the answers before some trial are empty and
    that trial's answer has an artifact, the requests sent are exactly
    those of the trials up to and including it, none after, and the
    outcome is the success rendering tagged with that trial's profile. *)
Theorem first_profile_with_artifacts_wins (svc : Service)
    (devicePixelRatio : Q) (appId sdkVersion : Z) (options : DensityOption)
    (pre post : list (Z * bool)) (p : Z * bool) (data : Data) :
  Spec.trial_list
    (densityCandidates_of (requestedDensity_of options devicePixelRatio))
  = pre ++ p :: post ->
  Forall (fun q =>
            Spec.empty_answer (svc (Spec.request_of appId sdkVersion q))) pre ->
  Spec.ok_data (svc (Spec.request_of appId sdkVersion p)) = Some data ->
  downloadUrls_of data <> [] ->
  downloadApp svc devicePixelRatio appId sdkVersion options
  = (Success (renderDownloadLinks appId data (Spec.profile_of p)),
     map (Spec.request_of appId sdkVersion) (pre ++ [p])).
Proof.
  intros Htrials Hpre Hok Hsome.
  rewrite downloadApp_unfold. cbv zeta. rewrite Htrials.
  destruct (loop_over_empty svc appId sdkVersion pre Hpre (p :: post)
              {| lastData := None;
                 lastMeta := {| screenDensity :=
                                  requestedDensity_of options devicePixelRatio;
                                withoutSplitsUsed := false |};
                 sent := [] |})
    as (s' & -> & Hsent & _).
  cbn [for_of]. unfold bind at 1. unfold trial_at at 1.
  fold (trial_at svc appId sdkVersion p).
  rewrite (trial_on_artifacts svc appId sdkVersion p s' data Hok Hsome).
  cbn [sent]. rewrite Hsent, map_app. reflexivity.
Qed.

(** C2. A trial whose call result has an error status (a transport status
    outside 2xx, a code other than "OK", no response or no parsable body)
    ends the operation with [Failure]: the requests sent are those of the
    trials up to and including it, and none follows. *)
Theorem error_status_aborts (svc : Service)
    (devicePixelRatio : Q) (appId sdkVersion : Z) (options : DensityOption)
    (pre post : list (Z * bool)) (p : Z * bool) :
  Spec.trial_list
    (densityCandidates_of (requestedDensity_of options devicePixelRatio))
  = pre ++ p :: post ->
  Forall (fun q =>
            Spec.empty_answer (svc (Spec.request_of appId sdkVersion q))) pre ->
  Spec.error_status (svc (Spec.request_of appId sdkVersion p)) ->
  exists message,
    downloadApp svc devicePixelRatio appId sdkVersion options
    = (Failure message, map (Spec.request_of appId sdkVersion) (pre ++ [p])).
Proof.
  intros Htrials Hpre Herr.
  rewrite downloadApp_unfold. cbv zeta. rewrite Htrials.
  destruct (loop_over_empty svc appId sdkVersion pre Hpre (p :: post)
              {| lastData := None;
                 lastMeta := {| screenDensity :=
                                  requestedDensity_of options devicePixelRatio;
                                withoutSplitsUsed := false |};
                 sent := [] |})
    as (s' & -> & Hsent & _).
  cbn [for_of]. unfold bind at 1.
  destruct (trial_on_error svc appId sdkVersion p s' Herr) as [message ->].
  exists (shown_error message).
  cbn [sent]. rewrite Hsent, map_app. reflexivity.
Qed.

Lemma trial_list_last (densities : list Z) :
  densities <> [] ->
  exists init d, Spec.trial_list densities = init ++ [(d, true)]
                 /\ last densities 0 = d.
Proof.
  induction densities as [|d r IH]; intros N; [contradiction|].
  destruct r as [|d' r'].
  - exists [(d, false)], d. split; reflexivity.
  - destruct IH as (init & x & E & L); [discriminate|].
    exists ((d, false) :: (d, true) :: init), x.
    split; [|exact L].
    change (Spec.trial_list (d :: d' :: r'))
      with ((d, false) :: (d, true) :: Spec.trial_list (d' :: r')).
    now rewrite E.
Qed.

(** C3. When every trial of the sequence answers with success status and
    no artifact, every trial is requested once, and the outcome is
    [EmptyAfterExhaustion], which is not a [Failure], carrying the data of
    the answer to the last trial. *)
Theorem exhaustion_carries_last_attempt (svc : Service)
    (devicePixelRatio : Q) (appId sdkVersion : Z) (options : DensityOption) :
  let trials :=
    Spec.trial_list
      (densityCandidates_of (requestedDensity_of options devicePixelRatio)) in
  Forall (fun q =>
            Spec.empty_answer (svc (Spec.request_of appId sdkVersion q)))
         trials ->
  exists init p data,
    trials = init ++ [p]
    /\ Spec.ok_data (svc (Spec.request_of appId sdkVersion p)) = Some data
    /\ downloadUrls_of data = []
    /\ downloadApp svc devicePixelRatio appId sdkVersion options
       = (EmptyAfterExhaustion (Some data),
          map (Spec.request_of appId sdkVersion) trials)
    /\ (forall message,
          fst (downloadApp svc devicePixelRatio appId sdkVersion options)
          <> Failure message).
Proof.
  intros trials Hall.
  destruct (trial_list_last
              (densityCandidates_of
                 (requestedDensity_of options devicePixelRatio)))
    as (init & d & E & _).
  { rewrite candidates_closed_form. discriminate. }
  fold trials in E.
  destruct (loop_over_empty svc appId sdkVersion trials Hall []
              {| lastData := None;
                 lastMeta := {| screenDensity :=
                                  requestedDensity_of options devicePixelRatio;
                                withoutSplitsUsed := false |};
                 sent := [] |})
    as (s' & Hrun & Hsent & _ & Hlast).
  destruct (Hlast _ _ E) as (data & Hok & Hempty & Hdata).
  assert (downloadApp svc devicePixelRatio appId sdkVersion options
          = (EmptyAfterExhaustion (Some data),
             map (Spec.request_of appId sdkVersion) trials)) as R.
  { rewrite downloadApp_unfold. cbv zeta. fold trials.
    rewrite app_nil_r in Hrun. rewrite Hrun. cbn [for_of]. unfold ret.
    now rewrite Hdata, Hsent. }
  exists init, (d, true), data.
  repeat split; try assumption.
  intros message. rewrite R. discriminate.
Qed.

(** ** The page around the running call *)

Lemma trials_of_trial_list (densities : list Z) :
  Page.trials_of densities = Spec.trial_list densities.
Proof. reflexivity. Qed.

(** What [downloadApp] does once a fetch has settled depends on the answer
    alone. *)
Lemma resume_cases (r : FetchResult) (appId density : Z)
    (withoutSplits : bool) :
  let resumed :=
    bind (handle_response r) (examine appId density withoutSplits) in
  let meta := {| screenDensity := density;
                 withoutSplitsUsed := withoutSplits |} in
  (exists e, forall s, resumed s = (Thrown e, s))
  \/ (exists data,
        downloadUrls_of data = []
        /\ forall s, resumed s
                     = (Normal tt, {| lastData := Some data; lastMeta := meta;
                                      sent := sent s |}))
  \/ (exists data,
        forall s, resumed s
                  = (Returned (renderDownloadLinks appId data meta),
                     {| lastData := Some data; lastMeta := meta;
                        sent := sent s |})).
Proof.
  intros resumed meta. unfold resumed, bind, handle_response.
  destruct r as [m | status [d | | m]].
  - left. exists m. reflexivity.
  - destruct (negb (status_ok status)).
    + left. eexists. reflexivity.
    + unfold ret, examine. destruct (code_not_OK d).
      * left. eexists. reflexivity.
      * unfold bind, remember, get_lastMeta, return_with, ret.
        destruct (downloadUrls_of d) eqn:U.
        -- right. left. exists d. split; [exact U|]. reflexivity.
        -- right. right. exists d. reflexivity.
  - destruct (negb (status_ok status)); left; eexists; reflexivity.
  - destruct (negb (status_ok status)); left; eexists; reflexivity.
Qed.

Lemma trial_resumes (svc : Service) (appId sdkVersion : Z) (p : Z * bool)
    (s : LoopState) :
  trial_at svc appId sdkVersion p s
  = bind (handle_response (svc (Spec.request_of appId sdkVersion p)))
         (examine appId (fst p) (snd p))
         {| lastData := lastData s; lastMeta := lastMeta s;
            sent := sent s ++ [Spec.request_of appId sdkVersion p] |}.
Proof. reflexivity. Qed.

Lemma serve_idle (svc : Service) (n : nat) (p : Page.State) :
  Page.task p = None -> Page.serve svc n p = p.
Proof. intros H. destruct n; simpl; [reflexivity | now rewrite H]. Qed.

Lemma serve_step (svc : Service) (n : nat) (p : Page.State) (t : Page.Task) :
  Page.task p = Some t ->
  Page.serve svc (S n) p
  = Page.serve svc n (Page.settle p (svc (Page.in_request (Page.t_fetch t)))).
Proof. intros H. cbn [Page.serve]. now rewrite H. Qed.

(** Served by the service, the page goes through the trial loop. *)
Lemma serve_follows_loop (svc : Service) (appId sdkVersion : Z)
    (rest : list (Z * bool)) :
  forall (d : Z) (w : bool) (s locals : LoopState) (p : Page.State),
    Page.task p
    = Some {| Page.t_appId := appId; Page.t_sdkVersion := sdkVersion;
              Page.t_density := d; Page.t_withoutSplits := w;
              Page.t_rest := rest; Page.t_locals := locals;
              Page.t_fetch := Page.download_fetch appId sdkVersion w d |} ->
    lastData locals = lastData s ->
    lastMeta locals = lastMeta s ->
    Page.wire p = sent s ++ [request_body appId sdkVersion w d] ->
    forall c s',
      for_of ((d, w) :: rest) (trial_at svc appId sdkVersion) s = (c, s') ->
      let q := Page.serve svc (S (List.length rest)) p in
      Page.task q = None
      /\ Page.wire q = sent s'
      /\ Page.downloadResults q = Page.Shown (outcome_of c s').
Proof.
  induction rest as [|[d' w'] rest' IH];
    intros d w s locals p Ht Hd Hm Hw c s' Hloop q; unfold q;
    cbn [for_of] in Hloop; unfold bind at 1 in Hloop;
    rewrite trial_resumes in Hloop; cbn [fst snd] in Hloop;
    rewrite (serve_step _ _ _ _ Ht);
    cbn [Page.t_fetch Page.download_fetch Page.in_request];
    unfold Page.settle; rewrite Ht;
    cbn [Page.t_appId Page.t_density Page.t_withoutSplits Page.t_locals
         Page.t_rest Page.t_sdkVersion];
    unfold Spec.request_of in Hloop; cbn [fst snd] in Hloop;
    destruct (resume_cases (svc (request_body appId sdkVersion w d)) appId d w)
      as [[e R] | [(data & U & R) | [data R]]];
    rewrite R in Hloop; rewrite R.
  - injection Hloop as <- <-. cbn. auto.
  - cbn [for_of] in Hloop. unfold ret in Hloop. injection Hloop as <- <-.
    cbn. auto.
  - injection Hloop as <- <-. cbn. auto.
  - injection Hloop as <- <-. rewrite serve_idle by reflexivity. cbn. auto.
  - cbn [Page.advance].
    eapply (IH d' w'
              {| lastData := Some data;
                 lastMeta := {| screenDensity := d; withoutSplitsUsed := w |};
                 sent := sent s ++ [request_body appId sdkVersion w d] |});
      [reflexivity | reflexivity | reflexivity | | exact Hloop].
    cbn. now rewrite Hw.
  - injection Hloop as <- <-. rewrite serve_idle by reflexivity. cbn. auto.
Qed.

(** The page, served by the service, ends where [downloadApp] says. *)
Lemma page_agrees_with_downloadApp (svc : Service) (devicePixelRatio : Q)
    (appId sdkVersion : Z) (options : DensityOption) :
  let trials :=
    Spec.trial_list
      (densityCandidates_of (requestedDensity_of options devicePixelRatio)) in
  let q := Page.serve svc (List.length trials)
             (Page.start devicePixelRatio appId sdkVersion options) in
  Page.task q = None
  /\ Page.wire q
     = snd (downloadApp svc devicePixelRatio appId sdkVersion options)
  /\ Page.downloadResults q
     = Page.Shown
         (fst (downloadApp svc devicePixelRatio appId sdkVersion options)).
Proof.
  intros trials q. unfold q, trials, Page.start.
  rewrite downloadApp_unfold. cbv zeta.
  rewrite !candidates_closed_form.
  set (requested := requestedDensity_of options devicePixelRatio).
  set (rest := filter (fun d => negb (d =? requested)) Spec.ladder).
  change (Spec.trial_list (requested :: rest))
    with ((requested, false) :: (requested, true) :: Spec.trial_list rest).
  set (s0 := {| lastData := None;
                lastMeta := {| screenDensity := requested;
                               withoutSplitsUsed := false |};
                sent := [] |}).
  destruct (for_of ((requested, false) :: (requested, true)
                      :: Spec.trial_list rest)
                   (trial_at svc appId sdkVersion) s0) as [c s'] eqn:Hloop.
  cbn [Page.advance].
  match goal with
  | |- context [Page.serve svc _ ?p] =>
      destruct (serve_follows_loop svc appId sdkVersion
                  ((requested, true) :: Spec.trial_list rest)
                  requested false s0 s0 p eq_refl eq_refl eq_refl eq_refl
                  c s' Hloop) as (T & W & C)
  end.
  cbn [List.length] in *.
  split; [exact T|]. split; [rewrite W | rewrite C]; now destruct c.
Qed.

Lemma start_signal_free (devicePixelRatio : Q) (appId sdkVersion : Z)
    (options : DensityOption) :
  Page.signal_free (Page.start devicePixelRatio appId sdkVersion options).
Proof.
  unfold Page.start, Page.signal_free, Page.advance.
  destruct (Page.trials_of _) as [|[d w] rest]; reflexivity.
Qed.

Lemma settle_signal_free (p : Page.State) (r : FetchResult) :
  Page.signal_free p -> Page.signal_free (Page.settle p r).
Proof.
  unfold Page.settle, Page.signal_free. intros H.
  destruct (Page.task p) as [t|] eqn:T; [|now rewrite T].
  destruct (bind _ _ _) as [[[]|rd|e] locals]; try exact I.
  unfold Page.advance. destruct (Page.t_rest t) as [|[d w] rest]; reflexivity.
Qed.

Lemma abort_signal_free (c : nat) (p : Page.State) :
  Page.signal_free p -> Page.abort c p = p.
Proof.
  unfold Page.signal_free, Page.abort.
  destruct (Page.task p) as [t|]; [|reflexivity]. now intros ->.
Qed.

Lemma step_signal_free (p : Page.State) (e : Page.Event) :
  Page.signal_free p -> Page.signal_free (Page.step p e).
Proof.
  intros H. destruct e as [| |r]; cbn [Page.step].
  - destruct (Page.controller p) as [c|];
      [rewrite (abort_signal_free c p H)|]; exact H.
  - exact H.
  - now apply settle_signal_free.
Qed.

Lemma cancellation_keeps_progress (p p' : Page.State) (e : Page.Event) :
  Page.signal_free p -> Page.is_cancellation e = true ->
  same_progress p p' -> same_progress (Page.step p e) p'.
Proof.
  intros F C (W & T & D). destruct e as [| |r]; [| |discriminate C];
    cbn [Page.step].
  - destruct (Page.controller p) as [c|];
      [rewrite (abort_signal_free c p F)|];
      (split; [exact W|]; split; [exact T | exact D]).
  - split; [exact W|]. split; [exact T|]. now right.
Qed.

Lemma settle_keeps_progress (p p' : Page.State) (r : FetchResult) :
  same_progress p p' -> same_progress (Page.settle p r) (Page.settle p' r).
Proof.
  intros S. pose proof S as (W & T & D). unfold Page.settle. rewrite <- T.
  destruct (Page.task p) as [t|]; [|exact S].
  destruct (bind _ _ _) as [[[]|rd|e] locals].
  - unfold Page.advance. destruct (Page.t_rest t) as [|[d w] rest].
    + split; [exact W|]. split; [reflexivity|]. now left.
    + split; [cbn; now rewrite W|]. split; [reflexivity|]. exact D.
  - split; [exact W|]. split; [reflexivity|]. now left.
  - split; [exact W|]. split; [reflexivity|]. now left.
Qed.

Lemma run_keeps_progress (events : list Page.Event) :
  forall p p',
    Page.signal_free p -> same_progress p p' ->
    same_progress
      (Page.run p events)
      (Page.run p' (filter (fun e => negb (Page.is_cancellation e)) events)).
Proof.
  induction events as [|e events IH]; intros p p' F S; [exact S|].
  cbn [Page.run fold_left filter].
  destruct (Page.is_cancellation e) eqn:C; cbn [negb].
  - apply IH; [now apply step_signal_free|].
    now apply cancellation_keeps_progress.
  - cbn [fold_left]. apply IH; [now apply step_signal_free|].
    destruct e as [| |r]; try discriminate C.
    now apply settle_keeps_progress.
Qed.

Lemma run_app (p : Page.State) (a b : list Page.Event) :
  Page.run p (a ++ b) = Page.run (Page.run p a) b.
Proof. apply fold_left_app. Qed.

Lemma run_cons (p : Page.State) (e : Page.Event) (events : list Page.Event) :
  Page.run p (e :: events) = Page.run (Page.step p e) events.
Proof. reflexivity. Qed.

Lemma run_signal_free (events : list Page.Event) :
  forall p, Page.signal_free p -> Page.signal_free (Page.run p events).
Proof.
  induction events as [|e events IH]; intros p F; [exact F|].
  apply IH. now apply step_signal_free.
Qed.

(** Once the loop has ended no event starts it again. *)
Lemma run_idle (events : list Page.Event) :
  forall p, Page.task p = None -> Page.task (Page.run p events) = None.
Proof.
  induction events as [|e events IH]; intros p T; [exact T|].
  cbn [Page.run fold_left]. apply IH.
  destruct e as [| |r]; cbn [Page.step Page.task].
  - destruct (Page.controller p) as [c|]; [|exact T].
    unfold Page.abort. now rewrite T.
  - exact T.
  - unfold Page.settle. now rewrite T.
Qed.

(** An answer moves two pages with the same suspended call the same way:
    both go on with the same call and their contents as they were, or
    both end and show the same outcome. *)
Lemma settle_same_task (p p' : Page.State) (r : FetchResult) :
  Page.task p = Page.task p' ->
  Page.task (Page.settle p r) = Page.task (Page.settle p' r)
  /\ match Page.task p, Page.task (Page.settle p r) with
     | Some _, None =>
         exists o, Page.downloadResults (Page.settle p r) = Page.Shown o
                   /\ Page.downloadResults (Page.settle p' r) = Page.Shown o
     | _, _ =>
         Page.downloadResults (Page.settle p r) = Page.downloadResults p
         /\ Page.downloadResults (Page.settle p' r) = Page.downloadResults p'
     end.
Proof.
  intros T. unfold Page.settle. rewrite <- T.
  destruct (Page.task p) as [t|] eqn:Tp; [|rewrite Tp, <- T; now split].
  destruct (bind _ _ _) as [[[]|rd|e] locals]; cbn [Page.task].
  - unfold Page.advance. destruct (Page.t_rest t) as [|[d w] rest];
      cbn [Page.task Page.downloadResults].
    + split; [reflexivity|]. eexists. now split.
    + split; [reflexivity|]. now split.
  - split; [reflexivity|]. eexists. now split.
  - split; [reflexivity|]. eexists. now split.
Qed.

(** While nothing closes the modal, a page run with cancellations and one
    run without them, started with the same suspended call, keep the same
    call; when the loop ends on the way both show its outcome, otherwise
    each keeps the content it had. *)
Lemma run_without_closing (events : list Page.Event) :
  forall p p',
    Page.signal_free p -> Page.task p = Page.task p' ->
    ~ In Page.HideDownloadModal events ->
    let q := Page.run p events in
    let q' := Page.run p' (filter (fun e => negb (Page.is_cancellation e))
                                  events) in
    Page.task q = Page.task q'
    /\ match Page.task p, Page.task q with
       | Some _, None =>
           exists o, Page.downloadResults q = Page.Shown o
                     /\ Page.downloadResults q' = Page.Shown o
       | _, _ =>
           Page.downloadResults q = Page.downloadResults p
           /\ Page.downloadResults q' = Page.downloadResults p'
       end.
Proof.
  induction events as [|e events IH]; intros p p' F T N q q'.
  - unfold q, q'. cbn [Page.run fold_left filter]. split; [exact T|].
    destruct (Page.task p); now split.
  - assert (~ In Page.HideDownloadModal events) as N'
      by (intros H; apply N; now right).
    destruct e as [| |r].
    + unfold q, q'. cbn [filter Page.is_cancellation negb].
      rewrite run_cons.
      set (p1 := Page.step p Page.StateReset).
      assert (Page.task p1 = Page.task p
              /\ Page.downloadResults p1 = Page.downloadResults p) as [T1 D1].
      { unfold p1. cbn [Page.step].
        destruct (Page.controller p) as [c|];
          [rewrite (abort_signal_free c p F)|]; now split. }
      destruct (IH p1 p' (step_signal_free _ _ F) (eq_trans T1 T) N')
        as [Tq Dq].
      split; [exact Tq|]. now rewrite T1, D1 in Dq.
    + exfalso. apply N. now left.
    + unfold q, q'. cbn [filter Page.is_cancellation negb].
      rewrite !run_cons.
      change (Page.step p (Page.FetchSettled r)) with (Page.settle p r).
      change (Page.step p' (Page.FetchSettled r)) with (Page.settle p' r).
      destruct (settle_same_task p p' r T) as [T1 D1].
      destruct (IH (Page.settle p r) (Page.settle p' r)
                  (settle_signal_free _ _ F) T1 N') as [Tq Dq].
      split; [exact Tq|].
      destruct (Page.task p) as [t|] eqn:Tp.
      * destruct (Page.task (Page.settle p r)) as [t1|] eqn:T1p.
        -- destruct D1 as [D1 D1'].
           destruct (Page.task (Page.run (Page.settle p r) events));
             [now rewrite D1, D1' in Dq | exact Dq].
        -- rewrite (run_idle events _ T1p) in *.
           destruct D1 as (o & D1 & D1'). destruct Dq as [Dq Dq'].
           exists o. now rewrite Dq, Dq'.
      * assert (Page.settle p r = p) as Ep
          by (unfold Page.settle; now rewrite Tp).
        assert (Page.settle p' r = p') as Ep'
          by (unfold Page.settle; now rewrite <- T).
        rewrite Ep, Ep', Tp in *. exact Dq.
Qed.

Lemma start_undisturbed (devicePixelRatio : Q) (appId sdkVersion : Z)
    (options : DensityOption) :
  undisturbed (Page.start devicePixelRatio appId sdkVersion options).
Proof.
  unfold Page.start. rewrite candidates_closed_form. reflexivity.
Qed.

Lemma answers_undisturbed (events : list Page.Event) :
  forall p,
    undisturbed p ->
    undisturbed
      (Page.run p (filter (fun e => negb (Page.is_cancellation e)) events)).
Proof.
  induction events as [|e events IH]; intros p U; [exact U|].
  cbn [filter]. destruct e as [| |r]; cbn [Page.is_cancellation negb];
    try now apply IH.
  cbn [Page.run fold_left]. apply IH.
  cbn [Page.step]. unfold undisturbed, Page.settle in *.
  destruct (Page.task p) as [t|] eqn:Tp; [|now rewrite Tp].
  destruct (bind _ _ _) as [[[]|rd|e] locals]; cbn [Page.task];
    try (eexists; reflexivity).
  unfold Page.advance. destruct (Page.t_rest t) as [|[d w] rest];
    cbn [Page.task Page.downloadResults]; [eexists; reflexivity | exact U].
Qed.

(** C9, as the code has it. [requestDownloadLink] creates its fetch without
    a signal and the loop never looks at [state.controller], so neither
    [state.reset()] nor closing the modal reaches a running [downloadApp]:
    cancellation is not supported. With or without these events the same
    requests go out and the loop is at the same position. Without them
    [#downloadResults] holds the "Obtaining" text while the loop runs and
    the outcome once it has ended; with them it holds the same, except
    after the modal was closed: then it is blank until the loop ends, the
    outcome of a loop that ends after the last close is written all the
    same, and it is blank for good only when the last close came after
    the end of the loop. *)
Theorem cancellation_does_not_reach_resolution (devicePixelRatio : Q)
    (appId sdkVersion : Z) (options : DensityOption)
    (events : list Page.Event) :
  let p0 := Page.start devicePixelRatio appId sdkVersion options in
  let q := Page.run p0 events in
  let q' := Page.run p0 (filter (fun e => negb (Page.is_cancellation e))
                                events) in
  Page.wire q = Page.wire q'
  /\ Page.task q = Page.task q'
  /\ (Page.downloadResults q = Page.downloadResults q'
      \/ Page.downloadResults q = Page.Blank)
  /\ match Page.task q with
     | Some _ => Page.downloadResults q' = Page.Obtaining
     | None => exists o, Page.downloadResults q' = Page.Shown o
     end
  /\ (~ In Page.HideDownloadModal events ->
      Page.downloadResults q = Page.downloadResults q')
  /\ (forall pre post,
        events = pre ++ Page.HideDownloadModal :: post ->
        ~ In Page.HideDownloadModal post ->
        Page.downloadResults q
        = match Page.task (Page.run p0 pre), Page.task q with
          | Some _, None => Page.downloadResults q'
          | _, _ => Page.Blank
          end).
Proof.
  intros p0 q q'.
  pose proof (start_signal_free devicePixelRatio appId sdkVersion options)
    as F0. fold p0 in F0.
  assert (same_progress p0 p0) as S0
    by (split; [reflexivity|]; split; [reflexivity | now left]).
  destruct (run_keeps_progress events p0 p0 F0 S0) as (W & T & D).
  fold q q' in W, T, D.
  split; [exact W|]. split; [exact T|]. split; [exact D|].
  split.
  { pose proof (answers_undisturbed events p0
                  (start_undisturbed devicePixelRatio appId sdkVersion
                     options)) as U.
    fold q' in U. unfold undisturbed in U. now rewrite <- T in U. }
  split.
  { intros N.
    destruct (run_without_closing events p0 p0 F0 eq_refl N) as [_ R].
    fold q q' in R.
    destruct (Page.task p0); [destruct (Page.task q)|].
    - destruct R as [-> ->]. reflexivity.
    - destruct R as (o & -> & ->). reflexivity.
    - destruct R as [-> ->]. reflexivity. }
  intros pre post E N.
  set (p1 := Page.run p0 pre).
  set (p1' := Page.run p0 (filter (fun e => negb (Page.is_cancellation e))
                                  pre)).
  set (p2 := Page.step p1 Page.HideDownloadModal).
  assert (q = Page.run p2 post) as Eq.
  { unfold q, p2, p1. rewrite E, run_app. reflexivity. }
  assert (q' = Page.run p1' (filter (fun e => negb (Page.is_cancellation e))
                                    post)) as Eq'.
  { unfold q', p1'. rewrite E, filter_app, run_app. reflexivity. }
  destruct (run_keeps_progress pre p0 p0 F0 S0) as (_ & T1 & _).
  fold p1 p1' in T1.
  assert (Page.signal_free p2) as F2.
  { unfold p2. apply step_signal_free. unfold p1. now apply run_signal_free. }
  destruct (run_without_closing post p2 p1' F2 T1 N) as [_ R].
  rewrite <- Eq, <- Eq' in R.
  change (Page.task p2) with (Page.task p1) in R.
  change (Page.downloadResults p2) with Page.Blank in R.
  destruct (Page.task p1); [destruct (Page.task q)|].
  - now destruct R as [-> _].
  - destruct R as (o & -> & ->). reflexivity.
  - now destruct R as [-> _].
Qed.

(** C9, as the specification has it, fails on an example: the first answer
    is empty, then the user starts a new search and closes the modal. The
    second trial stays in flight, the third is requested when the second
    is answered, and its artifacts are rendered into the closed modal. *)
Lemma cancellation_not_respected :
  let p := Page.run (Page.start 1 7 21 NotGiven) Sample.cancelled_after_first in
  let q := Page.run p Sample.later_answers in
  Page.wire p = map (Spec.request_of 7 21) [(240, false); (240, true)]
  /\ Page.downloadResults p = Page.Blank
  /\ Page.wire q
     = map (Spec.request_of 7 21) [(240, false); (240, true); (480, false)]
  /\ Page.downloadResults q
     = Page.Shown (Success (renderDownloadLinks 7 Sample.found
                              (Spec.profile_of (480, false))))
  /\ ~ Spec.cancellation_respected p Sample.later_answers.
Proof.
  intros p q.
  assert (Page.wire p = map (Spec.request_of 7 21) [(240, false); (240, true)])
    as Wp by reflexivity.
  assert (Page.wire q
          = map (Spec.request_of 7 21)
                [(240, false); (240, true); (480, false)])
    as Wq by reflexivity.
  split; [exact Wp|]. split; [reflexivity|]. split; [exact Wq|].
  split; [reflexivity|].
  intros [W _]. fold q in W. rewrite Wp, Wq in W.
  apply (f_equal (@List.length Request)) in W. discriminate W.
Qed.

(** ** The theorems at sample inputs *)

Lemma first_profile_with_artifacts_wins_witness :
  downloadApp Sample.only_160_without_splits 1 7 21 NotGiven
  = (Success (renderDownloadLinks 7 Sample.found (Spec.profile_of (160, true))),
     map (Spec.request_of 7 21)
         ([(240, false); (240, true); (480, false); (480, true);
           (320, false); (320, true); (160, false)] ++ [(160, true)])).
Proof.
  apply (first_profile_with_artifacts_wins
           Sample.only_160_without_splits 1 7 21 NotGiven
           [(240, false); (240, true); (480, false); (480, true);
            (320, false); (320, true); (160, false)]
           [(0, false); (0, true)] (160, true) Sample.found).
  - reflexivity.
  - repeat (apply Forall_cons;
            [exists Sample.empty; split; reflexivity|]).
    apply Forall_nil.
  - reflexivity.
  - discriminate.
Defined.

Lemma error_status_aborts_witness :
  exists message,
    downloadApp Sample.always_refused 1 7 21 NotGiven
    = (Failure message, map (Spec.request_of 7 21) ([] ++ [(240, false)])).
Proof.
  apply (error_status_aborts Sample.always_refused 1 7 21 NotGiven
           [] [(240, true); (480, false); (480, true); (320, false);
               (320, true); (160, false); (160, true); (0, false); (0, true)]
           (240, false)).
  - reflexivity.
  - apply Forall_nil.
  - reflexivity.
Defined.

Lemma exhaustion_carries_last_attempt_witness :
  exists init p data,
    Spec.trial_list (densityCandidates_of (requestedDensity_of (Finite 0) 1))
    = init ++ [p]
    /\ Spec.ok_data (Sample.always_empty (Spec.request_of 7 21 p)) = Some data
    /\ downloadUrls_of data = []
    /\ downloadApp Sample.always_empty 1 7 21 (Finite 0)
       = (EmptyAfterExhaustion (Some data),
          map (Spec.request_of 7 21)
              (Spec.trial_list
                 (densityCandidates_of (requestedDensity_of (Finite 0) 1))))
    /\ (forall message,
          fst (downloadApp Sample.always_empty 1 7 21 (Finite 0))
          <> Failure message).
Proof.
  apply (exhaustion_carries_last_attempt Sample.always_empty 1 7 21 (Finite 0)).
  repeat (apply Forall_cons;
          [exists Sample.empty; split; reflexivity|]).
  apply Forall_nil.
Defined.

Lemma density_sequence_deduplicated_witness :
  hd_error (densityCandidates_of (requestedDensity_of (Finite 320) 1))
  = Some 320
  /\ last (densityCandidates_of (requestedDensity_of (Finite 320) 1)) 1 = 0.
Proof.
  destruct (density_sequence_deduplicated (Finite 320) 1)
    as (_ & _ & H & _ & L).
  split.
  - apply H. reflexivity.
  - apply L. discriminate.
Defined.

Lemma base_is_first_largest_url_entry_witness :
  exists before u after e,
    downloadUrls_of Sample.found = before ++ u :: after
    /\ Spec.has_url u = true
    /\ (forall v, In v before -> Spec.has_url v = true ->
                  Spec.size_of v < Spec.size_of u)
    /\ (forall v, In v after -> Spec.has_url v = true ->
                  Spec.size_of v <= Spec.size_of u)
    /\ filter is_base_role (buildDownloadPlan 7 Sample.found) = [e]
    /\ role e = base
    /\ item e = to_item u (List.length before).
Proof.
  apply (base_is_first_largest_url_entry 7 Sample.found).
  exists (Sample.artifact (Some "https://cdn/b.apk") (Some 9) None).
  split.
  - right. right. left. reflexivity.
  - reflexivity.
Defined.

Lemma filename_follows_pattern_witness :
  exists u,
    nth_error (downloadUrls_of Sample.found) 3 = Some u
    /\ "rustore_7_42_config2_zz.apk"%string
       = Spec.filename_pattern 7 (Spec.versionCode_of Sample.found) config
           2 (raw_hash u).
Proof.
  apply (filename_follows_pattern 7 Sample.found
           (firstn 2 (buildDownloadPlan 7 Sample.found)) []
           {| item := to_item (Sample.artifact (Some "https://cdn/c.apk")
                                 (Some 9) (Some "zz")) 3;
              role := config;
              filename := "rustore_7_42_config2_zz.apk" |}).
  reflexivity.
Defined.

Lemma export_texts_determined_by_plan_witness :
  copyLinksText (renderDownloadLinks 7 Sample.found Sample.meta_240)
  = copyLinksText (renderDownloadLinks 7 Sample.found_resigned Sample.meta_480)
  /\ pwshScript (renderDownloadLinks 7 Sample.found Sample.meta_240)
     = pwshScript (renderDownloadLinks 7 Sample.found_resigned Sample.meta_480)
  /\ curlScript (renderDownloadLinks 7 Sample.found Sample.meta_240)
     = curlScript (renderDownloadLinks 7 Sample.found_resigned Sample.meta_480).
Proof.
  apply (export_texts_determined_by_plan
           7 7 Sample.found Sample.found_resigned
           Sample.meta_240 Sample.meta_480).
  reflexivity.
Defined.

Lemma cancellation_does_not_reach_resolution_witness :
  Page.downloadResults
    (Page.run (Page.start 1 7 21 NotGiven) Sample.cancelled_run)
  = Page.downloadResults
      (Page.run (Page.start 1 7 21 NotGiven)
         (filter (fun e => negb (Page.is_cancellation e))
                 Sample.cancelled_run)).
Proof.
  assert (~ In Page.HideDownloadModal Sample.later_answers) as N.
  { intros [E | [E | []]]; discriminate E. }
  destruct (cancellation_does_not_reach_resolution
              1 7 21 NotGiven Sample.cancelled_run)
    as (_ & _ & _ & _ & _ & H).
  exact (H [Page.FetchSettled (Responded 200 (Parsed Sample.empty));
            Page.StateReset]
           Sample.later_answers eq_refl N).
Defined.

(** * Further properties of the code *)

(** ** Every run of the trial loop *)

Lemma answer_cases (r : FetchResult) :
  Spec.empty_answer r
  \/ (exists data, Spec.ok_data r = Some data /\ downloadUrls_of data <> [])
  \/ Spec.error_status r.
Proof.
  unfold Spec.empty_answer, Spec.error_status.
  destruct (Spec.ok_data r) as [data|]; [|now right; right].
  destruct (downloadUrls_of data) eqn:U.
  - left. now exists data.
  - right. left. exists data. split; [reflexivity|]. rewrite U. discriminate.
Qed.

(** A trial list is all empty answers, or has a first trial whose answer
    is not. *)
Lemma first_not_empty (svc : Service) (appId sdkVersion : Z)
    (trials : list (Z * bool)) :
  Forall (fun q =>
            Spec.empty_answer (svc (Spec.request_of appId sdkVersion q)))
         trials
  \/ exists pre p post,
       trials = pre ++ p :: post
       /\ Forall (fun q =>
                    Spec.empty_answer
                      (svc (Spec.request_of appId sdkVersion q))) pre
       /\ ((exists data,
              Spec.ok_data (svc (Spec.request_of appId sdkVersion p))
              = Some data
              /\ downloadUrls_of data <> [])
           \/ Spec.error_status (svc (Spec.request_of appId sdkVersion p))).
Proof.
  induction trials as [|q r IH]; [left; constructor|].
  destruct (answer_cases (svc (Spec.request_of appId sdkVersion q)))
    as [E | N].
  - destruct IH as [A | (pre & p & post & -> & A & N)].
    + left. now constructor.
    + right. exists (q :: pre), p, post. split; [reflexivity|].
      split; [now constructor | exact N].
  - right. exists [], q, r. split; [reflexivity|]. split; [constructor|].
    exact N.
Qed.

Lemma trial_error_text (svc : Service) (appId sdkVersion : Z)
    (p : Z * bool) (s : LoopState) :
  Spec.error_status (svc (Spec.request_of appId sdkVersion p)) ->
  trial_at svc appId sdkVersion p s
  = (Thrown (thrown_text (svc (Spec.request_of appId sdkVersion p))),
     {| lastData := lastData s; lastMeta := lastMeta s;
        sent := sent s ++ [Spec.request_of appId sdkVersion p] |}).
Proof.
  intros Herr.
  unfold trial_at, trial, requestDownloadLink, fetch, bind, send, ret.
  unfold Spec.error_status, Spec.request_of, Spec.ok_data, thrown_text in *.
  destruct (svc (request_body appId sdkVersion (snd p) (fst p)))
    as [m | status [d | | m]]; unfold handle_response, status_ok, throw in *.
  - reflexivity.
  - destruct ((200 <=? status) && (status <=? 299)); cbn [negb];
      [|reflexivity].
    unfold ret, examine, code_not_OK, throw.
    destruct (data_code d) as [c|]; [|reflexivity].
    destruct (String.eqb c "OK"); [discriminate Herr|]. reflexivity.
  - destruct ((200 <=? status) && (status <=? 299)); reflexivity.
  - destruct ((200 <=? status) && (status <=? 299)); reflexivity.
Qed.

(** How [downloadApp] ends, read from the answers along the trial list. *)
Lemma downloadApp_cases (svc : Service) (devicePixelRatio : Q)
    (appId sdkVersion : Z) (options : DensityOption) :
  let trials :=
    Spec.trial_list
      (densityCandidates_of (requestedDensity_of options devicePixelRatio)) in
  let answer q := svc (Spec.request_of appId sdkVersion q) in
  let run := downloadApp svc devicePixelRatio appId sdkVersion options in
  (exists pre p post data,
      trials = pre ++ p :: post
      /\ Forall (fun q => Spec.empty_answer (answer q)) pre
      /\ Spec.ok_data (answer p) = Some data
      /\ downloadUrls_of data <> []
      /\ run = (Success (renderDownloadLinks appId data (Spec.profile_of p)),
                map (Spec.request_of appId sdkVersion) (pre ++ [p])))
  \/ (exists pre p post,
        trials = pre ++ p :: post
        /\ Forall (fun q => Spec.empty_answer (answer q)) pre
        /\ Spec.error_status (answer p)
        /\ run = (Failure (shown_error (thrown_text (answer p))),
                  map (Spec.request_of appId sdkVersion) (pre ++ [p])))
  \/ (Forall (fun q => Spec.empty_answer (answer q)) trials
      /\ exists init p data,
           trials = init ++ [p]
           /\ Spec.ok_data (answer p) = Some data
           /\ downloadUrls_of data = []
           /\ run = (EmptyAfterExhaustion (Some data),
                     map (Spec.request_of appId sdkVersion) trials)).
Proof.
  intros trials answer run. unfold run.
  rewrite downloadApp_unfold. cbv zeta. fold trials.
  set (s0 := {| lastData := None;
                lastMeta := {| screenDensity :=
                                 requestedDensity_of options devicePixelRatio;
                               withoutSplitsUsed := false |};
                sent := [] |}).
  destruct (first_not_empty svc appId sdkVersion trials)
    as [A | (pre & p & post & E & A & [(data & Hok & Hsome) | Herr])].
  - right. right. split; [exact A|].
    destruct (trial_list_last
                (densityCandidates_of
                   (requestedDensity_of options devicePixelRatio)))
      as (init & d & E & _).
    { rewrite candidates_closed_form. discriminate. }
    fold trials in E.
    destruct (loop_over_empty svc appId sdkVersion trials A [] s0)
      as (s' & Hrun & Hsent & _ & Hlast).
    destruct (Hlast _ _ E) as (data & Hok & Hempty & Hdata).
    exists init, (d, true), data.
    split; [exact E|]. split; [exact Hok|]. split; [exact Hempty|].
    rewrite app_nil_r in Hrun. rewrite Hrun. cbn [for_of]. unfold ret.
    now rewrite Hdata, Hsent.
  - left. exists pre, p, post, data.
    split; [exact E|]. split; [exact A|]. split; [exact Hok|].
    split; [exact Hsome|].
    rewrite E.
    destruct (loop_over_empty svc appId sdkVersion pre A (p :: post) s0)
      as (s' & -> & Hsent & _).
    cbn [for_of]. unfold bind at 1.
    rewrite (trial_on_artifacts svc appId sdkVersion p s' data Hok Hsome).
    cbn [sent]. now rewrite Hsent, map_app.
  - right. left. exists pre, p, post.
    split; [exact E|]. split; [exact A|]. split; [exact Herr|].
    rewrite E.
    destruct (loop_over_empty svc appId sdkVersion pre A (p :: post) s0)
      as (s' & -> & Hsent & _).
    cbn [for_of]. unfold bind at 1.
    rewrite (trial_error_text svc appId sdkVersion p s' Herr).
    cbn [sent]. now rewrite Hsent, map_app.
Qed.

Lemma In_trial_list (densities : list Z) (d : Z) (w : bool) :
  In (d, w) (Spec.trial_list densities) <-> In d densities.
Proof.
  induction densities as [|x r IH].
  - split; intros [].
  - change (Spec.trial_list (x :: r))
      with ((x, false) :: (x, true) :: Spec.trial_list r).
    cbn [In]. rewrite IH. split.
    + intros [E | [E | H]]; [left | left | right]; congruence.
    + intros [-> | H]; [|now right; right].
      destruct w; [right; left | left]; reflexivity.
Qed.

Lemma trial_list_NoDup (densities : list Z) :
  NoDup densities -> NoDup (Spec.trial_list densities).
Proof.
  induction 1 as [|x r Hx ND IH]; [constructor|].
  change (Spec.trial_list (x :: r))
    with ((x, false) :: (x, true) :: Spec.trial_list r).
  constructor.
  - intros [E | H]; [discriminate E|]. now apply In_trial_list in H.
  - constructor; [|exact IH]. intros H. now apply In_trial_list in H.
Qed.

Lemma trial_list_length (densities : list Z) :
  List.length (Spec.trial_list densities) = (2 * List.length densities)%nat.
Proof.
  induction densities as [|x r IH]; [reflexivity|].
  change (Spec.trial_list (x :: r))
    with ((x, false) :: (x, true) :: Spec.trial_list r).
  cbn [List.length]. rewrite IH. lia.
Qed.

Lemma candidates_NoDup (requested : Z) :
  NoDup (densityCandidates_of requested).
Proof.
  rewrite candidates_closed_form. constructor.
  - intros H. apply filter_In in H as [_ H]. now rewrite Z.eqb_refl in H.
  - apply NoDup_filter, ladder_NoDup.
Qed.

Lemma candidates_length_bounds (requested : Z) :
  (5 <= List.length (densityCandidates_of requested) <= 6)%nat.
Proof.
  rewrite candidates_closed_form. unfold Spec.ladder. cbn [filter].
  destruct (Z.eqb_spec 480 requested) as [<-|?]; [cbn; lia|].
  destruct (Z.eqb_spec 320 requested) as [<-|?]; [cbn; lia|].
  destruct (Z.eqb_spec 240 requested) as [<-|?]; [cbn; lia|].
  destruct (Z.eqb_spec 160 requested) as [<-|?]; [cbn; lia|].
  destruct (Z.eqb_spec 0 requested) as [<-|?]; cbn; lia.
Qed.

Lemma request_of_injective (appId sdkVersion : Z) (p q : Z * bool) :
  Spec.request_of appId sdkVersion p = Spec.request_of appId sdkVersion q ->
  p = q.
Proof.
  destruct p as [d w], q as [d' w']. unfold Spec.request_of, request_body.
  cbn [fst snd]. intros H. injection H as -> ->. reflexivity.
Qed.

Lemma map_NoDup_injective {A B} (f : A -> B) (l : list A) :
  (forall x y, f x = f y -> x = y) -> NoDup l -> NoDup (map f l).
Proof.
  intros Inj. induction 1 as [|x r Hx ND IH]; [constructor|].
  cbn [map]. constructor; [|exact IH].
  intros H. apply in_map_iff in H as (y & E & Hy).
  apply Inj in E. now subst y.
Qed.

Lemma firstn_through (A : Type) (pre post : list A) (p : A) :
  firstn (S (List.length pre)) (pre ++ p :: post) = pre ++ [p].
Proof.
  induction pre as [|x r IH]; [reflexivity|].
  cbn [List.length app]. rewrite firstn_cons. now rewrite IH.
Qed.

(** What was sent is a beginning of the trial list. *)
Lemma sent_is_a_beginning (svc : Service) (devicePixelRatio : Q)
    (appId sdkVersion : Z) (options : DensityOption) :
  let trials :=
    Spec.trial_list
      (densityCandidates_of (requestedDensity_of options devicePixelRatio)) in
  exists n,
    (1 <= n <= List.length trials)%nat
    /\ snd (downloadApp svc devicePixelRatio appId sdkVersion options)
       = map (Spec.request_of appId sdkVersion) (firstn n trials).
Proof.
  intros trials.
  destruct (downloadApp_cases svc devicePixelRatio appId sdkVersion options)
    as [(pre & p & post & data & E & _ & _ & _ & R)
       | [(pre & p & post & E & _ & _ & R)
         | (_ & init & p & data & E & _ & _ & R)]];
    fold trials in E; rewrite R; cbn [snd].
  - exists (S (List.length pre)). rewrite E, firstn_through.
    split; [|reflexivity]. rewrite length_app. cbn [List.length]. lia.
  - exists (S (List.length pre)). rewrite E, firstn_through.
    split; [|reflexivity]. rewrite length_app. cbn [List.length]. lia.
  - exists (List.length trials). rewrite firstn_all.
    split; [|reflexivity]. rewrite E, length_app. cbn [List.length]. lia.
Qed.

(** X1. Whatever the service answers, the requests [downloadApp] sends are
    a beginning of the trial list, at least one and at most twelve, no
    request twice, and the first one asks for the requested density with
    splits. *)
Theorem requests_begin_the_trial_list (svc : Service) (devicePixelRatio : Q)
    (appId sdkVersion : Z) (options : DensityOption) :
  let requested := requestedDensity_of options devicePixelRatio in
  let trials := Spec.trial_list (densityCandidates_of requested) in
  let requests :=
    snd (downloadApp svc devicePixelRatio appId sdkVersion options) in
  (exists n,
      (1 <= n <= List.length trials)%nat
      /\ requests = map (Spec.request_of appId sdkVersion) (firstn n trials))
  /\ (1 <= List.length requests <= 12)%nat
  /\ NoDup requests
  /\ hd_error requests = Some (request_body appId sdkVersion false requested).
Proof.
  intros requested trials requests.
  destruct (sent_is_a_beginning svc devicePixelRatio appId sdkVersion options)
    as (n & Hn & R).
  fold requested trials requests in Hn, R.
  assert (List.length trials <= 12)%nat as L.
  { unfold trials. rewrite trial_list_length.
    pose proof (candidates_length_bounds requested). lia. }
  split; [now exists n|].
  split. { rewrite R, length_map, length_firstn. lia. }
  split.
  { rewrite R. apply map_NoDup_injective; [apply request_of_injective|].
    assert (NoDup trials) as ND
      by (apply trial_list_NoDup, candidates_NoDup).
    rewrite <- (firstn_skipn n trials) in ND.
    now apply NoDup_app_remove_r in ND. }
  rewrite R. unfold trials. rewrite candidates_closed_form.
  destruct n as [|n]; [lia|]. reflexivity.
Qed.

Lemma shown_error_not_empty (message : string) : shown_error message <> "".
Proof. destruct message; discriminate. Qed.

(** X2. A [Success] is shown only for an answer that was received with
    success status and a non-empty [downloadUrls], after empty answers to
    all the trials before it; it is the rendering of that answer, tagged
    with the profile that was asked. An exhausted run has had an empty
    answer to every trial and always carries the last answer, never
    [null]. *)
Theorem outcome_is_justified_by_the_answers (svc : Service)
    (devicePixelRatio : Q) (appId sdkVersion : Z) (options : DensityOption) :
  let trials :=
    Spec.trial_list
      (densityCandidates_of (requestedDensity_of options devicePixelRatio)) in
  let answer q := svc (Spec.request_of appId sdkVersion q) in
  let run := downloadApp svc devicePixelRatio appId sdkVersion options in
  (forall r, fst run = Success r ->
     exists pre p post,
       trials = pre ++ p :: post
       /\ Forall (fun q => Spec.empty_answer (answer q)) pre
       /\ Spec.ok_data (answer p) = Some (shown_data r)
       /\ downloadUrls_of (shown_data r) <> []
       /\ r = renderDownloadLinks appId (shown_data r) (Spec.profile_of p)
       /\ snd run = map (Spec.request_of appId sdkVersion) (pre ++ [p]))
  /\ (forall last_answer, fst run = EmptyAfterExhaustion last_answer ->
        Forall (fun q => Spec.empty_answer (answer q)) trials
        /\ snd run = map (Spec.request_of appId sdkVersion) trials
        /\ exists init p data,
             trials = init ++ [p]
             /\ Spec.ok_data (answer p) = Some data
             /\ last_answer = Some data).
Proof.
  intros trials answer run.
  destruct (downloadApp_cases svc devicePixelRatio appId sdkVersion options)
    as [(pre & p & post & data & E & A & Hok & Hsome & R)
       | [(pre & p & post & E & A & Herr & R)
         | (A & init & p & data & E & Hok & Hempty & R)]];
    fold trials in E; fold run in R; rewrite R; cbn [fst snd]; split;
    try (intros ? H; discriminate H).
  - intros r H. injection H as <-. exists pre, p, post. cbn [shown_data].
    repeat split; assumption.
  - intros last_answer H. injection H as <-.
    split; [exact A|]. split; [reflexivity|].
    exists init, p, data. repeat split; assumption.
Qed.

(** X3. When a trial reached through empty answers has an error status,
    the text of the [Failure] is the message that trial threw: the
    rejection's message when there was no response,
    [HTTP <status>: <message>] for a status outside 2xx (the body's
    message, [Unknown error] without one or without a JSON body, and the
    message of the [TypeError] when the body is [null]), and under a 2xx
    status the message of the unparsable body or, for a code other than
    OK, the server's message or [Server returned error]. An empty message
    is replaced by [Please try again], so the text shown is never
    empty. *)
Theorem failure_text_comes_from_the_answer (svc : Service)
    (devicePixelRatio : Q) (appId sdkVersion : Z) (options : DensityOption)
    (pre post : list (Z * bool)) (p : Z * bool) :
  let answer q := svc (Spec.request_of appId sdkVersion q) in
  Spec.trial_list
    (densityCandidates_of (requestedDensity_of options devicePixelRatio))
  = pre ++ p :: post ->
  Forall (fun q => Spec.empty_answer (answer q)) pre ->
  Spec.error_status (answer p) ->
  exists text,
    downloadApp svc devicePixelRatio appId sdkVersion options
    = (Failure text, map (Spec.request_of appId sdkVersion) (pre ++ [p]))
    /\ text = Js.or_else (Some (thrown_text (answer p))) "Please try again"
    /\ text <> ""%string
    /\ match answer p with
       | Rejected message => thrown_text (answer p) = message
       | Responded status json =>
           if status_ok status then
             match json with
             | Parsed data =>
                 thrown_text (answer p)
                 = Js.or_else (data_message data) "Server returned error"
             | JsonNull =>
                 thrown_text (answer p) = "Server returned error"%string
             | Unparsable message => thrown_text (answer p) = message
             end
           else
             match json with
             | Parsed data =>
                 thrown_text (answer p)
                 = ("HTTP " ++ Js.string_of_Z status ++ ": "
                      ++ Js.or_else (data_message data) "Unknown error")%string
             | JsonNull =>
                 thrown_text (answer p) = Js.cannot_read_null "message"
             | Unparsable _ =>
                 thrown_text (answer p)
                 = ("HTTP " ++ Js.string_of_Z status
                      ++ ": Unknown error")%string
             end
       end.
Proof.
  intros answer Htrials Hpre Herr.
  exists (shown_error (thrown_text (answer p))).
  split.
  { rewrite downloadApp_unfold. cbv zeta. rewrite Htrials.
    destruct (loop_over_empty svc appId sdkVersion pre Hpre (p :: post)
                {| lastData := None;
                   lastMeta := {| screenDensity :=
                                    requestedDensity_of options
                                      devicePixelRatio;
                                  withoutSplitsUsed := false |};
                   sent := [] |})
      as (s' & -> & Hsent & _).
    cbn [for_of]. unfold bind at 1.
    rewrite (trial_error_text svc appId sdkVersion p s' Herr).
    cbn [sent]. now rewrite Hsent, map_app. }
  split; [reflexivity|]. split; [apply shown_error_not_empty|].
  unfold thrown_text.
  destruct (answer p) as [m | status [d | | m]]; [reflexivity | ..];
    destruct (status_ok status); reflexivity.
Qed.

Lemma downloadApp_at_artifacts (svc : Service)
    (devicePixelRatio : Q) (appId sdkVersion : Z) (options : DensityOption)
    (pre post : list (Z * bool)) (p : Z * bool) (data : Data) :
  Spec.trial_list
    (densityCandidates_of (requestedDensity_of options devicePixelRatio))
  = pre ++ p :: post ->
  Forall (fun q =>
            Spec.empty_answer (svc (Spec.request_of appId sdkVersion q))) pre ->
  Spec.ok_data (svc (Spec.request_of appId sdkVersion p)) = Some data ->
  downloadUrls_of data <> [] ->
  downloadApp svc devicePixelRatio appId sdkVersion options
  = (Success (renderDownloadLinks appId data (Spec.profile_of p)),
     map (Spec.request_of appId sdkVersion) (pre ++ [p])).
Proof.
  intros Htrials Hpre Hok Hsome.
  rewrite downloadApp_unfold. cbv zeta. rewrite Htrials.
  destruct (loop_over_empty svc appId sdkVersion pre Hpre (p :: post)
              {| lastData := None;
                 lastMeta := {| screenDensity :=
                                  requestedDensity_of options devicePixelRatio;
                                withoutSplitsUsed := false |};
                 sent := [] |})
    as (s' & -> & Hsent & _).
  cbn [for_of]. unfold bind at 1.
  rewrite (trial_on_artifacts svc appId sdkVersion p s' data Hok Hsome).
  cbn [sent]. now rewrite Hsent, map_app.
Qed.

Lemma guess_is_a_bucket (devicePixelRatio : Q) :
  In (guessAndroidScreenDensity devicePixelRatio) [240; 320; 480; 640].
Proof.
  unfold guessAndroidScreenDensity.
  destruct (Qeq_bool devicePixelRatio 0);
    destruct (Qle_bool 4 _); [cbn; tauto | | cbn; tauto |];
    destruct (Qle_bool 3 _); [cbn; tauto | | cbn; tauto |];
    destruct (Qle_bool 2 _); [cbn; tauto | | cbn; tauto |];
    destruct (Qle_bool (3 # 2) _); cbn; tauto.
Qed.

Lemma candidate_of_the_page (options : DensityOption) (devicePixelRatio : Q)
    (d : Z) :
  from_the_page options ->
  In d (densityCandidates_of (requestedDensity_of options devicePixelRatio)) ->
  In d densityOptions.
Proof.
  intros U H. rewrite candidates_closed_form in H.
  destruct H as [<- | H].
  - destruct options as [|x|]; cbn [requestedDensity_of]; [|exact U|];
      pose proof (guess_is_a_bucket devicePixelRatio) as G;
      cbn in G; cbn; intuition.
  - apply filter_In in H as [H _]. cbn in H. cbn. intuition.
Qed.

Lemma option_is_selected (d : Z) :
  In d densityOptions ->
  selected_options d = [d] /\ initial_select_value d = d.
Proof.
  intros H. unfold initial_select_value. cbn in H.
  destruct H as [<- | [<- | [<- | [<- | [<- | [<- | []]]]]]];
    split; reflexivity.
Qed.

Lemma used_profile_is_a_trial (svc : Service) (devicePixelRatio : Q)
    (appId sdkVersion : Z) (options : DensityOption) (r : Rendered) :
  fst (downloadApp svc devicePixelRatio appId sdkVersion options) = Success r ->
  In (screenDensity (usedProfile r))
     (densityCandidates_of (requestedDensity_of options devicePixelRatio)).
Proof.
  intros H.
  destruct (downloadApp_cases svc devicePixelRatio appId sdkVersion options)
    as [(pre & [d w] & post & data & E & _ & _ & _ & R)
       | [(pre & p & post & E & _ & _ & R)
         | (_ & init & p & data & E & _ & _ & R)]];
    rewrite R in H; cbn [fst] in H; try discriminate H.
  injection H as <-.
  unfold renderDownloadLinks, Spec.profile_of.
  cbn [usedProfile screenDensity fst].
  apply (proj1 (In_trial_list _ d w)). cbv zeta in E. rewrite E.
  apply in_elt.
Qed.

(** X4. After a run the page itself started, the density of the profile
    that succeeded is one of the options of the density select, so exactly
    that option is rendered as selected and the select shows the density
    that was used. *)
Theorem select_shows_the_used_density (svc : Service) (devicePixelRatio : Q)
    (appId sdkVersion : Z) (options : DensityOption) (r : Rendered) :
  from_the_page options ->
  fst (downloadApp svc devicePixelRatio appId sdkVersion options) = Success r ->
  selected_options (screenDensity (usedProfile r))
  = [screenDensity (usedProfile r)]
  /\ initial_select_value (screenDensity (usedProfile r))
     = screenDensity (usedProfile r).
Proof.
  intros U H. apply option_is_selected.
  apply (candidate_of_the_page options devicePixelRatio); [exact U|].
  now apply (used_profile_is_a_trial svc _ appId sdkVersion).
Qed.

Lemma false_is_tried_before_true (densities : list Z) :
  forall pre d post,
    Spec.trial_list densities = pre ++ (d, true) :: post ->
    In (d, false) pre.
Proof.
  induction densities as [|x r IH]; intros pre d post H.
  - destruct pre; discriminate H.
  - change (Spec.trial_list (x :: r))
      with ((x, false) :: (x, true) :: Spec.trial_list r) in H.
    destruct pre as [|a pre]; [discriminate H|].
    injection H as <- H.
    destruct pre as [|b pre].
    + injection H as <- _. now left.
    + injection H as <- H. right. right. exact (IH _ _ _ H).
Qed.

(** X5. Retry with the select left as rendered (or missing) asks again for
    the density that succeeded: with a service that answers a request the
    same way each time, it shows the same result again, after one request
    when the result came with splits and two when it came without,
    whatever the device's pixel ratio is by then. *)
Theorem retry_reproduces_the_result (svc : Service)
    (devicePixelRatio devicePixelRatio' : Q) (appId sdkVersion : Z)
    (options : DensityOption) (r : Rendered) (select : option Z) :
  from_the_page options ->
  fst (downloadApp svc devicePixelRatio appId sdkVersion options) = Success r ->
  select = None
  \/ select = Some (initial_select_value (screenDensity (usedProfile r))) ->
  let again :=
    retryDownload svc devicePixelRatio' appId sdkVersion select r in
  fst again = Success r
  /\ List.length (snd again)
     = if withoutSplitsUsed (usedProfile r) then 2%nat else 1%nat.
Proof.
  intros U H Hsel again.
  assert (again
          = downloadApp svc devicePixelRatio' appId sdkVersion
              (Finite (screenDensity (usedProfile r)))) as ->.
  { unfold again, retryDownload. destruct Hsel as [-> | ->]; [reflexivity|].
    f_equal. f_equal. apply option_is_selected.
    apply (candidate_of_the_page options devicePixelRatio); [exact U|].
    now apply (used_profile_is_a_trial svc _ appId sdkVersion). }
  destruct (downloadApp_cases svc devicePixelRatio appId sdkVersion options)
    as [(pre & [d w] & post & data & E & A & Hok & Hsome & R)
       | [(pre & p & post & E & _ & _ & R)
         | (_ & init & p & data & E & _ & _ & R)]];
    rewrite R in H; cbn [fst] in H; try discriminate H.
  injection H as <-.
  unfold renderDownloadLinks at 1 2 3, Spec.profile_of at 1 2 3.
  cbn [usedProfile screenDensity withoutSplitsUsed fst snd].
  set (rest := Spec.trial_list
                 (filter (fun x => negb (x =? d)) Spec.ladder)).
  assert (Spec.trial_list
            (densityCandidates_of (requestedDensity_of (Finite d)
                                     devicePixelRatio'))
          = (d, false) :: (d, true) :: rest) as T.
  { cbn [requestedDensity_of]. now rewrite candidates_closed_form. }
  destruct w.
  - assert (Spec.empty_answer
              (svc (Spec.request_of appId sdkVersion (d, false))))
      as Hfalse.
    { cbv zeta in E. apply false_is_tried_before_true in E.
      rewrite Forall_forall in A. exact (A _ E). }
    assert (Forall (fun q =>
                      Spec.empty_answer
                        (svc (Spec.request_of appId sdkVersion q)))
                   [(d, false)]) as F
      by (constructor; [exact Hfalse | constructor]).
    rewrite (downloadApp_at_artifacts svc devicePixelRatio' appId sdkVersion
               (Finite d) [(d, false)] rest (d, true) data T F Hok Hsome).
    split; reflexivity.
  - rewrite (downloadApp_at_artifacts svc devicePixelRatio' appId sdkVersion
               (Finite d) [] ((d, true) :: rest) (d, false) data T
               (Forall_nil _) Hok Hsome).
    split; reflexivity.
Qed.

Lemma no_url_no_item (urls : list RawArtifact) :
  Forall (fun u => Spec.has_url u = false) urls ->
  forall i, filter (fun x => Js.truthy (url x)) (index_from i urls) = [].
Proof.
  induction 1 as [|u r Hu _ IH]; intros i; [reflexivity|].
  cbn [index_from filter]. unfold to_item at 1. cbn [url].
  rewrite truthy_has_url, Hu. apply IH.
Qed.

Lemma no_url_no_link (urls : list RawArtifact) :
  Forall (fun u => Spec.has_url u = false) urls -> allLinks_of urls = [].
Proof.
  intros H. rewrite allLinks_input_order.
  replace (filter Spec.has_url urls) with (@nil RawArtifact); [reflexivity|].
  symmetry. induction H as [|u r Hu _ IH]; [reflexivity|].
  cbn [filter]. now rewrite Hu.
Qed.

(** X6. The loop stops at the first answer whose [downloadUrls] is not
    empty even when its entries, all of them objects as the response
    schema has them, have no URL: the outcome is a [Success] with an empty
    plan and no link, it is not a split set, the link list is the empty
    text, and the remaining profiles are not tried. *)
Theorem entries_without_url_end_the_search (svc : Service)
    (devicePixelRatio : Q) (appId sdkVersion : Z) (options : DensityOption)
    (pre post : list (Z * bool)) (p : Z * bool) (data : Data) :
  Spec.trial_list
    (densityCandidates_of (requestedDensity_of options devicePixelRatio))
  = pre ++ p :: post ->
  Forall (fun q =>
            Spec.empty_answer (svc (Spec.request_of appId sdkVersion q))) pre ->
  Spec.ok_data (svc (Spec.request_of appId sdkVersion p)) = Some data ->
  downloadUrls_of data <> [] ->
  Forall (fun u => Spec.has_url u = false) (downloadUrls_of data) ->
  exists r,
    downloadApp svc devicePixelRatio appId sdkVersion options
    = (Success r, map (Spec.request_of appId sdkVersion) (pre ++ [p]))
    /\ plan r = []
    /\ allLinks r = []
    /\ isSplitSet r = false
    /\ copyLinksText r = ""%string.
Proof.
  intros T A Hok Hsome Hno.
  rewrite (downloadApp_at_artifacts svc devicePixelRatio appId sdkVersion
             options pre post p data T A Hok Hsome).
  eexists. split; [reflexivity|].
  unfold copyLinksText, renderDownloadLinks.
  cbn [plan allLinks isSplitSet].
  rewrite (no_url_no_link _ Hno).
  unfold buildDownloadPlan, items_of. rewrite (no_url_no_item _ Hno).
  repeat split.
Qed.

(** ** More on the download plan *)

(** X7. The plan has one entry for each entry of [downloadUrls] that has
    a URL; when it is not empty exactly one of its entries is the base and
    all the others are config entries. *)
Theorem plan_is_one_base_and_configs (appId : Z) (data : Data) :
  let plan := buildDownloadPlan appId data in
  List.length plan
  = List.length (filter Spec.has_url (downloadUrls_of data))
  /\ List.length (filter is_base_role plan) = Nat.min 1 (List.length plan)
  /\ List.length (filter is_config_role plan) = pred (List.length plan).
Proof.
  intros plan.
  assert (List.length plan = List.length (items_of (downloadUrls_of data)))
    as L.
  { unfold plan. now rewrite <- (plan_items appId data), length_map. }
  assert (List.length (filter is_base_role plan)
          = Nat.min 1 (List.length plan)) as B.
  { rewrite <- (length_map item). unfold plan at 1, buildDownloadPlan.
    rewrite base_entries_items. rewrite L. unfold baseIdx_of.
    destruct (Js.sort by_size_desc (items_of (downloadUrls_of data)))
      as [|h t] eqn:Es.
    - apply sort_nil in Es. rewrite Es. reflexivity.
    - assert (In h (items_of (downloadUrls_of data))) as Hin.
      { eapply Permutation_in; [apply sort_Permutation|].
        rewrite Es. now left. }
      pose proof (one_item_per_idx (items_of (downloadUrls_of data)) h
                    (items_idx_NoDup _ 0) Hin) as O.
      change (is_base (Some (idx h)))
        with (fun y => Nat.eqb (idx y) (idx h)).
      rewrite O.
      destruct (items_of (downloadUrls_of data)); [contradiction|].
      reflexivity. }
  split; [rewrite L; apply items_count|]. split; [exact B|].
  pose proof (filter_length is_base_role plan) as F.
  assert (filter is_config_role plan
          = filter (fun e => negb (is_base_role e)) plan) as ->.
  { apply filter_ext. intros e. unfold is_config_role, is_base_role.
    now destruct (role e). }
  lia.
Qed.

(** ** Safe file names *)

Lemma all_chars_app (test : ascii -> bool) (a b : string) :
  all_chars test (a ++ b)%string = all_chars test a && all_chars test b.
Proof.
  induction a as [|c a IH]; [reflexivity|].
  cbn [append all_chars]. rewrite IH. now rewrite andb_assoc.
Qed.

Lemma all_chars_weaken (test test' : ascii -> bool) (s : string) :
  (forall c, test c = true -> test' c = true) ->
  all_chars test s = true -> all_chars test' s = true.
Proof.
  intros W. induction s as [|c s IH]; [reflexivity|].
  cbn [all_chars]. intros H. apply andb_prop in H as [Hc Hs].
  now rewrite (W _ Hc), IH.
Qed.

Lemma uint_text_digits (d : Decimal.uint) :
  all_chars (Js.in_range "0" "9") (NilEmpty.string_of_uint d) = true.
Proof. induction d; cbn; auto. Qed.

Lemma string_of_Z_chars (z : Z) :
  all_chars filename_char (Js.string_of_Z z) = true.
Proof.
  assert (forall d, all_chars filename_char (NilEmpty.string_of_uint d) = true)
    as D.
  { intros d. apply (all_chars_weaken (Js.in_range "0" "9"));
      [|apply uint_text_digits].
    intros c H. unfold filename_char, Js.is_alnum. rewrite H.
    now rewrite !orb_true_r. }
  assert (forall d, all_chars filename_char (NilZero.string_of_uint d) = true)
    as D0.
  { intros d. unfold NilZero.string_of_uint. destruct d; try apply D.
    reflexivity. }
  unfold Js.string_of_Z, NilZero.string_of_int.
  destruct (Z.to_int z) as [d|d]; [apply D0|].
  cbn [all_chars]. now rewrite D0.
Qed.

Lemma string_of_nat_chars (n : nat) :
  all_chars filename_char (Js.string_of_nat n) = true.
Proof.
  rewrite string_of_nat_NilEmpty.
  apply (all_chars_weaken (Js.in_range "0" "9")); [|apply uint_text_digits].
  intros c H. unfold filename_char, Js.is_alnum. rewrite H.
  now rewrite !orb_true_r.
Qed.

Lemma strip_non_alnum_chars (s : string) :
  all_chars Js.is_alnum (Js.strip_non_alnum s) = true.
Proof.
  induction s as [|c s IH]; [reflexivity|].
  cbn [Js.strip_non_alnum]. destruct (Js.is_alnum c) eqn:C; [|exact IH].
  cbn [all_chars]. now rewrite C.
Qed.

Lemma slice0_chars (test : ascii -> bool) (n : nat) (s : string) :
  all_chars test s = true -> all_chars test (Js.slice0 n s) = true.
Proof.
  revert s. induction n as [|n IH]; intros [|c s] H; try reflexivity.
  cbn [Js.slice0 all_chars] in *. apply andb_prop in H as [Hc Hs].
  now rewrite Hc, IH.
Qed.

Lemma slice0_length (n : nat) (s : string) :
  (String.length (Js.slice0 n s) <= n)%nat.
Proof.
  revert s. induction n as [|n IH]; intros [|c s]; cbn; try lia.
  specialize (IH s). lia.
Qed.

Lemma slice0_short (n : nat) (s : string) :
  (String.length s <= n)%nat -> Js.slice0 n s = s.
Proof.
  revert s. induction n as [|n IH]; intros [|c s] H; cbn in *;
    try reflexivity; try lia.
  rewrite IH; [reflexivity | lia].
Qed.

Lemma strip_non_alnum_clean (s : string) :
  all_chars Js.is_alnum s = true -> Js.strip_non_alnum s = s.
Proof.
  induction s as [|c s IH]; [reflexivity|].
  cbn [all_chars Js.strip_non_alnum]. intros H.
  apply andb_prop in H as [Hc Hs]. now rewrite Hc, IH.
Qed.

Lemma safeHash_chars (i : Item) :
  all_chars Js.is_alnum (safeHash_of i) = true.
Proof. apply slice0_chars, strip_non_alnum_chars. Qed.

Lemma hash_suffix_chars (h : string) :
  all_chars Js.is_alnum h = true ->
  all_chars filename_char (hash_suffix h) = true.
Proof.
  intros H. destruct h as [|c h]; [reflexivity|].
  unfold hash_suffix. cbn [append all_chars].
  apply (all_chars_weaken _ filename_char) in H.
  - cbn [all_chars] in H. now rewrite H.
  - intros x Hx. unfold filename_char. now rewrite Hx.
Qed.

Lemma versionCode_text_chars (data : Data) :
  all_chars filename_char (versionCode_text data) = true.
Proof.
  unfold versionCode_text. destruct (data_body data) as [b|]; [|reflexivity].
  destruct (body_versionCode b); [apply string_of_Z_chars | reflexivity].
Qed.

(** Apart from the text of the version code, a file name is made of plain
    characters. *)
Lemma assign_roles_filename_chars appId vc b (items : list Item) :
  forall c e,
    In e (assign_roles appId vc b c items) ->
    all_chars filename_char (filename e) = all_chars filename_char vc.
Proof.
  induction items as [|i r IH]; intros c e H; [contradiction|].
  cbn [assign_roles] in H.
  destruct (is_base b i); destruct H as [<- | H]; try exact (IH _ _ H);
    cbn [filename]; unfold base_filename, config_filename;
    rewrite !all_chars_app, string_of_Z_chars,
      ?string_of_nat_chars, (hash_suffix_chars _ (safeHash_chars i));
    destruct (all_chars filename_char vc); reflexivity.
Qed.

(** X8. For an application id that is a safe integer, a file name is made
    of letters, digits, underscores, dots and minus signs apart from the
    version code, which is interpolated as it was served: whatever the
    hash and the URL are, the name is plain exactly when the text of the
    version code is. It is plain, with no quote, blank or slash that would
    end the quoted argument of the script line it is written into, when
    the version code is absent or a safe integer; a version code served as
    another number or as a string brings its own characters. *)
Theorem filenames_are_plain (appId : Z) :
  safe_integer appId ->
  (forall (versionCode : string) (baseIdx : option nat) (configCounter : nat)
          (items : list Item) (e : PlanEntry),
      In e (assign_roles appId versionCode baseIdx configCounter items) ->
      all_chars filename_char (filename e)
      = all_chars filename_char versionCode)
  /\ (forall (data : Data) (e : PlanEntry),
        plain_versionCode data ->
        In e (buildDownloadPlan appId data) ->
        all_chars filename_char (filename e) = true).
Proof.
  intros _. split.
  - intros versionCode baseIdx configCounter items e.
    apply assign_roles_filename_chars.
  - intros data e _ H. unfold buildDownloadPlan in H.
    rewrite (assign_roles_filename_chars _ _ _ _ _ _ H).
    apply versionCode_text_chars.
Qed.

(** X9. The hash part of a file name has at most 12 characters, all of
    them letters or digits; a served hash that already is such a text is
    used as it is. *)
Theorem safeHash_is_short_and_clean (i : Item) :
  (String.length (safeHash_of i) <= 12)%nat
  /\ all_chars Js.is_alnum (safeHash_of i) = true
  /\ (forall h, hash i = Some h ->
                all_chars Js.is_alnum h = true ->
                (String.length h <= 12)%nat ->
                safeHash_of i = h).
Proof.
  split; [apply slice0_length|]. split; [apply safeHash_chars|].
  intros h E C L. unfold safeHash_of. rewrite E.
  assert (Js.or_else (Some h) "" = h) as -> by now destruct h.
  now rewrite strip_non_alnum_clean, slice0_short.
Qed.

(** ** The guessed density *)

Lemma Qle_bool_false (x y : Q) : Qle_bool x y = false <-> (y < x)%Q.
Proof.
  split.
  - intros H. apply Qnot_le_lt. intros L.
    apply Qle_bool_iff in L. congruence.
  - intros L. destruct (Qle_bool x y) eqn:E; [|reflexivity].
    apply Qle_bool_iff in E. lra.
Qed.

(** X10. The guessed density follows the pixel ratio by buckets and is
    never below 240: 240 for a ratio under 2 (also when the ratio is
    missing or 0, which counts as 1), 320 from 2, 480 from 3 and 640 from
    4 on. *)
Theorem guess_follows_the_buckets (devicePixelRatio : Q) :
  ((devicePixelRatio < 2)%Q ->
   guessAndroidScreenDensity devicePixelRatio = 240)
  /\ ((2 <= devicePixelRatio)%Q -> (devicePixelRatio < 3)%Q ->
      guessAndroidScreenDensity devicePixelRatio = 320)
  /\ ((3 <= devicePixelRatio)%Q -> (devicePixelRatio < 4)%Q ->
      guessAndroidScreenDensity devicePixelRatio = 480)
  /\ ((4 <= devicePixelRatio)%Q ->
      guessAndroidScreenDensity devicePixelRatio = 640).
Proof.
  unfold guessAndroidScreenDensity.
  destruct (Qeq_bool devicePixelRatio 0) eqn:Z0.
  - apply Qeq_bool_iff in Z0.
    repeat split; intros; try reflexivity; lra.
  - destruct (Qle_bool 4 devicePixelRatio) eqn:L4;
      [apply Qle_bool_iff in L4 | apply Qle_bool_false in L4];
      [repeat split; intros; try reflexivity; lra|].
    destruct (Qle_bool 3 devicePixelRatio) eqn:L3;
      [apply Qle_bool_iff in L3 | apply Qle_bool_false in L3];
      [repeat split; intros; try reflexivity; lra|].
    destruct (Qle_bool 2 devicePixelRatio) eqn:L2;
      [apply Qle_bool_iff in L2 | apply Qle_bool_false in L2];
      [repeat split; intros; try reflexivity; lra|].
    destruct (Qle_bool (3 # 2) devicePixelRatio);
      repeat split; intros; try reflexivity; lra.
Qed.

(** ** Escaping *)

Lemma replace_all_app (c : ascii) (by_ a b : string) :
  Html.replace_all c by_ (a ++ b)%string
  = (Html.replace_all c by_ a ++ Html.replace_all c by_ b)%string.
Proof.
  induction a as [|x a IH]; [reflexivity|].
  cbn [append Html.replace_all]. rewrite IH.
  destruct (Ascii.eqb x c); [now rewrite append_assoc | reflexivity].
Qed.

Lemma escapeHtml_app (a b : string) :
  Html.escapeHtml (a ++ b)%string
  = (Html.escapeHtml a ++ Html.escapeHtml b)%string.
Proof. unfold Html.escapeHtml. now rewrite !replace_all_app. Qed.

Lemma escapeHtml_one (c : ascii) :
  Html.escapeHtml (String c EmptyString) = Html.escape_char c.
Proof. destruct c as [[] [] [] [] [] [] [] []]; reflexivity. Qed.

Lemma escapeHtml_cons (c : ascii) (s : string) :
  Html.escapeHtml (String c s)
  = (Html.escape_char c ++ Html.escapeHtml s)%string.
Proof.
  change (String c s) with (String c EmptyString ++ s)%string.
  now rewrite escapeHtml_app, escapeHtml_one.
Qed.

Lemma escape_char_no_markup (c : ascii) :
  all_chars (fun x => negb (Html.markup_char x)) (Html.escape_char c) = true.
Proof. destruct c as [[] [] [] [] [] [] [] []]; reflexivity. Qed.

Lemma escape_char_plain (c : ascii) :
  Html.special_char c = false -> Html.escape_char c = String c EmptyString.
Proof.
  destruct c as [[] [] [] [] [] [] [] []]; intros H; try reflexivity;
    discriminate H.
Qed.

(** X11. [escapeHtml] works character by character, although it is
    written as five replacements in a row: the escape of a concatenation
    is the concatenation of the escapes, each character becoming its own
    entity or staying as it is, so that the ampersands of the entities are
    not escaped again. The result holds no [<], [>], double or single
    quote, and a text without the five special characters is returned
    unchanged. *)
Theorem escapeHtml_is_characterwise (a b : string) :
  Html.escapeHtml (a ++ b)%string
  = (Html.escapeHtml a ++ Html.escapeHtml b)%string
  /\ (forall c, Html.escapeHtml (String c a)
                = (Html.escape_char c ++ Html.escapeHtml a)%string)
  /\ all_chars (fun x => negb (Html.markup_char x)) (Html.escapeHtml a) = true
  /\ (all_chars (fun x => negb (Html.special_char x)) a = true ->
      Html.escapeHtml a = a).
Proof.
  split; [apply escapeHtml_app|]. split; [intros c; apply escapeHtml_cons|].
  split.
  - induction a as [|c a IH]; [reflexivity|].
    now rewrite escapeHtml_cons, all_chars_app, escape_char_no_markup, IH.
  - induction a as [|c a IH]; [reflexivity|].
    cbn [all_chars]. intros H. apply andb_prop in H as [Hc Ha].
    apply negb_true_iff in Hc.
    now rewrite escapeHtml_cons, (escape_char_plain _ Hc), IH.
Qed.

Lemma escape_char_cases (c : ascii) :
  (Html.escape_char c = String c EmptyString /\ c <> "&"%char)
  \/ Html.escape_char c = "&amp;"%string /\ c = "&"%char
  \/ Html.escape_char c = "&lt;"%string /\ c = "<"%char
  \/ Html.escape_char c = "&gt;"%string /\ c = ">"%char
  \/ Html.escape_char c = "&quot;"%string /\ c = Html.quote
  \/ Html.escape_char c = "&#39;"%string /\ c = "'"%char.
Proof.
  destruct c as [[] [] [] [] [] [] [] []];
    first [ left; split; [reflexivity | discriminate]
          | right; left; split; reflexivity
          | right; right; left; split; reflexivity
          | right; right; right; left; split; reflexivity
          | right; right; right; right; left; split; reflexivity
          | right; right; right; right; right; split; reflexivity ].
Qed.

Lemma escape_char_prefix_free (c c' : ascii) (s s' : string) :
  (Html.escape_char c ++ s = Html.escape_char c' ++ s')%string ->
  c = c' /\ s = s'.
Proof.
  destruct (escape_char_cases c)
    as [[E N] | [[E ->] | [[E ->] | [[E ->] | [[E ->] | [E ->]]]]]];
    destruct (escape_char_cases c')
      as [[E' N'] | [[E' ->] | [[E' ->] | [[E' ->] | [[E' ->] | [E' ->]]]]]];
    rewrite ?E, ?E'; cbn [append]; intros H;
    try (injection H as H1 H2; subst; split; reflexivity);
    try (injection H as H1; congruence);
    try discriminate H;
    try (split; [reflexivity|]; now injection H).
Qed.

(** X12. [escapeHtml] loses nothing: two different texts are never shown
    as the same escaped text. *)
Theorem escapeHtml_is_injective (a b : string) :
  Html.escapeHtml a = Html.escapeHtml b -> a = b.
Proof.
  revert b. induction a as [|c a IH]; intros [|c' b] H.
  - reflexivity.
  - rewrite escapeHtml_cons in H.
    destruct (escape_char_cases c')
      as [[E _] | [[E _] | [[E _] | [[E _] | [[E _] | [E _]]]]]];
      rewrite E in H; discriminate H.
  - rewrite escapeHtml_cons in H.
    destruct (escape_char_cases c)
      as [[E _] | [[E _] | [[E _] | [[E _] | [[E _] | [E _]]]]]];
      rewrite E in H; discriminate H.
  - rewrite !escapeHtml_cons in H.
    apply escape_char_prefix_free in H as [-> H]. now rewrite (IH _ H).
Qed.

(** ** The image preview *)

Lemma indexOf_from_found (x : string) (l : list string) :
  In x l ->
  forall i,
    i <= Preview.indexOf_from i x l < i + Z.of_nat (List.length l)
    /\ nth_error l (Z.to_nat (Preview.indexOf_from i x l - i)) = Some x.
Proof.
  induction l as [|y r IH]; intros H i; [contradiction|].
  cbn [Preview.indexOf_from List.length].
  destruct (String.eqb_spec y x) as [->|N].
  - rewrite Z.sub_diag. split; [lia | reflexivity].
  - destruct H as [E | H]; [contradiction|].
    destruct (IH H (i + 1)) as [B E]. split; [lia|].
    replace (Z.to_nat (Preview.indexOf_from (i + 1) x r - i))
      with (S (Z.to_nat (Preview.indexOf_from (i + 1) x r - (i + 1))))
      by lia.
    exact E.
Qed.

Lemma indexOf_from_missing (x : string) (l : list string) :
  ~ In x l -> forall i, Preview.indexOf_from i x l = -1.
Proof.
  induction l as [|y r IH]; intros H i; [reflexivity|].
  cbn [Preview.indexOf_from].
  destruct (String.eqb_spec y x) as [->|N].
  - exfalso. apply H. now left.
  - apply IH. intros Hr. apply H. now right.
Qed.

Lemma navigateImage_images (d : string) (st : Preview.State) :
  Preview.images (Preview.navigateImage d st) = Preview.images st.
Proof.
  unfold Preview.navigateImage.
  destruct (_ && _); [reflexivity|]. destruct (_ && _); reflexivity.
Qed.

Lemma navigateImage_in_range (d : string) (st : Preview.State) :
  0 <= Preview.imageIndex st < Preview.count st ->
  0 <= Preview.imageIndex (Preview.navigateImage d st)
    < Preview.count (Preview.navigateImage d st).
Proof.
  intros R. unfold Preview.count. rewrite navigateImage_images.
  fold (Preview.count st). unfold Preview.navigateImage.
  destruct (String.eqb d "prev" && (0 <? Preview.imageIndex st)) eqn:P.
  - apply andb_prop in P as [_ P]. apply Z.ltb_lt in P.
    cbn [Preview.imageIndex]. lia.
  - destruct (String.eqb d "next"
              && (Preview.imageIndex st <? Preview.count st - 1)) eqn:N.
    + apply andb_prop in N as [_ N]. apply Z.ltb_lt in N.
      cbn [Preview.imageIndex]. lia.
    + exact R.
Qed.

Lemma navigate_all_in_range (directions : list string) :
  forall st,
    0 <= Preview.imageIndex st < Preview.count st ->
    Preview.images (Preview.navigate_all directions st) = Preview.images st
    /\ 0 <= Preview.imageIndex (Preview.navigate_all directions st)
         < Preview.count (Preview.navigate_all directions st).
Proof.
  induction directions as [|d r IH]; intros st R; [now split|].
  cbn [Preview.navigate_all fold_left].
  destruct (IH _ (navigateImage_in_range d st R)) as [I B].
  split; [|exact B].
  unfold Preview.navigate_all in I. now rewrite I, navigateImage_images.
Qed.

Lemma shown_image_in_range (st : Preview.State) :
  0 <= Preview.imageIndex st < Preview.count st ->
  exists u, Preview.shown_image st = Some u /\ In u (Preview.images st).
Proof.
  intros R. unfold Preview.shown_image, Preview.count in *.
  destruct (Z.ltb_spec (Preview.imageIndex st) 0) as [L|_]; [lia|].
  destruct (nth_error (Preview.images st) (Z.to_nat (Preview.imageIndex st)))
    as [u|] eqn:E.
  - exists u. split; [reflexivity|]. now apply nth_error_In in E.
  - apply nth_error_None in E. lia.
Qed.

(** X13. A preview opened on one of the card's screenshots first shows
    that screenshot, and after any sequence of previous and next
    navigations it still shows one of the card's screenshots: the index
    never leaves the list and the shown image is never undefined. *)
Theorem preview_stays_on_the_screenshots (imageUrl : string)
    (screenshots directions : list string) :
  In imageUrl screenshots ->
  let opened := Preview.openPreview imageUrl screenshots in
  let st := Preview.navigate_all directions opened in
  Preview.shown_image opened = Some imageUrl
  /\ Preview.images st = screenshots
  /\ 0 <= Preview.imageIndex st < Z.of_nat (List.length screenshots)
  /\ exists u, Preview.shown_image st = Some u /\ In u screenshots.
Proof.
  intros H opened st.
  destruct (indexOf_from_found imageUrl screenshots H 0) as [B E].
  assert (0 <= Preview.imageIndex opened < Preview.count opened) as R.
  { unfold opened, Preview.openPreview, Preview.count, Preview.indexOf.
    cbn [Preview.imageIndex Preview.images]. lia. }
  destruct (navigate_all_in_range directions opened R) as [I S].
  fold st in I, S. cbn [opened Preview.openPreview Preview.images] in I.
  split.
  { unfold Preview.shown_image, opened, Preview.openPreview, Preview.indexOf.
    cbn [Preview.imageIndex Preview.images].
    destruct (Z.ltb_spec (Preview.indexOf_from 0 imageUrl screenshots) 0)
      as [L|_]; [lia|].
    now rewrite Z.sub_0_r in E. }
  split; [exact I|]. split.
  { unfold Preview.count in S. now rewrite I in S. }
  destruct (shown_image_in_range st S) as (u & Hu & Hin).
  exists u. split; [exact Hu|]. now rewrite I in Hin.
Qed.

(** X14. The buttons and the navigation agree: a displayed button moves
    the index by one, a hidden one (or a key at the end of the list)
    leaves the state as it is, and within the list next followed by
    previous, or previous followed by next, comes back to the same
    state. *)
Theorem buttons_agree_with_navigation (st : Preview.State) :
  (Preview.prev_displayed st = true ->
   Preview.imageIndex (Preview.navigateImage "prev" st)
   = Preview.imageIndex st - 1)
  /\ (Preview.prev_displayed st = false ->
      Preview.navigateImage "prev" st = st)
  /\ (Preview.next_displayed st = true ->
      Preview.imageIndex (Preview.navigateImage "next" st)
      = Preview.imageIndex st + 1)
  /\ (Preview.next_displayed st = false ->
      Preview.navigateImage "next" st = st)
  /\ (0 <= Preview.imageIndex st -> Preview.next_displayed st = true ->
      Preview.navigateImage "prev" (Preview.navigateImage "next" st) = st)
  /\ (Preview.imageIndex st < Preview.count st ->
      Preview.prev_displayed st = true ->
      Preview.navigateImage "next" (Preview.navigateImage "prev" st) = st).
Proof.
  destruct st as [imgs i].
  unfold Preview.prev_displayed, Preview.next_displayed,
    Preview.navigateImage, Preview.count.
  cbn [Preview.imageIndex Preview.images String.eqb Ascii.eqb Bool.eqb andb].
  repeat split.
  - intros ->. reflexivity.
  - intros ->. reflexivity.
  - intros ->. reflexivity.
  - intros ->. reflexivity.
  - intros N ->. cbn [Preview.imageIndex Preview.images].
    destruct (Z.ltb_spec 0 (i + 1)) as [_|L]; [|lia].
    f_equal. lia.
  - intros N H. rewrite H. cbn [Preview.imageIndex Preview.images].
    apply Z.ltb_lt in H.
    destruct (Z.ltb_spec (i - 1) (Z.of_nat (List.length imgs) - 1))
      as [_|L]; [|lia].
    f_equal. lia.
Qed.

Lemma shown_image_listed (st : Preview.State) (u : string) :
  Preview.shown_image st = Some u -> In u (Preview.images st).
Proof.
  unfold Preview.shown_image.
  destruct (Preview.imageIndex st <? 0); [discriminate|].
  apply nth_error_In.
Qed.

(** After a navigation the displayed image is the one the state points
    at, and the list is the one the preview was opened with. *)
Lemma navigate_view_all_shown (directions : list string) :
  forall v,
    Preview.previewImage_src v = Preview.shown_image (Preview.view_state v) ->
    let w := Preview.navigate_view_all directions v in
    Preview.previewImage_src w = Preview.shown_image (Preview.view_state w)
    /\ Preview.images (Preview.view_state w)
       = Preview.images (Preview.view_state v).
Proof.
  induction directions as [|d r IH]; intros v H w; [now split|].
  unfold w. cbn [Preview.navigate_view_all fold_left].
  destruct (IH (Preview.navigate_view d v) eq_refl) as [S I].
  split; [exact S|].
  unfold Preview.navigate_view_all in I. rewrite I.
  apply navigateImage_images.
Qed.

(** X15. When the clicked image is not among the card's screenshots the
    index is -1: the clicked image is displayed, with a progress text that
    starts with 0 and the previous button hidden. The first next displays
    the first screenshot, and after any navigation the displayed image is
    one of the screenshots or undefined: the clicked image cannot be
    brought back. *)
Theorem preview_of_an_unlisted_image (imageUrl : string)
    (screenshots directions : list string) :
  ~ In imageUrl screenshots ->
  let opened := Preview.open_view imageUrl screenshots in
  let st := Preview.view_state opened in
  Preview.imageIndex st = -1
  /\ Preview.previewImage_src opened = Some imageUrl
  /\ Preview.prev_displayed st = false
  /\ Preview.progress_text st
     = ("0 / " ++ Js.string_of_Z (Z.of_nat (List.length screenshots)))%string
  /\ Preview.previewImage_src (Preview.navigate_view "next" opened)
     = hd_error screenshots
  /\ (directions <> [] ->
      Preview.previewImage_src (Preview.navigate_view_all directions opened)
      <> Some imageUrl).
Proof.
  intros H opened st.
  assert (st = {| Preview.images := screenshots; Preview.imageIndex := -1 |})
    as E.
  { unfold st, opened, Preview.open_view, Preview.openPreview, Preview.indexOf.
    cbn [Preview.view_state]. now rewrite indexOf_from_missing. }
  rewrite E.
  split; [reflexivity|]. split; [reflexivity|]. split; [reflexivity|].
  split; [reflexivity|]. split.
  - unfold Preview.navigate_view. cbn [Preview.previewImage_src].
    fold st. rewrite E.
    unfold Preview.navigateImage, Preview.count.
    cbn [Preview.imageIndex Preview.images String.eqb Ascii.eqb Bool.eqb andb].
    destruct screenshots as [|x r]; [reflexivity|].
    destruct (Z.ltb_spec (-1) (Z.of_nat (List.length (x :: r)) - 1)) as [_|L];
      [reflexivity|].
    cbn [List.length] in L. lia.
  - intros N S. destruct directions as [|d r]; [contradiction|].
    cbn [Preview.navigate_view_all fold_left] in S.
    destruct (navigate_view_all_shown r (Preview.navigate_view d opened)
                eq_refl) as [Sh I].
    unfold Preview.navigate_view_all in Sh, I. rewrite Sh in S.
    apply shown_image_listed in S. rewrite I in S.
    cbn [Preview.navigate_view Preview.view_state] in S.
    rewrite navigateImage_images in S. fold st in S. rewrite E in S.
    contradiction.
Qed.

(** ** Rating stars *)

Lemma mod1_of_nonnegative (rating : Q) :
  0 <= Qfloor rating ->
  Stars.mod1 rating = (rating - inject_Z (Qfloor rating))%Q.
Proof.
  intros H. unfold Stars.mod1, Stars.trunc.
  assert (0 <= rating)%Q as P.
  { pose proof (Qfloor_le rating) as F.
    assert (inject_Z 0 <= inject_Z (Qfloor rating))%Q as I
      by (rewrite <- Zle_Qle; exact H).
    change (inject_Z 0) with 0%Q in I. lra. }
  apply Qle_bool_iff in P. now rewrite P.
Qed.

(** X16. [createRatingStars] always lays out five stars: as many full
    ones as the whole part of the rating (none below 0, five from 5 on),
    then one half star when the rating is between 0 and 5 and its
    fractional part is at least one half, then hollow ones. *)
Theorem five_stars_in_order (rating : Q) :
  let whole := Qfloor rating in
  let a := Z.to_nat (Z.max 0 (Z.min 5 whole)) in
  let b := if (0 <=? whole) && (whole <? 5)
              && Qle_bool (1 # 2) (rating - inject_Z whole)
           then 1%nat else 0%nat in
  Stars.stars rating
  = repeat Stars.full a ++ repeat Stars.half b
      ++ repeat Stars.hollow (5 - a - b)
  /\ Stars.createRatingStars rating
     = Js.join "" (map Stars.star_html (Stars.stars rating)).
Proof.
  intros whole a b. split; [|reflexivity].
  unfold Stars.stars. cbn [map]. unfold Stars.star_at. fold whole.
  assert (whole < 0 \/ whole = 0 \/ whole = 1 \/ whole = 2 \/ whole = 3
          \/ whole = 4 \/ 5 <= whole) as C by lia.
  destruct C as [C | [C | [C | [C | [C | [C | C]]]]]].
  - unfold a, b.
    destruct (Z.leb_spec 0 whole) as [L|_]; [lia|]. cbn [andb].
    replace (Z.max 0 (Z.min 5 whole)) with 0 by lia.
    destruct (Z.ltb_spec 0 whole); [lia|].
    destruct (Z.ltb_spec 1 whole); [lia|].
    destruct (Z.ltb_spec 2 whole); [lia|].
    destruct (Z.ltb_spec 3 whole); [lia|].
    destruct (Z.ltb_spec 4 whole); [lia|].
    destruct (Z.eqb_spec 0 whole); [lia|].
    destruct (Z.eqb_spec 1 whole); [lia|].
    destruct (Z.eqb_spec 2 whole); [lia|].
    destruct (Z.eqb_spec 3 whole); [lia|].
    destruct (Z.eqb_spec 4 whole); [lia|].
    reflexivity.
  - unfold a, b. rewrite mod1_of_nonnegative by (fold whole; lia).
    fold whole. rewrite C.
    destruct (Qle_bool (1 # 2) (rating - inject_Z 0)); reflexivity.
  - unfold a, b. rewrite mod1_of_nonnegative by (fold whole; lia).
    fold whole. rewrite C.
    destruct (Qle_bool (1 # 2) (rating - inject_Z 1)); reflexivity.
  - unfold a, b. rewrite mod1_of_nonnegative by (fold whole; lia).
    fold whole. rewrite C.
    destruct (Qle_bool (1 # 2) (rating - inject_Z 2)); reflexivity.
  - unfold a, b. rewrite mod1_of_nonnegative by (fold whole; lia).
    fold whole. rewrite C.
    destruct (Qle_bool (1 # 2) (rating - inject_Z 3)); reflexivity.
  - unfold a, b. rewrite mod1_of_nonnegative by (fold whole; lia).
    fold whole. rewrite C.
    destruct (Qle_bool (1 # 2) (rating - inject_Z 4)); reflexivity.
  - unfold a, b.
    destruct (Z.ltb_spec whole 5) as [L|_]; [lia|].
    rewrite andb_false_r. cbn [andb].
    replace (Z.max 0 (Z.min 5 whole)) with 5 by lia.
    destruct (Z.ltb_spec 0 whole); [|lia].
    destruct (Z.ltb_spec 1 whole); [|lia].
    destruct (Z.ltb_spec 2 whole); [|lia].
    destruct (Z.ltb_spec 3 whole); [|lia].
    destruct (Z.ltb_spec 4 whole); [|lia].
    reflexivity.
Qed.

(** ** Android version names *)

Lemma lookup_key (sdk : Z) (table : list (Z * string)) (v : string) :
  Android.lookup sdk table = Some v -> In sdk (map fst table).
Proof.
  induction table as [|[k x] r IH]; [discriminate|].
  cbn [Android.lookup map fst]. destruct (Z.eqb_spec k sdk) as [->|_].
  - intros _. now left.
  - intros H. right. now apply IH.
Qed.

(** X17. The API levels 1 to 36 are shown by their Android version name,
    [Android] followed by a non-empty version; every other level falls
    back to [API] followed by the number. *)
Theorem android_version_or_api_level (sdk : Z) :
  (1 <= sdk <= 36 ->
   exists version,
     Android.lookup sdk Android.sdkVersions = Some version
     /\ version <> ""%string
     /\ Android.getAndroidVersion sdk = ("Android " ++ version)%string)
  /\ (sdk < 1 \/ 36 < sdk ->
      Android.getAndroidVersion sdk = ("API " ++ Js.string_of_Z sdk)%string).
Proof.
  split.
  - intros R.
    assert (forallb (fun k => Js.truthy (Android.lookup k Android.sdkVersions))
                    (map Z.of_nat (seq 1 36)) = true) as A
      by (vm_compute; reflexivity).
    rewrite forallb_forall in A.
    assert (Js.truthy (Android.lookup sdk Android.sdkVersions) = true) as T.
    { apply A. apply in_map_iff. exists (Z.to_nat sdk).
      split; [lia|]. apply in_seq. lia. }
    unfold Android.getAndroidVersion. rewrite T.
    destruct (Android.lookup sdk Android.sdkVersions) as [[|c v]|];
      try discriminate T.
    exists (String c v). split; [reflexivity|]. split; [discriminate|].
    reflexivity.
  - intros R. unfold Android.getAndroidVersion.
    destruct (Android.lookup sdk Android.sdkVersions) as [v|] eqn:E;
      [|reflexivity].
    exfalso. apply lookup_key in E.
    assert (Forall (fun k => 1 <= k <= 36) (map fst Android.sdkVersions)) as F
      by (cbn; repeat (apply Forall_cons; [lia|]); apply Forall_nil).
    rewrite Forall_forall in F. specialize (F _ E). lia.
Qed.

(** ** One request at a time *)

Lemma settle_adds_at_most_one (p : Page.State) (r : FetchResult) :
  (List.length (Page.wire (Page.settle p r))
   <= S (List.length (Page.wire p)))%nat
  /\ (Page.task p = None -> Page.settle p r = p).
Proof.
  unfold Page.settle. destruct (Page.task p) as [t|]; [|split; auto].
  split; [|discriminate].
  destruct (bind _ _ _) as [[[]|rd|e] locals]; cbn [Page.wire]; try lia.
  unfold Page.advance. destruct (Page.t_rest t) as [|[d w] rest];
    cbn [Page.wire]; [lia|]. rewrite length_app. cbn [List.length]. lia.
Qed.

Lemma step_adds_at_most_one (p : Page.State) (e : Page.Event) :
  Page.signal_free p ->
  (List.length (Page.wire (Page.step p e))
   <= List.length (Page.wire p)
      + (if Page.is_cancellation e then 0 else 1))%nat
  /\ (Page.task p = None ->
      Page.task (Page.step p e) = None
      /\ Page.wire (Page.step p e) = Page.wire p).
Proof.
  intros F. destruct e as [| |r]; cbn [Page.step Page.is_cancellation].
  - destruct (Page.controller p) as [c|];
      [rewrite (abort_signal_free c p F)|]; cbn [Page.wire Page.task];
      (split; [lia | auto]).
  - cbn [Page.wire Page.task]. split; [lia | auto].
  - destruct (settle_adds_at_most_one p r) as [L I].
    split; [lia|]. intros T. rewrite (I T). auto.
Qed.

(** X18. The trials are strictly sequential: whatever the page goes
    through, the number of requests [downloadApp] has sent never exceeds
    the number of answers it has received by more than one, so at most one
    request is in flight; and once its outcome is shown it sends nothing
    more. *)
Theorem one_request_at_a_time (devicePixelRatio : Q)
    (appId sdkVersion : Z) (options : DensityOption)
    (events more : list Page.Event) :
  let q := Page.run (Page.start devicePixelRatio appId sdkVersion options)
                    events in
  (List.length (Page.wire q)
   <= 1 + List.length (filter (fun e => negb (Page.is_cancellation e))
                              events))%nat
  /\ (Page.task q = None ->
      Page.task (Page.run q more) = None
      /\ Page.wire (Page.run q more) = Page.wire q).
Proof.
  intros q.
  assert (forall evs p,
             Page.signal_free p ->
             Page.signal_free (Page.run p evs)
             /\ (List.length (Page.wire (Page.run p evs))
                 <= List.length (Page.wire p)
                    + List.length
                        (filter (fun e => negb (Page.is_cancellation e))
                                evs))%nat
             /\ (Page.task p = None ->
                 Page.task (Page.run p evs) = None
                 /\ Page.wire (Page.run p evs) = Page.wire p)) as G.
  { induction evs as [|e evs IH]; intros p F.
    - cbn. split; [exact F|]. split; [lia | auto].
    - cbn [Page.run fold_left filter].
      pose proof (step_signal_free p e F) as F'.
      destruct (step_adds_at_most_one p e F) as [L I].
      destruct (IH (Page.step p e) F') as (F'' & L' & I').
      fold (Page.run (Page.step p e) evs).
      split; [exact F''|]. split.
      + destruct (Page.is_cancellation e); cbn [negb List.length];
          unfold Page.run in *; lia.
      + intros T. destruct (I T) as [T1 W1].
        destruct (I' T1) as [T2 W2]. unfold Page.run in *.
        split; [exact T2 | congruence]. }
  destruct (G events _ (start_signal_free devicePixelRatio appId sdkVersion
                          options)) as (F & L & _).
  fold q in F, L. split.
  - assert (List.length
              (Page.wire (Page.start devicePixelRatio appId sdkVersion
                            options)) = 1%nat) as W.
    { unfold Page.start. rewrite candidates_closed_form. reflexivity. }
    lia.
  - intros T. exact (proj2 (proj2 (G more q F)) T).
Qed.

(** ** The comments modal *)

Lemma opened_browsing (pkg filter : string) :
  browsing_invariant pkg
    (Comments.step (Comments.unused filter) (Comments.Open pkg)).
Proof.
  unfold browsing_invariant. cbn.
  repeat split; try discriminate; auto.
Qed.

Lemma take_out_nil {A} (k : nat) : Comments.take_out k (@nil A) = None.
Proof. destruct k; reflexivity. Qed.

Lemma take_out_one {A} (k : nat) (x : A) :
  Comments.take_out k [x] = match k with O => Some (x, []) | S _ => None end.
Proof. destruct k as [|k]; [reflexivity|]. cbn. now rewrite take_out_nil. Qed.

Lemma step_browsing (pkg : string) (st : Comments.State)
    (e : Comments.Event) :
  Comments.browsing e = true ->
  browsing_invariant pkg st -> browsing_invariant pkg (Comments.step st e).
Proof.
  intros B (P & K & N & C). destruct e as [x|far|v|k a]; try discriminate B.
  - (* Scroll *)
    cbn [Comments.step].
    destruct (far && Js.truthy (Comments.packageName st)
              && match Comments.allCommentsLoaded st with
                 | Some false => true
                 | _ => false
                 end
              && match Comments.canLoad st with
                 | Some true => true
                 | _ => false
                 end) eqn:G;
      [|repeat split; assumption].
    destruct (Comments.canLoad st) as [[|]|] eqn:L;
      try (rewrite !andb_false_r in G; discriminate G).
    destruct (Comments.pending st) as [|c [|c' r]] eqn:Q;
      [| now destruct C as (_ & _ & C & _) | contradiction].
    destruct (C eq_refl) as [Cp Ck].
    unfold browsing_invariant, Comments.showComments.
    cbn [Comments.requests Comments.pending Comments.canLoad
         Comments.pageCount Comments.packageName app].
    rewrite ?Q, ?Cp, ?Ck. cbn [app Comments.next_page].
    rewrite length_app, map_app, seq_app, map_app. cbn [List.length plus].
    rewrite Nat.add_1_r. cbn [seq map Comments.r_pageNumber Nat.add].
    replace (Z.of_nat (List.length (Comments.requests st) - 1) + 1)
      with (Z.of_nat (List.length (Comments.requests st))) by lia.
    split; [now rewrite P|]. split.
    { apply Forall_app. split; [exact K|]. now constructor. }
    split; [lia|].
    cbn [Comments.c_pageNumber Comments.c_packageName Comments.c_firstOpen].
    replace (S (List.length (Comments.requests st)) - 1)%nat
      with (List.length (Comments.requests st)) by lia.
    repeat split; discriminate.
  - (* Answered *)
    cbn [Comments.step].
    destruct (Comments.pending st) as [|c [|c' r]] eqn:Q; [| |contradiction].
    + rewrite take_out_nil. unfold browsing_invariant. rewrite Q.
      split; [exact P|]. split; [exact K|]. split; [exact N | exact C].
    + rewrite take_out_one.
      destruct k as [|k];
        [|unfold browsing_invariant; rewrite Q;
          split; [exact P|]; split; [exact K|]; split; [exact N | exact C]].
      destruct C as (Cp & Ck & Cl & Cf).
      unfold browsing_invariant.
      destruct a as [| |comments];
        cbn [Comments.resume Comments.requests Comments.pending
             Comments.canLoad Comments.pageCount Comments.packageName];
        (split; [exact P|]); (split; [exact K|]); (split; [exact N|]).
      * intros T. contradiction.
      * intros T. contradiction.
      * intros _. split; [exact Cp|].
        destruct (Comments.c_firstOpen c); [exact Ck | now apply Cf].
Qed.

Lemma run_browsing (pkg : string) (events : list Comments.Event) :
  forallb Comments.browsing events = true ->
  forall st, browsing_invariant pkg st ->
             browsing_invariant pkg (Comments.run st events).
Proof.
  induction events as [|e r IH]; intros B st I; [exact I|].
  cbn [forallb] in B. apply andb_prop in B as [Be Br].
  cbn [Comments.run fold_left]. apply (IH Br). now apply step_browsing.
Qed.

(** X19. While the comments of one package are browsed in a modal opened
    for the first time (scrolling and answers only), the pages are
    requested in order, 0, 1, 2, ..., all for that package, and never two
    at once: a scroll requests nothing until the page before has been
    served. *)
Theorem comment_pages_are_requested_in_order (pkg filter : string)
    (events : list Comments.Event) :
  forallb Comments.browsing events = true ->
  let st := Comments.run (Comments.step (Comments.unused filter)
                                        (Comments.Open pkg)) events in
  map Comments.r_pageNumber (Comments.requests st)
  = map (fun k => Some (Z.of_nat k))
        (seq 0 (List.length (Comments.requests st)))
  /\ Forall (fun r => Comments.r_packageName r = Some pkg)
            (Comments.requests st)
  /\ (List.length (Comments.pending st) <= 1)%nat
  /\ (Comments.canLoad st = Some true -> Comments.pending st = []).
Proof.
  intros B st.
  destruct (run_browsing pkg events B _ (opened_browsing pkg filter))
    as (P & K & N & C).
  fold st in P, K, N, C.
  split; [exact P|]. split; [exact K|].
  destruct (Comments.pending st) as [|c [|c' r]]; [| |contradiction].
  - split; [cbn; lia | reflexivity].
  - split; [cbn; lia|]. intros T. now destruct C as (_ & _ & C & _).
Qed.

Lemma idle_browsing (events : list Comments.Event) :
  forallb Comments.browsing events = true ->
  forall st,
    Comments.pending st = [] ->
    Comments.allCommentsLoaded st <> Some false
    \/ Comments.canLoad st <> Some true ->
    Comments.run st events = st.
Proof.
  induction events as [|e r IH]; intros B st Q H; [reflexivity|].
  cbn [forallb] in B. apply andb_prop in B as [Be Br].
  cbn [Comments.run fold_left].
  assert (Comments.step st e = st) as ->; [|now apply IH].
  destruct e as [x|far|v|k a]; try discriminate Be; cbn [Comments.step].
  - destruct (Comments.allCommentsLoaded st) as [[|]|];
      rewrite ?andb_false_r; try reflexivity.
    destruct (Comments.canLoad st) as [[|]|];
      rewrite ?andb_false_r; try reflexivity.
    destruct H as [H | H]; now contradiction H.
  - rewrite Q. now rewrite take_out_nil.
Qed.

(** X20. Scrolling stops loading for good once the awaited page is served
    with fewer than 20 comments, and also once the load of a page that was
    scrolled for fails or is refused: [canLoad] was set to [false] for the
    load and only a served page sets it back. From then on scrolls and
    late answers change nothing. *)
Theorem scrolling_stops_loading (st : Comments.State) (c : Comments.Call)
    (answer : Comments.Answer) (events : list Comments.Event) :
  Comments.pending st = [c] ->
  (exists comments,
      answer = Comments.Served comments
      /\ (List.length comments < 20)%nat)
  \/ ((answer = Comments.Unreachable \/ answer = Comments.Refused)
      /\ Comments.canLoad st <> Some true) ->
  forallb Comments.browsing events = true ->
  let after := Comments.step st (Comments.Answered 0 answer) in
  Comments.run after events = after
  /\ Comments.requests after = Comments.requests st.
Proof.
  intros Q H B after.
  assert (after
          = Comments.resume c answer
              {| Comments.pageCount := Comments.pageCount st;
                 Comments.packageName := Comments.packageName st;
                 Comments.allCommentsLoaded := Comments.allCommentsLoaded st;
                 Comments.canLoad := Comments.canLoad st;
                 Comments.filterOption := Comments.filterOption st;
                 Comments.body := Comments.body st;
                 Comments.requests := Comments.requests st;
                 Comments.pending := [] |}) as E.
  { unfold after. cbn [Comments.step]. now rewrite Q. }
  split.
  - apply idle_browsing; [exact B | |]; rewrite E.
    + destruct answer; reflexivity.
    + destruct H as [(comments & -> & L) | [[-> | ->] L]];
        cbn [Comments.resume Comments.allCommentsLoaded Comments.canLoad].
      * left. apply Nat.ltb_lt in L. rewrite L. discriminate.
      * right. exact L.
      * right. exact L.
  - rewrite E. destruct answer; reflexivity.
Qed.

(** X21. The modal's [dataset] outlives the package it was filled for:
    when the modal is opened for another package while the previous one
    still has pages to load, a scroll that comes before the new answer
    requests the next page of the previous package. *)
Theorem reopened_modal_scrolls_for_the_old_package (st : Comments.State)
    (old new : string) (n : Z) :
  Comments.packageName st = Some old ->
  old <> ""%string ->
  Comments.allCommentsLoaded st = Some false ->
  Comments.canLoad st = Some true ->
  Comments.pageCount st = Some n ->
  let after := Comments.run st [Comments.Open new; Comments.Scroll true] in
  Comments.requests after
  = Comments.requests st
      ++ [ {| Comments.r_packageName := Some new;
              Comments.r_sortBy := Comments.filterOption st;
              Comments.r_pageNumber := Some 0 |};
           {| Comments.r_packageName := Some old;
              Comments.r_sortBy := Comments.filterOption st;
              Comments.r_pageNumber := Some (n + 1) |} ]
  /\ Comments.body after = [Comments.LoadingText].
Proof.
  intros P T A C N after. unfold after.
  cbn [Comments.run fold_left Comments.step Comments.showComments
       Comments.packageName Comments.allCommentsLoaded Comments.canLoad
       Comments.pageCount Comments.requests Comments.filterOption
       Comments.body Comments.pending].
  rewrite P, A, C, N.
  destruct old as [|x old]; [contradiction|].
  cbn [Js.truthy andb Comments.next_page Comments.requests Comments.body].
  unfold Comments.showComments.
  cbn [Comments.requests Comments.body Comments.filterOption].
  split; [now rewrite <- app_assoc|].
  destruct (n + 1) as [|q|q]; reflexivity.
Qed.

(** ** The link behind "Start download" *)

Lemma same_idx_same_item (l : list Item) (x y : Item) :
  NoDup (map idx l) -> In x l -> In y l -> idx x = idx y -> x = y.
Proof.
  intros ND Hx Hy E.
  pose proof (one_item_per_idx l x ND Hx) as Ox.
  pose proof (one_item_per_idx l y ND Hy) as Oy.
  rewrite E in Ox. rewrite Ox in Oy. now injection Oy.
Qed.

Lemma items_after_nameless (pre : list RawArtifact) (u : RawArtifact)
    (post : list RawArtifact) :
  Forall (fun x => Spec.has_url x = false) pre ->
  Spec.has_url u = true ->
  forall i,
    filter (fun x => Js.truthy (url x)) (index_from i (pre ++ u :: post))
    = to_item u (i + List.length pre)
        :: filter (fun x => Js.truthy (url x))
                  (index_from (S (i + List.length pre)) post).
Proof.
  intros Hpre Hu. induction Hpre as [|x r Hx _ IH]; intros i.
  - cbn [app index_from filter List.length]. unfold to_item at 1.
    cbn [url]. rewrite truthy_has_url, Hu. now rewrite Nat.add_0_r.
  - cbn [app index_from filter List.length]. unfold to_item at 1.
    cbn [url]. rewrite truthy_has_url, Hx, IH.
    now rewrite Nat.add_succ_r.
Qed.

(** X22. "Start download" opens the first entry that has a URL, not the
    base: when a later entry with a URL is larger, the link that is
    opened belongs to an entry the plan marks as a config split. *)
Theorem start_download_may_open_a_split (appId : Z) (data : Data)
    (meta : Meta) (pre post : list RawArtifact) (u v : RawArtifact) :
  downloadUrls_of data = pre ++ u :: post ->
  Forall (fun x => Spec.has_url x = false) pre ->
  Spec.has_url u = true ->
  In v post -> Spec.has_url v = true ->
  Spec.size_of u < Spec.size_of v ->
  let r := renderDownloadLinks appId data meta in
  firstLink r = raw_url u
  /\ exists e rest,
       plan r = e :: rest
       /\ url (item e) = raw_url u
       /\ role e = config.
Proof.
  intros E Hpre Hu Hv Hvu L r.
  assert (items_of (downloadUrls_of data)
          = to_item u (List.length pre)
              :: filter (fun x => Js.truthy (url x))
                        (index_from (S (List.length pre)) post)) as I.
  { unfold items_of. rewrite E.
    now rewrite (items_after_nameless pre u post Hpre Hu 0). }
  split.
  { unfold firstLink, r, renderDownloadLinks. cbn [allLinks].
    rewrite <- (links_of_items (downloadUrls_of data) 0).
    change (filter (fun x => Js.truthy (url x))
                   (index_from 0 (downloadUrls_of data)))
      with (items_of (downloadUrls_of data)).
    rewrite I. cbn [map hd_error to_item url]. unfold Spec.has_url in Hu.
    destruct (raw_url u) as [[|c s]|]; try discriminate Hu. reflexivity. }
  unfold r, renderDownloadLinks. cbn [plan]. unfold buildDownloadPlan.
  unfold baseIdx_of.
  destruct (Js.sort by_size_desc (items_of (downloadUrls_of data)))
    as [|h t] eqn:Es.
  { apply sort_nil in Es. rewrite I in Es. discriminate Es. }
  destruct (sort_head_first_largest _ _ _ Es) as (l1 & l2 & El & F1 & F2).
  assert (forall x, In x (items_of (downloadUrls_of data)) ->
                    size_or_0 x <= size_or_0 h) as Hmax.
  { intros x Hx. rewrite El in Hx. apply in_app_or in Hx as [Hx | [<- | Hx]].
    - rewrite Forall_forall in F1. specialize (F1 _ Hx). lia.
    - lia.
    - rewrite Forall_forall in F2. exact (F2 _ Hx). }
  assert (In h (items_of (downloadUrls_of data))) as Hh
    by (rewrite El; apply in_elt).
  assert (exists k, In (to_item v k) (items_of (downloadUrls_of data)))
    as [k Hk].
  { destruct (index_from_In post (S (List.length pre)) v Hv) as [k Hk].
    exists k. rewrite I. right. apply filter_In. split; [exact Hk|].
    cbn [to_item url]. now rewrite truthy_has_url. }
  assert (idx (to_item u (List.length pre)) <> idx h) as N.
  { intros Eq.
    assert (to_item u (List.length pre) = h) as <-.
    { apply (same_idx_same_item (items_of (downloadUrls_of data)));
        [apply items_idx_NoDup | rewrite I; now left | exact Hh | exact Eq]. }
    specialize (Hmax _ Hk). rewrite !size_or_0_to_item in Hmax. lia. }
  rewrite I. cbn [assign_roles is_base].
  apply Nat.eqb_neq in N. rewrite N.
  eexists _, _. split; [reflexivity|]. split; reflexivity.
Qed.

(** ** The further properties at sample inputs *)

Lemma outcome_is_justified_by_the_answers_witness :
  exists pre p post,
    Spec.trial_list (densityCandidates_of (requestedDensity_of NotGiven 1))
    = pre ++ p :: post
    /\ Spec.ok_data (Sample.only_160_without_splits (Spec.request_of 7 21 p))
       = Some Sample.found.
Proof.
  destruct (proj1 (outcome_is_justified_by_the_answers
                     Sample.only_160_without_splits 1 7 21 NotGiven)
                  (renderDownloadLinks 7 Sample.found
                     (Spec.profile_of (160, true)))
                  eq_refl)
    as (pre & p & post & E & _ & Hok & _).
  exists pre, p, post. split; [exact E | exact Hok].
Defined.

Lemma failure_text_comes_from_the_answer_witness :
  exists text,
    downloadApp Sample.always_refused 1 7 21 NotGiven
    = (Failure text, map (Spec.request_of 7 21) ([] ++ [(240, false)]))
    /\ text = Js.or_else (Some "App not found"%string) "Please try again".
Proof.
  destruct (failure_text_comes_from_the_answer
              Sample.always_refused 1 7 21 NotGiven []
              [(240, true); (480, false); (480, true); (320, false);
               (320, true); (160, false); (160, true); (0, false); (0, true)]
              (240, false) eq_refl (Forall_nil _) eq_refl)
    as (text & R & T & _).
  exists text. split; [exact R | exact T].
Defined.

Lemma select_shows_the_used_density_witness :
  selected_options 160 = [160] /\ initial_select_value 160 = 160.
Proof.
  exact (select_shows_the_used_density
           Sample.only_160_without_splits 1 7 21 NotGiven
           (renderDownloadLinks 7 Sample.found (Spec.profile_of (160, true)))
           I eq_refl).
Defined.

Lemma retry_reproduces_the_result_witness :
  fst (retryDownload Sample.only_160_without_splits 3 7 21 (Some 160)
         (renderDownloadLinks 7 Sample.found (Spec.profile_of (160, true))))
  = Success (renderDownloadLinks 7 Sample.found (Spec.profile_of (160, true)))
  /\ List.length
       (snd (retryDownload Sample.only_160_without_splits 3 7 21 (Some 160)
               (renderDownloadLinks 7 Sample.found
                  (Spec.profile_of (160, true)))))
     = 2%nat.
Proof.
  exact (retry_reproduces_the_result
           Sample.only_160_without_splits 1 3 7 21 NotGiven
           (renderDownloadLinks 7 Sample.found (Spec.profile_of (160, true)))
           (Some 160) I eq_refl (or_intror eq_refl)).
Defined.

Lemma entries_without_url_end_the_search_witness :
  exists r,
    downloadApp More.always_nameless 1 7 21 NotGiven
    = (Success r, map (Spec.request_of 7 21) ([] ++ [(240, false)]))
    /\ plan r = []
    /\ allLinks r = []
    /\ isSplitSet r = false
    /\ copyLinksText r = ""%string.
Proof.
  apply (entries_without_url_end_the_search More.always_nameless 1 7 21
           NotGiven []
           [(240, true); (480, false); (480, true); (320, false);
            (320, true); (160, false); (160, true); (0, false); (0, true)]
           (240, false) More.nameless).
  - reflexivity.
  - apply Forall_nil.
  - reflexivity.
  - discriminate.
  - apply Forall_cons; [reflexivity | apply Forall_nil].
Defined.

Lemma filenames_are_plain_witness :
  all_chars filename_char "rustore_7_42_base.apk" = true
  /\ all_chars filename_char "rustore_7_1e+21_base_zz.apk"
     = all_chars filename_char "1e+21".
Proof.
  split.
  - apply (proj2 (filenames_are_plain 7 eq_refl) Sample.found More.base_entry).
    + reflexivity.
    + right. left. reflexivity.
  - apply (proj1 (filenames_are_plain 7 eq_refl) "1e+21"%string (Some 3%nat)
             1%nat [More.hashed_item] More.exponent_entry).
    left. reflexivity.
Defined.

Lemma safeHash_is_short_and_clean_witness :
  safeHash_of More.hashed_item = "zz"%string.
Proof.
  apply (proj2 (proj2 (safeHash_is_short_and_clean More.hashed_item))).
  - reflexivity.
  - reflexivity.
  - cbn. lia.
Defined.

Lemma guess_follows_the_buckets_witness :
  guessAndroidScreenDensity 1 = 240 /\ guessAndroidScreenDensity (5 # 2) = 320.
Proof.
  split.
  - apply (proj1 (guess_follows_the_buckets 1)). reflexivity.
  - apply (proj1 (proj2 (guess_follows_the_buckets (5 # 2)))).
    + discriminate.
    + reflexivity.
Defined.

Lemma escapeHtml_is_characterwise_witness :
  Html.escapeHtml "rustore_7" = "rustore_7"%string.
Proof.
  apply (proj2 (proj2 (proj2 (escapeHtml_is_characterwise "rustore_7" "")))).
  reflexivity.
Defined.

Lemma escapeHtml_is_injective_witness :
  "a<b&c"%string = "a<b&c"%string.
Proof.
  apply (escapeHtml_is_injective "a<b&c" "a<b&c"). reflexivity.
Defined.

Lemma preview_stays_on_the_screenshots_witness :
  Preview.shown_image (Preview.openPreview "b.png" More.shots)
  = Some "b.png"%string
  /\ exists u,
       Preview.shown_image
         (Preview.navigate_all ["next"; "next"; "next"; "prev"]%string
            (Preview.openPreview "b.png" More.shots))
       = Some u
       /\ In u More.shots.
Proof.
  destruct (preview_stays_on_the_screenshots "b.png" More.shots
              ["next"; "next"; "next"; "prev"]%string)
    as (O & _ & _ & S).
  - right. left. reflexivity.
  - split; [exact O | exact S].
Defined.

Lemma buttons_agree_with_navigation_witness :
  Preview.navigateImage "prev" (Preview.navigateImage "next" More.second_shot)
  = More.second_shot.
Proof.
  apply (proj1 (proj2 (proj2 (proj2 (proj2
           (buttons_agree_with_navigation More.second_shot)))))).
  - discriminate.
  - reflexivity.
Defined.

Lemma preview_of_an_unlisted_image_witness :
  Preview.previewImage_src (Preview.open_view "z.png" More.shots)
  = Some "z.png"%string
  /\ Preview.previewImage_src
       (Preview.navigate_view "next" (Preview.open_view "z.png" More.shots))
     = Some "a.png"%string
  /\ Preview.previewImage_src
       (Preview.navigate_view_all ["next"; "prev"; "prev"]%string
          (Preview.open_view "z.png" More.shots))
     <> Some "z.png"%string.
Proof.
  destruct (preview_of_an_unlisted_image "z.png" More.shots
              ["next"; "prev"; "prev"]%string)
    as (_ & A & _ & _ & B & C).
  - intros [H | [H | [H | []]]]; discriminate H.
  - split; [exact A|]. split; [exact B|]. apply C. discriminate.
Defined.

Lemma android_version_or_api_level_witness :
  (exists version,
      Android.lookup 21 Android.sdkVersions = Some version
      /\ version <> ""%string
      /\ Android.getAndroidVersion 21 = ("Android " ++ version)%string)
  /\ Android.getAndroidVersion 40 = "API 40"%string.
Proof.
  split.
  - apply (proj1 (android_version_or_api_level 21)). lia.
  - apply (proj2 (android_version_or_api_level 40)). right. lia.
Defined.

Lemma one_request_at_a_time_witness :
  Page.wire
    (Page.run
       (Page.run (Page.start 1 7 21 NotGiven)
                 [Page.FetchSettled (Responded 200 (Parsed Sample.found))])
       Sample.later_answers)
  = Page.wire
      (Page.run (Page.start 1 7 21 NotGiven)
                [Page.FetchSettled (Responded 200 (Parsed Sample.found))]).
Proof.
  apply (proj2 (one_request_at_a_time 1 7 21 NotGiven
                  [Page.FetchSettled (Responded 200 (Parsed Sample.found))]
                  Sample.later_answers)).
  reflexivity.
Defined.

Lemma comment_pages_are_requested_in_order_witness :
  (List.length
     (Comments.pending
        (Comments.run
           (Comments.step (Comments.unused "NEW_FIRST")
                          (Comments.Open "ru.app"))
           [Comments.Scroll true; Comments.Answered 0 (Comments.Served []);
            Comments.Scroll true]))
   <= 1)%nat.
Proof.
  destruct (comment_pages_are_requested_in_order "ru.app" "NEW_FIRST"
              [Comments.Scroll true; Comments.Answered 0 (Comments.Served []);
               Comments.Scroll true] eq_refl)
    as (_ & _ & L & _).
  exact L.
Defined.

Lemma scrolling_stops_loading_witness :
  Comments.run
    (Comments.step More.awaiting_second_page
                   (Comments.Answered 0 Comments.Unreachable))
    [Comments.Scroll true; Comments.Scroll true]
  = Comments.step More.awaiting_second_page
                  (Comments.Answered 0 Comments.Unreachable).
Proof.
  apply (scrolling_stops_loading More.awaiting_second_page
           {| Comments.c_packageName := Some "ru.app"%string;
              Comments.c_pageNumber := Some 1;
              Comments.c_firstOpen := false |}
           Comments.Unreachable
           [Comments.Scroll true; Comments.Scroll true]).
  - reflexivity.
  - right. split; [now left | discriminate].
  - reflexivity.
Defined.

Lemma reopened_modal_scrolls_for_the_old_package_witness :
  map Comments.r_packageName
      (Comments.requests
         (Comments.run More.first_page_shown
                       [Comments.Open "ru.other"; Comments.Scroll true]))
  = [Some "ru.other"%string; Some "ru.app"%string].
Proof.
  rewrite (proj1 (reopened_modal_scrolls_for_the_old_package
                    More.first_page_shown "ru.app" "ru.other" 0
                    eq_refl ltac:(discriminate) eq_refl eq_refl eq_refl)).
  reflexivity.
Defined.

Lemma start_download_may_open_a_split_witness :
  firstLink (renderDownloadLinks 7 More.split_first Sample.meta_240)
  = Some "https://cdn/s.apk"%string
  /\ exists e rest,
       plan (renderDownloadLinks 7 More.split_first Sample.meta_240)
       = e :: rest
       /\ url (item e) = Some "https://cdn/s.apk"%string
       /\ role e = config.
Proof.
  apply (start_download_may_open_a_split 7 More.split_first Sample.meta_240
           [] [Sample.artifact (Some "https://cdn/m.apk") (Some 90) None]
           (Sample.artifact (Some "https://cdn/s.apk") (Some 2) None)
           (Sample.artifact (Some "https://cdn/m.apk") (Some 90) None)).
  - reflexivity.
  - apply Forall_nil.
  - reflexivity.
  - left. reflexivity.
  - reflexivity.
  - reflexivity.
Defined.
